(** * ZakuZaku: the quiz parser, the spaced-repetition store and the answer
      verifier, embedded from the Python sources

    Sources embedded here:
    - [src/quiz_manager.py]  (class [QuizManager]): answer verification and
      the choice of the next question;
    - [src/database.py]      (class [Database]): the three SQLite tables and
      the SM-2 style update of the review state;
    - [src/quiz_parser.py]   (class [QuizParser]): the JSON and the Markdown
      readers.

    Conventions of the embedding.
    - Python [str] is [string]; the model is exact on ASCII text.  The single
      non-ASCII literal of the sources, the answer-line keyword
      [Odpowiedź:], is carried as its UTF-8 bytes.
    - Python [int] is [Z] (unbounded); Python [float] and SQLite [REAL] are
      the binary64 numbers of [PrimFloat].
    - Python exceptions are the [Raise] results of a small error monad.
    - A [datetime] is the count of microseconds from 0001-01-01T00:00:00;
      every reading of the clock is passed in ([now], and [later] where a
      function reads the clock a second time).  A sum that leaves the
      calendar, which ends with the year 9999, raises as it does in
      Python.  SQLite compares the ISO texts of the timestamps, which
      orders them as the integers are ordered.  The 64-bit range of the
      SQLite [INTEGER] is not part of the model. *)

From Stdlib Require Import ZArith QArith Qround Floats Lia Bool Ascii String Sorted Permutation.
From stdpp Require Import gmap strings list pretty.

Set Warnings "-inexact-float".
Close Scope Q_scope.
Local Open Scope Z_scope.

(* ===================================================================== *)
(** * Part I.  The model                                                  *)
(* ===================================================================== *)

(** ** Exceptions *)

Inductive exn : Set :=
| IndexError | TypeError | ValueError | OverflowError
| ZeroDivisionError | AttributeError | FileNotFoundError.

Inductive result (A : Type) : Type :=
| Ok (a : A)
| Raise (e : exn).
Arguments Ok {A} a.
Arguments Raise {A} e.

(** The monad of computations that may raise; [x ← r; k] is stdpp's
    notation for its bind. *)
#[global] Instance result_ret : MRet result := fun A a => Ok a.
#[global] Instance result_bind : MBind result := fun A B k r =>
  match r with
  | Ok a => k a
  | Raise e => Raise e
  end.

(** ** Python strings *)

Module PyStr.

(** [str.isspace] on one ASCII character: TAB..CR, FS..US and the space. *)
Definition isspace (c : ascii) : bool :=
  let n := N_of_ascii c in
  ((9 <=? n) && (n <=? 13) || (28 <=? n) && (n <=? 32))%N.

Definition lower_char (c : ascii) : ascii :=
  let n := N_of_ascii c in
  if ((65 <=? n) && (n <=? 90))%N then ascii_of_N (n + 32) else c.

Definition upper_char (c : ascii) : ascii :=
  let n := N_of_ascii c in
  if ((97 <=? n) && (n <=? 122))%N then ascii_of_N (n - 32) else c.

Fixpoint map_chars (f : ascii -> ascii) (s : string) : string :=
  match s with
  | EmptyString => EmptyString
  | String c r => String (f c) (map_chars f r)
  end.

(** [s.lower()] and [s.upper()] on ASCII text: the letters A-Z and a-z
    change case and every other byte stays.  Outside ASCII Python maps
    other letters too, and there its two functions do not undo each other
    (the sharp s, U+00DF, is capitalised to SS): the byte-wise mappings are
    Python's functions on ASCII text only.  The sources call [upper] on
    text that the choice pattern has matched with [[A-D,\s]+], on one
    normalized character that is then looked up in ABCD, and on characters
    already found among the letters a-d, the comma and the space: in none
    of these does a character outside ASCII make a difference. *)
Definition lower : string -> string := map_chars lower_char.
Definition upper : string -> string := map_chars upper_char.

Definition is_empty (s : string) : bool :=
  match s with EmptyString => true | _ => false end.

Fixpoint lstrip (s : string) : string :=
  match s with
  | EmptyString => EmptyString
  | String c r => if isspace c then lstrip r else s
  end.

Fixpoint rstrip (s : string) : string :=
  match s with
  | EmptyString => EmptyString
  | String c r =>
      let r' := rstrip r in
      if is_empty r' && isspace c then EmptyString else String c r'
  end.

(** [s.strip()] *)
Definition strip (s : string) : string := rstrip (lstrip s).

Definition snoc (s : string) (c : ascii) : string :=
  String.append s (String c EmptyString).

(** [s.split()]: the maximal runs of non-space characters.  [cur] is the
    word being read. *)
Fixpoint split_ws_from (cur s : string) : list string :=
  match s with
  | EmptyString => if is_empty cur then [] else [cur]
  | String c r =>
      if isspace c
      then (if is_empty cur then split_ws_from EmptyString r
            else cur :: split_ws_from EmptyString r)
      else split_ws_from (snoc cur c) r
  end.
Definition split_ws : string -> list string := split_ws_from EmptyString.

(** [s.split(sep)] for a one-character separator: empty pieces are kept. *)
Fixpoint split_on_from (sep : ascii) (cur s : string) : list string :=
  match s with
  | EmptyString => [cur]
  | String c r =>
      if Ascii.eqb c sep then cur :: split_on_from sep EmptyString r
      else split_on_from sep (snoc cur c) r
  end.
Definition split_on (sep : ascii) : string -> list string :=
  split_on_from sep EmptyString.

(** [re.split(r'[cls]+', s)] for a character class [cls]: the pieces
    between the maximal runs of class characters; a run at either end of
    [s] leaves an empty piece there. *)
Fixpoint split_runs_from (cls : ascii -> bool) (in_run : bool) (cur s : string)
  : list string :=
  match s with
  | EmptyString => [cur]
  | String c r =>
      if cls c
      then (if in_run then split_runs_from cls true cur r
            else cur :: split_runs_from cls true EmptyString r)
      else split_runs_from cls false (snoc cur c) r
  end.
Definition split_runs (cls : ascii -> bool) : string -> list string :=
  split_runs_from cls false EmptyString.

(** [needle in hay] *)
Fixpoint contains (hay needle : string) : bool :=
  String.prefix needle hay ||
  match hay with
  | EmptyString => false
  | String _ r => contains r needle
  end.

(** [sep.join(l)] *)
Fixpoint join (sep : string) (l : list string) : string :=
  match l with
  | [] => EmptyString
  | [x] => x
  | x :: rest => String.append x (String.append sep (join sep rest))
  end.

(** The characters of a string, as one-character strings. *)
Fixpoint chars (s : string) : list string :=
  match s with
  | EmptyString => []
  | String c r => String c EmptyString :: chars r
  end.

Definition len (s : string) : Z := Z.of_nat (String.length s).

End PyStr.

(** ** Python numbers *)

Module PyNum.

(** The binary64 number nearest to an integer, ties to even (infinite
    when the integer is out of range). *)
Definition float_of_Z (z : Z) : float :=
  SF2Prim (binary_normalize prec emax z 0 false).

(** [float(z)], as done when an [int] meets a [float] in arithmetic; too
    large an [int] raises. *)
Definition float_of_int (z : Z) : result float :=
  if is_infinity (float_of_Z z) then Raise OverflowError else Ok (float_of_Z z).

(** The magnitude [m * 2^e] cut to an integer. *)
Definition magnitude_trunc (m : positive) (e : Z) : Z :=
  if 0 <=? e then Z.pos m * 2 ^ e else Z.pos m / 2 ^ (- e).

(** [int(f)]: truncation towards zero; NaN and the infinities raise. *)
Definition int_of_float (f : float) : result Z :=
  match Prim2SF f with
  | S754_nan => Raise ValueError
  | S754_infinity _ => Raise OverflowError
  | S754_zero _ => Ok 0
  | S754_finite s m e => Ok (cond_Zopp s (magnitude_trunc m e))
  end.

(** [z * f] for an [int] [z] and a [float] [f]. *)
Definition mul_int_float (z : Z) (f : float) : result float :=
  zf ← float_of_int z; Ok (zf * f)%float.

(** [k / n] for two [int]s that are sizes of collections: the quotient
    rounded to binary64.  Sizes lie far below [2^53], where the
    conversions are exact, so the division is the only rounding. *)
Definition truediv (k n : Z) : result float :=
  if n =? 0 then Raise ZeroDivisionError
  else Ok (float_of_Z k / float_of_Z n)%float.

(** [max(a, b)] of two floats: [b] replaces [a] only when [b > a]. *)
Definition max (a b : float) : float :=
  if (a <? b)%float then b else a.

(** The rational value of a finite binary64 number (0 for the others),
    and its mathematical floor. *)
Definition Q_of_float (f : float) : Q :=
  match Prim2SF f with
  | S754_finite s m e =>
      if 0 <=? e then inject_Z (cond_Zopp s (Z.pos m * 2 ^ e))
      else Qmake (cond_Zopp s (Z.pos m)) (Z.to_pos (2 ^ (- e)))
  | _ => 0%Q
  end.
Definition floor_of_float (f : float) : Z := Qfloor (Q_of_float f).

(** [a <= b] on floats, as a proposition. *)
Definition fle (a b : float) : Prop := (a <=? b)%float = true.

(** A value of the format that is not negative: a zero, or a positive
    number, [+inf] included (NaN is let through). *)
Definition nonneg_sf (x : spec_float) : bool :=
  match x with
  | S754_zero _ | S754_nan => true
  | S754_infinity s | S754_finite s _ _ => negb s
  end.

End PyNum.

(** ** The answer verifier ([QuizManager], src/quiz_manager.py) *)

Module Verifier.
Import PyStr.

(** [s.strip().lower()] *)
Definition normalize (s : string) : string := lower (strip s).

(** [ord(s)]: defined on one-character strings only. *)
Definition ord (s : string) : result Z :=
  match s with
  | String c EmptyString => Ok (Z.of_N (N_of_ascii c))
  | _ => Raise TypeError
  end.

(** [l[i]]: negative indices count from the end; out of range raises. *)
Definition index {A} (l : list A) (i : Z) : result A :=
  let n := Z.of_nat (length l) in
  let j := if i <? 0 then i + n else i in
  if (0 <=? j) && (j <? n)
  then match l !! Z.to_nat j with
       | Some x => Ok x
       | None => Raise IndexError
       end
  else Raise IndexError.

(** Truth value of an optional list: [None] and [[]] are false. *)
Definition truthy {A} (o : option (list A)) : bool :=
  match o with
  | Some (_ :: _) => true
  | _ => false
  end.

Definition words (s : string) : gset string := list_to_set (split_ws s).
Definition as_set (l : list string) : gset string := list_to_set l.

(** [_check_single_choice_answer], lines 136-148. *)
Definition _check_single_choice_answer
    (user_answer correct_answer : string) (options : list string) : result bool :=
  let user_normalized := normalize user_answer in
  let full_answer :=
    Ok (String.eqb user_normalized (normalize correct_answer)) in
  if (PyStr.len user_normalized =? 1) && contains "ABCD" (upper user_normalized)
  then
    o ← ord (upper user_normalized);
    a ← ord "A";
    let letter_index := o - a in
    if (0 <=? letter_index) && (letter_index <? Z.of_nat (length options))
    then
      user_answer_text ← index options letter_index;
      Ok (String.eqb (normalize user_answer_text) (normalize correct_answer))
    else full_answer
  else full_answer.

(** The [for letter in user_letters] loop of lines 160-163; [acc] is
    [user_answers]. *)
Fixpoint collect_user_answers
    (options : list string) (user_letters : list string) (acc : list string)
  : result (list string) :=
  match user_letters with
  | [] => Ok acc
  | letter :: rest =>
      o ← ord letter;
      a ← ord "A";
      let letter_index := o - a in
      if (0 <=? letter_index) && (letter_index <? Z.of_nat (length options))
      then
        t ← index options letter_index;
        collect_user_answers options rest (acc ++ [normalize t])
      else collect_user_answers options rest acc
  end.

(** [_check_multiple_choice_answer], lines 150-175. *)
Definition _check_multiple_choice_answer
    (user_answer : string) (correct_answers : list string)
    (options : option (list string)) : result bool :=
  let user_normalized := normalize user_answer in
  if forallb (fun c => contains "abcd, " c) (chars user_normalized)
  then
    let user_letters :=
      List.filter (fun c => contains "ABCD" c)
                  (map upper (chars user_normalized)) in
    user_answers ←
      (if truthy options
       then collect_user_answers (default [] options) user_letters []
       else Ok []);
    let correct_normalized := map normalize correct_answers in
    Ok (bool_decide (as_set user_answers = as_set correct_normalized))
  else
    let user_parts := map normalize (split_on "," user_answer) in
    let correct_normalized := map normalize correct_answers in
    Ok (bool_decide (as_set user_parts = as_set correct_normalized)).

(** [_check_text_answer], lines 177-198. *)
Definition _check_text_answer (user_answer correct_answer : string) : result bool :=
  let user_normalized := normalize user_answer in
  let correct_normalized := normalize correct_answer in
  let is_exact_match := String.eqb user_normalized correct_normalized in
  is_partial_match ←
    (if 10 <? PyStr.len correct_normalized
     then
       let correct_words := words correct_normalized in
       let user_words := words user_normalized in
       if 0 <? Z.of_nat (size correct_words)
       then
         match_ratio ← PyNum.truediv (Z.of_nat (size (correct_words ∩ user_words)))
                                     (Z.of_nat (size correct_words));
         Ok (0.7 <=? match_ratio)%float
       else Ok false
     else Ok false);
  Ok (is_exact_match || is_partial_match).

(** The verdict computed by [check_answer], lines 116-124. *)
Definition verdict
    (user_answer correct_answer question_type : string)
    (options correct_answers : option (list string)) : result bool :=
  if String.eqb question_type "single_choice" && truthy options
  then _check_single_choice_answer user_answer correct_answer (default [] options)
  else if String.eqb question_type "multiple_choice" && truthy correct_answers
  then _check_multiple_choice_answer user_answer (default [] correct_answers) options
  else _check_text_answer user_answer correct_answer.

End Verifier.

(** ** The review store ([Database], src/database.py) *)

Module Store.

Definition timestamp := Z.

(** A [datetime], in microseconds from 0001-01-01T00:00:00, where the
    type begins; it ends with the year 9999, 3652059 days later. *)
Definition datetime_limit : Z := 3652059 * 86400000000.

Definition is_datetime (t : Z) : Prop := 0 <= t < datetime_limit.

(** [n] days in microseconds. *)
Definition timedelta_days (n : Z) : Z := n * 86400000000.

(** [timedelta(days=n)]: the constructor refuses more than 999999999
    days, in either direction. *)
Definition timedelta (n : Z) : result Z :=
  if Z.abs n <=? 999999999 then Ok (timedelta_days n) else Raise OverflowError.

(** [t + d] for a [datetime] [t] and a [timedelta] [d]: the sum has to
    be a [datetime]. *)
Definition datetime_add (t : timestamp) (d : Z) : result timestamp :=
  if (0 <=? t + d) && (t + d <? datetime_limit) then Ok (t + d)
  else Raise OverflowError.

(** Table [questions]. *)
Record question_row := {
  q_id : Z;
  q_quiz_file : string;
  q_question_id : string;
  q_question_text : string;
  q_correct_answer : string;
  q_question_type : string;
  q_options : option (list string);
  q_correct_answers : option (list string)
}.

(** Table [user_answers].  SQLite stamps the row itself when it is
    inserted ([DEFAULT CURRENT_TIMESTAMP]); the model writes the reading
    [now] of the call there. *)
Record answer_row := {
  a_question_id : Z;
  a_user_answer : string;
  a_is_correct : bool;
  a_timestamp : timestamp;
  a_response_time : option float
}.

(** Table [srs_stats], keyed by [question_id]. *)
Record srs_row := {
  difficulty : float;
  interval_days : Z;
  repetitions : Z;
  next_review : option timestamp;
  ease_factor : float;
  last_review : option timestamp
}.

(** The database file.  [questions] is kept in rowid order;
    [questions_seq] is the [AUTOINCREMENT] counter of the table, the
    largest rowid it has ever handed out.  Foreign keys are declared but
    not enforced (sqlite3 leaves [PRAGMA foreign_keys] off). *)
Record Database := {
  questions : list question_row;
  questions_seq : Z;
  user_answers : list answer_row;
  srs_stats : gmap Z srs_row
}.

(** [_init_database] on a new file: three empty tables. *)
Definition empty_db : Database :=
  {| questions := []; questions_seq := 0; user_answers := []; srs_stats := ∅ |}.

(** The column defaults of [srs_stats], lines 57-68. *)
Definition default_srs (next : timestamp) : srs_row :=
  {| difficulty := 2.5; interval_days := 1; repetitions := 0;
     next_review := Some next; ease_factor := 2.5; last_review := None |}.

Definition same_identity (quiz_file question_id : string) (q : question_row) : bool :=
  String.eqb (q_quiz_file q) quiz_file && String.eqb (q_question_id q) question_id.

(** [get_question_db_id], lines 99-108. *)
Definition get_question_db_id (db : Database) (quiz_file question_id : string)
  : option Z :=
  q_id <$> List.find (same_identity quiz_file question_id) (questions db).

(** [json.dumps(l) if l else None]: the list is stored only when it is
    non-empty; reading the text back with [json.loads] gives the list
    again, so the column holds the list itself. *)
Definition json_column (l : option (list string)) : option (list string) :=
  if Verifier.truthy l then l else None.

(** [add_question], lines 72-97.

    [INSERT OR REPLACE]: the rows that clash with the new one on
    [UNIQUE(quiz_file, question_id)] are deleted, then the new row is
    inserted; no [id] is given, so the row takes a fresh rowid from the
    [AUTOINCREMENT] counter.  [cursor.lastrowid] is that rowid; it is
    never 0, so the [or] alternative of line 88 is not taken.

    [INSERT OR IGNORE INTO srs_stats]: a row with the column defaults is
    added unless the key [question_db_id] is already present. *)
Definition add_question (db : Database) (now : timestamp)
    (quiz_file question_id question_text correct_answer question_type : string)
    (options correct_answers : option (list string)) : Database * Z :=
  let kept :=
    List.filter (fun q => negb (same_identity quiz_file question_id q))
                (questions db) in
  let question_db_id := questions_seq db + 1 in
  let row :=
    {| q_id := question_db_id; q_quiz_file := quiz_file;
       q_question_id := question_id; q_question_text := question_text;
       q_correct_answer := correct_answer; q_question_type := question_type;
       q_options := json_column options;
       q_correct_answers := json_column correct_answers |} in
  let srs :=
    match srs_stats db !! question_db_id with
    | Some _ => srs_stats db
    | None => <[question_db_id := default_srs now]> (srs_stats db)
    end in
  ({| questions := kept ++ [row]; questions_seq := question_db_id;
      user_answers := user_answers db; srs_stats := srs |},
   question_db_id).

(** The new interval after a correct answer, lines 141-146. *)
Definition correct_interval (st : srs_row) : result Z :=
  if repetitions st =? 0 then Ok 1
  else if repetitions st =? 1 then Ok 6
  else p ← PyNum.mul_int_float (interval_days st) (ease_factor st);
       PyNum.int_of_float p.

(** The new ease factor after a correct answer, line 149. *)
Definition correct_ease (st : srs_row) : float :=
  PyNum.max 1.3
    (ease_factor st
     + (0.1 - (3 - difficulty st) * (0.08 + (3 - difficulty st) * 0.02)))%float.

(** The new ease factor after an incorrect answer, line 154. *)
Definition incorrect_ease (st : srs_row) : float :=
  PyNum.max 1.3 (ease_factor st - 0.2)%float.

(** The transition of one review state, lines 139-164.  The clock is
    read twice: [now] is the reading of line 156, from which the next
    review is counted, and [later] the reading of line 164, which is
    stored as the last review.  The sum of line 156 raises when the next
    review would fall outside the calendar. *)
Definition srs_transition (st : srs_row) (is_correct : bool) (now later : timestamp)
  : result srs_row :=
  '(interval, reps, ease) ←
    (if is_correct
     then i ← correct_interval st;
          Ok (i, repetitions st + 1, correct_ease st)
     else Ok (1, 0, incorrect_ease st));
  delta ← timedelta interval;
  next ← datetime_add now delta;
  Ok {| difficulty := difficulty st; interval_days := interval;
        repetitions := reps;
        next_review := Some next;
        ease_factor := ease; last_review := Some later |}.

(** [_update_srs_stats], lines 124-166: nothing happens for a question
    without a row; an exception leaves the table as it was. *)
Definition _update_srs_stats (db : Database) (question_id : Z) (is_correct : bool)
    (now later : timestamp) : result Database :=
  match srs_stats db !! question_id with
  | None => Ok db
  | Some st =>
      st' ← srs_transition st is_correct now later;
      Ok {| questions := questions db; questions_seq := questions_seq db;
            user_answers := user_answers db;
            srs_stats := <[question_id := st']> (srs_stats db) |}
  end.

(** [record_answer], lines 110-122.  The answer row is committed before
    the review state is updated, so it stays when the update raises.
    [now] and [later] are the two readings of the clock that the update
    makes. *)
Definition record_answer (db : Database) (question_db_id : Z) (user_answer : string)
    (is_correct : bool) (response_time : option float) (now later : timestamp)
  : Database * result unit :=
  let row :=
    {| a_question_id := question_db_id; a_user_answer := user_answer;
       a_is_correct := is_correct; a_timestamp := now;
       a_response_time := response_time |} in
  let db1 :=
    {| questions := questions db; questions_seq := questions_seq db;
       user_answers := user_answers db ++ [row]; srs_stats := srs_stats db |} in
  match _update_srs_stats db1 question_db_id is_correct now later with
  | Ok db2 => (db2, Ok tt)
  | Raise e => (db1, Raise e)
  end.

(** One row of the [SELECT] of [get_questions_for_review]: the columns of
    [questions] and, through the [LEFT JOIN], three columns of
    [srs_stats], which are NULL for a question without review state. *)
Record review_row := {
  r_question : question_row;
  r_next_review : option timestamp;
  r_difficulty : option float;
  r_repetitions : option Z
}.

Definition join_srs (db : Database) (q : question_row) : review_row :=
  let s := srs_stats db !! q_id q in
  {| r_question := q;
     r_next_review := s ≫= next_review;
     r_difficulty := difficulty <$> s;
     r_repetitions := repetitions <$> s |}.

(** [s.next_review IS NULL OR s.next_review <= now] *)
Definition is_due (now : timestamp) (r : review_row) : bool :=
  match r_next_review r with
  | None => true
  | Some t => t <=? now
  end.

(** [if quiz_file:] adds [AND q.quiz_file = ?]; [None] and [""] do not. *)
Definition in_quiz (quiz_file : option string) (r : review_row) : bool :=
  match quiz_file with
  | None | Some EmptyString => true
  | Some f => String.eqb (q_quiz_file (r_question r)) f
  end.

(** [ORDER BY s.next_review ASC, s.difficulty DESC]: [a] sorts strictly
    before [b].  NULL is the smallest value of a column. *)
Definition sorts_before (a b : review_row) : bool :=
  match r_next_review a, r_next_review b with
  | None, Some _ => true
  | Some _, None => false
  | Some x, Some y =>
      (x <? y) ||
      (x =? y) && match r_difficulty a, r_difficulty b with
                  | Some da, Some db => (db <? da)%float
                  | Some _, None => true
                  | _, _ => false
                  end
  | None, None =>
      match r_difficulty a, r_difficulty b with
      | Some da, Some db => (db <? da)%float
      | Some _, None => true
      | _, _ => false
      end
  end.

(** The sort; rows that tie on both keys keep their table order (SQLite
    leaves the order of ties open). *)
Fixpoint insert_sorted (x : review_row) (l : list review_row) : list review_row :=
  match l with
  | [] => [x]
  | y :: l' => if sorts_before y x then y :: insert_sorted x l' else x :: l
  end.
Definition order_by (l : list review_row) : list review_row :=
  fold_right insert_sorted [] l.

(** [LIMIT n]: a negative [n] is no limit. *)
Definition sql_limit {A} (n : Z) (l : list A) : list A :=
  if n <? 0 then l else take (Z.to_nat n) l.

(** [get_questions_for_review], lines 168-190. *)
Definition get_questions_for_review (db : Database) (quiz_file : option string)
    (limit : Z) (now : timestamp) : list review_row :=
  let joined := map (join_srs db) (questions db) in
  let selected := List.filter (fun r => is_due now r && in_quiz quiz_file r) joined in
  sql_limit limit (order_by selected).

End Store.

(** ** Regular expressions, as Python's [re] runs them *)

Module Regex.

(** The constructs that occur in the patterns of [_parse_markdown]. *)
Inductive regex : Type :=
| Eps
| Char (p : ascii -> bool)           (* one character of a class *)
| Seq (r1 r2 : regex)
| Alt (r1 r2 : regex)                (* r1|r2, r1 tried first *)
| Star (greedy : bool) (r : regex)   (* r* and r*? *)
| Group (n : nat) (r : regex)        (* the n-th capturing group *)
| Ahead (r : regex)                  (* (?=r) *)
| EndLine                            (* $ under re.MULTILINE *)
| EndText.                           (* \Z *)

Definition Plus (greedy : bool) (r : regex) : regex := Seq r (Star greedy r).

Fixpoint Lit (s : string) : regex :=
  match s with
  | EmptyString => Eps
  | String c r => Seq (Char (Ascii.eqb c)) (Lit r)
  end.

(** [.] under re.DOTALL, [\s], and a bracketed class given by its members. *)
Definition any : regex := Char (fun _ => true).
Definition space : regex := Char PyStr.isspace.
Definition one_of (members : string) : regex :=
  Char (fun c => PyStr.contains members (String c EmptyString)).

Definition newline : ascii := ascii_of_N 10.
Definition nl : string := String newline EmptyString.

(** What the groups have captured so far, the latest capture first. *)
Definition captures := list (nat * string).

Fixpoint group (caps : captures) (n : nat) : string :=
  match caps with
  | [] => EmptyString
  | (m, s) :: rest => if Nat.eqb m n then s else group rest n
  end.

(** The text read between two positions: the first
    [length s - length s'] characters of [s]. *)
Fixpoint prefix_of_length (n : nat) (s : string) : string :=
  match n, s with
  | S n', String c r => String c (prefix_of_length n' r)
  | _, _ => EmptyString
  end.
Definition taken (s s' : string) : string :=
  prefix_of_length (String.length s - String.length s') s.

Definition outcome := option (string * captures).
Definition accept : string -> captures -> outcome := fun s caps => Some (s, caps).

(** The backtracking matcher.  [run r s caps k] tries [r] at the head of
    [s] and hands the rest of the text to [k]; alternatives are explored
    in the order of Python's engine: the left branch of [|] first, one
    more round of a greedy loop before leaving it, leaving a lazy loop
    before one more round.  A round of a loop has to read at least one
    character, so [length s] rounds are all a loop can make. *)
Fixpoint run (r : regex) (s : string) (caps : captures)
    (k : string -> captures -> outcome) {struct r} : outcome :=
  match r with
  | Eps => k s caps
  | Char p =>
      match s with
      | String c s' => if p c then k s' caps else None
      | EmptyString => None
      end
  | Seq r1 r2 => run r1 s caps (fun s' caps' => run r2 s' caps' k)
  | Alt r1 r2 =>
      match run r1 s caps k with
      | Some x => Some x
      | None => run r2 s caps k
      end
  | Star greedy r1 =>
      (fix loop (rounds : nat) (s : string) (caps : captures) {struct rounds}
         : outcome :=
         match rounds with
         | O => k s caps
         | S rounds' =>
             let again s' caps' :=
               if (String.length s' <? String.length s)%nat
               then loop rounds' s' caps' else None in
             if greedy
             then match run r1 s caps again with
                  | Some x => Some x
                  | None => k s caps
                  end
             else match k s caps with
                  | Some x => Some x
                  | None => run r1 s caps again
                  end
         end) (String.length s) s caps
  | Group n r1 => run r1 s caps (fun s' caps' => k s' ((n, taken s s') :: caps'))
  | Ahead r1 =>
      match run r1 s caps accept with
      | Some _ => k s caps
      | None => None
      end
  | EndLine =>
      match s with
      | EmptyString => k s caps
      | String c _ => if Ascii.eqb c newline then k s caps else None
      end
  | EndText =>
      match s with
      | EmptyString => k s caps
      | String _ _ => None
      end
  end.

Definition skip_one (s : string) : option string :=
  match s with
  | EmptyString => None
  | String _ r => Some r
  end.

(** [re.findall]: the matches from left to right, each search starting
    where the previous match ended (one character further after a miss
    or an empty match). *)
Fixpoint findall_from (positions : nat) (r : regex) (s : string) : list captures :=
  match positions with
  | O => []
  | S positions' =>
      match run r s [] accept with
      | Some (s', caps) =>
          caps ::
          (if (String.length s' <? String.length s)%nat
           then findall_from positions' r s'
           else match skip_one s with
                | Some t => findall_from positions' r t
                | None => []
                end)
      | None =>
          match skip_one s with
          | Some t => findall_from positions' r t
          | None => []
          end
      end
  end.
Definition findall (r : regex) (s : string) : list captures :=
  findall_from (S (String.length s)) r s.

End Regex.

(** ** The content parser ([QuizParser], src/quiz_parser.py) *)

Module Parser.
Import Regex.

(** The values [json.load] produces. *)
#[local] Unset Elimination Schemes.
Inductive pyval : Type :=
| PNone
| PBool (b : bool)
| PInt (z : Z)
| PFloat (f : float)
| PStr (s : string)
| PList (l : list pyval)
| PDict (d : list (string * pyval)).
#[local] Set Elimination Schemes.

(** The dataclass [Question], lines 13-23; its fields are not checked at
    run time and hold whatever the source gave. *)
Record Question := {
  qid : pyval;
  question : pyval;
  answer : pyval;
  options : pyval;
  category : pyval;
  qdifficulty : pyval;
  question_type : pyval;
  correct_answers : pyval
}.

(** [Question(id=.., question=.., answer=.., question_type='text')] with
    the defaults of the dataclass for the other fields. *)
Definition text_question (i q a : string) : Question :=
  {| qid := PStr i; question := PStr q; answer := PStr a; options := PNone;
     category := PStr ""; qdifficulty := PInt 1; question_type := PStr "text";
     correct_answers := PNone |}.

(** *** Dynamic operations *)

Definition truthy (v : pyval) : bool :=
  match v with
  | PNone => false
  | PBool b => b
  | PInt z => negb (z =? 0)
  | PFloat f => negb (f =? 0)%float
  | PStr s => negb (PyStr.is_empty s)
  | PList l => match l with [] => false | _ => true end
  | PDict d => match d with [] => false | _ => true end
  end.

Definition py_len (v : pyval) : result Z :=
  match v with
  | PStr s => Ok (PyStr.len s)
  | PList l => Ok (Z.of_nat (length l))
  | PDict d => Ok (Z.of_nat (length d))
  | _ => Raise TypeError
  end.

(** [v == 'text'] and the like. *)
Definition is_str (v : pyval) (s : string) : bool :=
  match v with
  | PStr t => String.eqb t s
  | _ => false
  end.

Fixpoint dict_get (d : list (string * pyval)) (key : string) : option pyval :=
  match d with
  | [] => None
  | (k, v) :: rest => if String.eqb k key then Some v else dict_get rest key
  end.

(** [item.get(key, default)]; only a dict has [get]. *)
Definition get (item : pyval) (key : string) (dflt : pyval) : result pyval :=
  match item with
  | PDict d => Ok (default dflt (dict_get d key))
  | _ => Raise AttributeError
  end.

(** What a [for] loop sees of a value. *)
Definition iterate (v : pyval) : result (list pyval) :=
  match v with
  | PList l => Ok l
  | PStr s => Ok (map PStr (PyStr.chars s))
  | PDict d => Ok (map (fun kv => PStr (fst kv)) d)
  | _ => Raise TypeError
  end.

(** [", ".join(l)]: every item has to be a [str]. *)
Fixpoint all_str (l : list pyval) : result (list string) :=
  match l with
  | [] => Ok []
  | PStr s :: rest => ss ← all_str rest; Ok (s :: ss)
  | _ :: _ => Raise TypeError
  end.

Fixpoint enumerate_from {A} (i : nat) (l : list A) : list (nat * A) :=
  match l with
  | [] => []
  | x :: rest => (i, x) :: enumerate_from (S i) rest
  end.

(** The items of a loop body that may raise, collected in order. *)
Fixpoint collect {A B} (f : A -> result B) (l : list A) : result (list B) :=
  match l with
  | [] => Ok []
  | x :: rest => y ← f x; ys ← collect f rest; Ok (y :: ys)
  end.

(** *** Structured sources *)

(** [_create_question_from_dict], lines 75-109. *)
Definition _create_question_from_dict (item : pyval) (default_id : string)
  : result Question :=
  question_id ← get item "id" (PStr default_id);
  q ← get item "q" (PStr "");
  question_text ← get item "question" q;
  a ← get item "a" (PStr "");
  answer0 ← get item "answer" a;
  choices ← get item "choices" (PList []);
  opts ← get item "options" choices;
  topic ← get item "topic" (PStr "");
  cat ← get item "category" topic;
  diff ← get item "difficulty" (PInt 1);
  type0 ← get item "type" (PStr "text");
  correct0 ← get item "correct_answers" PNone;
  type1 ←
    (if truthy opts && is_str type0 "text"
     then
       several ← (if truthy correct0
                  then n ← py_len correct0; Ok (1 <? n)
                  else Ok false);
       Ok (if several : bool then PStr "multiple_choice"
           else if truthy correct0 || truthy answer0 then PStr "single_choice"
           else type0)
     else Ok type0);
  '(answer1, correct1, type2) ←
    match answer0 with
    | PList l =>
        ss ← all_str l;
        Ok (PStr (PyStr.join ", " ss), answer0, PStr "multiple_choice")
    | _ => Ok (answer0, correct0, type1)
    end;
  Ok {| qid := question_id; question := question_text; answer := answer1;
        options := opts; category := cat; qdifficulty := diff;
        question_type := type2; correct_answers := correct1 |}.

Section Json.
(** [str(v)] of a value that is not a [str] (Python's rendering of
    numbers, booleans, [None], lists and dicts) is left to the
    interpreter. *)
Variable py_repr : pyval -> string.

Definition py_str (v : pyval) : string :=
  match v with
  | PStr s => s
  | _ => py_repr v
  end.

(** [_parse_json], lines 44-73, on the value [json.load] returned. *)
Definition _parse_json (data : pyval) : result (list Question) :=
  match data with
  | PList items =>
      qs ← collect
             (fun '(i, item) =>
                match item with
                | PDict _ =>
                    q ← _create_question_from_dict item (pretty i); Ok [q]
                | _ => Ok []
                end)
             (enumerate_from 0 items);
      Ok (concat qs)
  | PDict d =>
      match dict_get d "questions" with
      | Some qs =>
          items ← iterate qs;
          collect (fun '(i, item) => _create_question_from_dict item (pretty i))
                  (enumerate_from 0 items)
      | None =>
          Ok (map (fun '(key, value) => text_question key key (py_str value)) d)
      end
  | _ => Ok []
  end.
End Json.

(** *** Loosely structured sources *)

(** One labelled option line, [(?:A[).\]]\s*(.+?)\n)]. *)
Definition option_line (label : string) (n : nat) : regex :=
  Seq (Lit label) (Seq (one_of ").]") (Seq (Star true space)
    (Seq (Group n (Plus false any)) (Lit nl)))).

(** [abcd_pattern], line 122. *)
Definition abcd_pattern : regex :=
  Seq (Lit "Q:") (Seq (Star true space) (Seq (Group 1 (Plus false any)) (Seq (Lit nl)
  (Seq (option_line "A" 2) (Seq (option_line "B" 3)
  (Seq (option_line "C" 4) (Seq (option_line "D" 5)
  (Seq (Alt (Lit "Answer:") (Alt (Lit "Odpowiedź:")
         (Alt (Lit "Poprawna:") (Lit "Correct:"))))
  (Seq (Star true space)
  (Seq (Group 6 (Plus true
         (Char (fun c => PyStr.contains "ABCD," (String c EmptyString)
                         || PyStr.isspace c))))
       (Alt (Lit (nl ++ nl)) (Alt (Seq (Lit nl) EndLine) EndLine)))))))))))).

(** The look-ahead that closes a text block, [(?=stop|\n\n|\Z)]. *)
Definition block_end (stop : regex) : regex :=
  Ahead (Alt stop (Alt (Lit (nl ++ nl)) EndText)).

(** [patterns], lines 181-190. *)
Definition patterns : list regex :=
  [ (* Q:\s*(.+?)\nA:\s*(.+?)(?=\nQ:|\n\n|\Z) *)
    Seq (Lit "Q:") (Seq (Star true space) (Seq (Group 1 (Plus false any))
      (Seq (Lit (nl ++ "A:")) (Seq (Star true space)
      (Seq (Group 2 (Plus false any)) (block_end (Lit (nl ++ "Q:"))))))));
    (* ##\s*(.+?)\n(.+?)(?=\n##|\n\n|\Z) *)
    Seq (Lit "##") (Seq (Star true space) (Seq (Group 1 (Plus false any))
      (Seq (Lit nl) (Seq (Group 2 (Plus false any))
      (block_end (Lit (nl ++ "##")))))));
    (* \*\*(.+?)\*\*\n(.+?)(?=\n\*\*|\n\n|\Z) *)
    Seq (Lit "**") (Seq (Group 1 (Plus false any)) (Seq (Lit ("**" ++ nl))
      (Seq (Group 2 (Plus false any)) (block_end (Lit (nl ++ "**"))))));
    (* (.+\?)\n(.+?)(?=\n.+\?|\n\n|\Z) *)
    Seq (Group 1 (Seq (Plus true any) (Lit "?"))) (Seq (Lit nl)
      (Seq (Group 2 (Plus false any))
      (block_end (Seq (Lit nl) (Seq (Plus true any) (Lit "?"))))))
  ].

(** Lines 133-144: the options with some text, in label order, and the
    map from their labels to them. *)
Definition present_options (caps : captures) : list (string * string) :=
  omap (fun '(label, n) =>
          let opt := group caps n in
          if negb (PyStr.is_empty opt) && negb (PyStr.is_empty (PyStr.strip opt))
          then Some (label, PyStr.strip opt) else None)
       [("A", 2%nat); ("B", 3%nat); ("C", 4%nat); ("D", 5%nat)].

Fixpoint option_map_get (option_map : list (string * string)) (letter : string)
  : option string :=
  match option_map with
  | [] => None
  | (k, v) :: rest =>
      if String.eqb k letter then Some v else option_map_get rest letter
  end.

(** The body of the loop over [abcd_matches], lines 126-174: the question
    of one match, or nothing where the loop [continue]s. *)
Definition choice_question (question_id : nat) (caps : captures) : option Question :=
  let question_text := group caps 1 in
  let option_map := present_options caps in
  let opts := map snd option_map in
  if match opts with [] => true | _ => false end then None
  else
    let answer_letters := PyStr.upper (PyStr.strip (group caps 6)) in
    let correct :=
      omap (fun letter => option_map_get option_map (PyStr.strip letter))
           (PyStr.split_runs
              (fun c => Ascii.eqb c "," || PyStr.isspace c) answer_letters) in
    match correct with
    | [] => None
    | [one] =>
        Some {| qid := PStr (pretty question_id);
                question := PStr (PyStr.strip question_text);
                answer := PStr one; options := PList (map PStr opts);
                category := PStr ""; qdifficulty := PInt 1;
                question_type := PStr "single_choice";
                correct_answers := PList [PStr one] |}
    | _ =>
        Some {| qid := PStr (pretty question_id);
                question := PStr (PyStr.strip question_text);
                answer := PStr (PyStr.join ", " correct);
                options := PList (map PStr opts);
                category := PStr ""; qdifficulty := PInt 1;
                question_type := PStr "multiple_choice";
                correct_answers := PList (map PStr correct) |}
    end.

(** The loop over [abcd_matches]; [question_id] counts the questions
    emitted so far. *)
Fixpoint choice_questions (question_id : nat) (matches : list captures)
  : list Question :=
  match matches with
  | [] => []
  | caps :: rest =>
      match choice_question question_id caps with
      | Some q => q :: choice_questions (S question_id) rest
      | None => choice_questions question_id rest
      end
  end.

(** Lines 192-203: the matches of the first pattern that has any. *)
Fixpoint first_matching (ps : list regex) (content : string) : list captures :=
  match ps with
  | [] => []
  | p :: rest =>
      match findall p content with
      | [] => first_matching rest content
      | matches => matches
      end
  end.

(** Lines 206-215: the lines taken two by two. *)
Fixpoint line_pairs (i : nat) (lines : list string) : list Question :=
  match lines with
  | q :: a :: rest =>
      text_question (pretty i) (PyStr.strip q) (PyStr.strip a)
      :: line_pairs (S i) rest
  | _ => []
  end.

(** [_parse_markdown], lines 111-217, on the text of the file. *)
Definition _parse_markdown (content : string) : list Question :=
  match choice_questions 0 (findall abcd_pattern content) with
  | (_ :: _) as questions => questions
  | [] =>
      match first_matching patterns content with
      | (_ :: _) as matches =>
          map (fun '(i, caps) =>
                 text_question (pretty i) (PyStr.strip (group caps 1))
                               (PyStr.strip (group caps 2)))
              (enumerate_from 0 matches)
      | [] => line_pairs 0 (PyStr.split_on newline (PyStr.strip content))
      end
  end.

(** *** Files *)

(** A file: its text and what [json.load] makes of it (the decoder itself
    is outside the model). *)
Record file := { f_text : string; f_json : result pyval }.

(** [os.path.splitext(p)[1]] of a base name [s]: the text from the last
    dot on, provided some character other than a dot comes before it. *)
Fixpoint extension_from (seen_other : bool) (s : string) : string :=
  match s with
  | EmptyString => EmptyString
  | String c r =>
      let is_dot := Ascii.eqb c "." in
      let later := extension_from (seen_other || negb is_dot) r in
      if negb (PyStr.is_empty later) then later
      else if is_dot && seen_other then s else EmptyString
  end.
Definition extension (path : string) : string :=
  extension_from false (List.last (PyStr.split_on "/" path) EmptyString).

Section Files.
Variable py_repr : pyval -> string.
Variable fs : gmap string file.

(** [parse_file], lines 29-42. *)
Definition parse_file (file_path : string) : result (list Question) :=
  match fs !! file_path with
  | None => Raise FileNotFoundError
  | Some f =>
      let file_extension := PyStr.lower (extension file_path) in
      if String.eqb file_extension ".json"
      then data ← f_json f; _parse_json py_repr data
      else if String.eqb file_extension ".md"
      then Ok (_parse_markdown (f_text f))
      else Raise ValueError
  end.
End Files.

End Parser.

(** ** The session logic ([QuizManager], src/quiz_manager.py) *)

Module Manager.
Import Store.

Record session_stats := {
  questions_asked : Z;
  correct_count : Z;          (* session_stats['correct_answers'] *)
  start_time : timestamp
}.

Record QuizManager := {
  db : Database;
  current_quiz_file : option string;
  stats : session_stats
}.

(** The dict returned by [get_next_question], lines 97-109. *)
Record question_data := {
  d_db_id : Z;
  d_quiz_file : string;
  d_question_id : string;
  d_question : string;
  d_correct_answer : string;
  d_next_review : option timestamp;
  d_difficulty : option float;
  d_repetitions : option Z;
  d_question_type : string;
  d_options : option (list string);
  d_correct_answers : option (list string)
}.

Definition to_question_data (r : review_row) : question_data :=
  let q := r_question r in
  {| d_db_id := q_id q; d_quiz_file := q_quiz_file q;
     d_question_id := q_question_id q; d_question := q_question_text q;
     d_correct_answer := q_correct_answer q;
     d_next_review := r_next_review r; d_difficulty := r_difficulty r;
     d_repetitions := r_repetitions r;
     d_question_type :=
       (if PyStr.is_empty (q_question_type q) then "text" else q_question_type q);
     d_options := q_options q; d_correct_answers := q_correct_answers q |}.

(** [random.choice(l)] on a non-empty list, for the draw [pick]. *)
Definition random_choice {A} (pick : nat) (l : list A) (dflt : A) : A :=
  List.nth (pick mod length l)%nat l dflt.

(** [get_next_question], lines 56-109.  [pick] is the draw of the random
    generator. *)
Definition get_next_question (m : QuizManager) (mode : string) (now : timestamp)
    (pick : nat) : option question_data :=
  let questions_data :=
    if String.eqb mode "review"
    then Some (get_questions_for_review (db m) (current_quiz_file m) 1 now)
    else if String.eqb mode "random"
    then
      let due := get_questions_for_review (db m) (current_quiz_file m) 100 now in
      Some match due with
           | [] => due
           | first :: _ => [random_choice pick due first]
           end
    else None in
  match questions_data with
  | None => None
  | Some [] => None
  | Some (first :: _) => Some (to_question_data first)
  end.

(** [check_answer], lines 111-134: the verdict, then the answer is
    recorded and the session counters move. *)
Definition check_answer (m : QuizManager) (question_db_id : Z)
    (user_answer correct_answer question_type : string)
    (options correct_answers : option (list string))
    (response_time : option float) (now later : timestamp)
  : QuizManager * result bool :=
  match Verifier.verdict user_answer correct_answer question_type
                         options correct_answers with
  | Raise e => (m, Raise e)
  | Ok is_correct =>
      match record_answer (db m) question_db_id user_answer is_correct
                          response_time now later with
      | (db', Raise e) =>
          ({| db := db'; current_quiz_file := current_quiz_file m;
              stats := stats m |}, Raise e)
      | (db', Ok _) =>
          ({| db := db'; current_quiz_file := current_quiz_file m;
              stats :=
                {| questions_asked := questions_asked (stats m) + 1;
                   correct_count := (if is_correct
                                     then correct_count (stats m) + 1
                                     else correct_count (stats m));
                   start_time := start_time (stats m) |} |},
           Ok is_correct)
      end
  end.

End Manager.

(** ** Vocabulary of the specification *)

Module Spec.
Import Store.

(** *** Scheduler *)

(** What reaches the store: a registration or an answer, with the
    readings of the clock that the call makes. *)
Inductive event : Type :=
| Register (quiz_file question_id question_text correct_answer question_type : string)
           (options correct_answers : option (list string)) (now : timestamp)
| AnswerEvent (question_db_id : Z) (user_answer : string) (is_correct : bool)
              (response_time : option float) (now later : timestamp).

Definition apply (db : Database) (e : event) : Database :=
  match e with
  | Register f i t a ty o c now => fst (add_question db now f i t a ty o c)
  | AnswerEvent q u ok rt now later => fst (record_answer db q u ok rt now later)
  end.

(** The store after a history of events, from a new database file. *)
Definition after (events : list event) : Database :=
  fold_left apply events empty_db.

(** Every review state of the store has an ease factor of at least 1.3. *)
Definition ease_bounded (db : Database) : Prop :=
  forall q st, srs_stats db !! q = Some st -> PyNum.fle 1.3 (ease_factor st).

(** No review state is keyed above the last id handed out. *)
Definition keys_bounded (db : Database) : Prop :=
  forall k st, srs_stats db !! k = Some st -> k <= questions_seq db.

(** The product [interval * ease factor], in binary64. *)
Definition interval_times_ease (st : srs_row) : float :=
  (PyNum.float_of_Z (interval_days st) * ease_factor st)%float.

(** The interval the specification gives for a correct answer. *)
Definition spec_correct_interval (st : srs_row) : Z :=
  if repetitions st =? 0 then 1
  else if repetitions st =? 1 then 6
  else PyNum.floor_of_float (interval_times_ease st).

(** *** Verifier *)

(** Coverage of the canonical answer's words by the submission. *)
Definition coverage (canonical submission : string) : float :=
  let canon := Verifier.words (Verifier.normalize canonical) in
  let sub := Verifier.words (Verifier.normalize submission) in
  (PyNum.float_of_Z (Z.of_nat (size (canon ∩ sub)))
   / PyNum.float_of_Z (Z.of_nat (size canon)))%float.

(** The free-text rule of the specification. *)
Definition free_text_correct (submission canonical : string) : Prop :=
  Verifier.normalize submission = Verifier.normalize canonical
  ∨ (10 < PyStr.len (Verifier.normalize canonical)
     ∧ PyNum.fle 0.7 (coverage canonical submission)).

(** The option a letter stands for: [a] the first, [b] the second, ... *)
Definition letter_option (options : list string) (c : ascii) : option string :=
  if Ascii.eqb c "a" then options !! 0%nat
  else if Ascii.eqb c "b" then options !! 1%nat
  else if Ascii.eqb c "c" then options !! 2%nat
  else if Ascii.eqb c "d" then options !! 3%nat
  else None.

(** The normalized option texts named by the letters of a submission;
    a letter without an option contributes nothing. *)
Definition named_options (options : list string) (submission : string) : list string :=
  omap (fun c => Verifier.normalize <$> letter_option options c)
       (list_ascii_of_string submission).

Definition is_letter (c : ascii) : bool :=
  Ascii.eqb c "a" || Ascii.eqb c "b" || Ascii.eqb c "c" || Ascii.eqb c "d".

(** The multi-choice rule of the specification; [blank] says which
    characters may stand between the letters besides the comma. *)
Definition multi_choice_correct (blank : ascii -> bool)
    (submission : string) (correct_answers : list string)
    (options : option (list string)) : bool :=
  let normalized := Verifier.normalize submission in
  let canonical : gset string := list_to_set (map Verifier.normalize correct_answers) in
  if forallb (fun c => is_letter c || Ascii.eqb c "," || blank c)
             (list_ascii_of_string normalized)
  then bool_decide (list_to_set (named_options (default [] options) normalized) = canonical)
  else bool_decide
         (list_to_set (map Verifier.normalize (PyStr.split_on "," submission)) = canonical).

Definition is_space_char (c : ascii) : bool := Ascii.eqb c " ".

(** The binary64 test [0.7 <= k / n] and the exact test [7 n <= 10 k]
    agree for every [k] up to [n]. *)
Definition threshold_exact (n : nat) : bool :=
  forallb (fun k : nat =>
             Bool.eqb (0.7 <=? PyNum.float_of_Z (Z.of_nat k)
                               / PyNum.float_of_Z (Z.of_nat n))%float
                      (7 * Z.of_nat n <=? 10 * Z.of_nat k))
          (seq 0 (S n)).

(** *** Parser *)

(** The top-level values [_parse_json] makes questions of: a list, or a
    dict (with a [questions] entry or as a flat mapping). *)
Definition accepted_shape (data : Parser.pyval) : bool :=
  match data with
  | Parser.PList _ | Parser.PDict _ => true
  | _ => false
  end.

End Spec.

(** ** Sample data *)

Module Sample.
Import Store.

Definition quiz : string := "quizy/python_podstawy.json".

(** A question is registered, answered correctly twice, and registered
    again with an edited prompt. *)
Definition registered : Database * Z :=
  add_question empty_db 0 quiz "py_2" "Which keyword imports a module?"
               "import" "text" None None.
Definition studied : Database :=
  Spec.after
    [Spec.Register quiz "py_2" "Which keyword imports a module?" "import" "text"
                   None None 0;
     Spec.AnswerEvent 1 "import" true None 1000 1000;
     Spec.AnswerEvent 1 "import" true None 2000 2000].
Definition registered_again : Database * Z :=
  add_question studied 3000 quiz "py_2" "Which keyword is used to import modules?"
               "import" "text" None None.

(** The session over [studied], with the quiz selected. *)
Definition session : Manager.QuizManager :=
  {| Manager.db := studied; Manager.current_quiz_file := Some quiz;
     Manager.stats := {| Manager.questions_asked := 0; Manager.correct_count := 0;
                         Manager.start_time := 0 |} |}.

(** A long streak: the question is registered at the first moment of
    2026-01-01 and answered correctly fourteen times, a second apart; each
    update reads the clock twice, 7 microseconds apart. *)
Definition today : timestamp := timedelta_days 739616.
Definition seconds (n : nat) : Z := Z.of_nat n * 1000000.
Definition streak : list Spec.event :=
  Spec.Register quiz "py_2" "Which keyword imports a module?" "import" "text"
                None None today
  :: map (fun k => Spec.AnswerEvent 1 "import" true None
                     (today + seconds k) (today + seconds k + 7))
         (seq 1 14).

(** A store with one review state, after two repetitions. *)
Definition seasoned : srs_row :=
  {| difficulty := 2.5; interval_days := 6; repetitions := 2;
     next_review := Some 0; ease_factor := 2.61; last_review := Some 0 |}.
Definition seasoned_db : Database :=
  {| questions := []; questions_seq := 1; user_answers := [];
     srs_stats := {[ 1 := seasoned ]} |}.

(** A choice block with its four option lines; the same block without
    the line of option D; and with that line left blank. *)
Definition lines (l : list string) : string :=
  PyStr.join Regex.nl l ++ Regex.nl.
Definition four_options : string :=
  lines ["Q: Capital of France"; "A) Paris"; "B) London"; "C) Rome"; "D) Oslo";
         "Answer: A"].
Definition three_options : string :=
  lines ["Q: Capital of France"; "A) Paris"; "B) London"; "C) Rome";
         "Answer: A"].
Definition blank_fourth : string :=
  lines ["Q: Capital of France"; "A) Paris"; "B) London"; "C) Rome"; "D) ";
         "Answer: A"].

Definition choice_of_capital (opts : list string) : Parser.Question :=
  {| Parser.qid := Parser.PStr "0";
     Parser.question := Parser.PStr "Capital of France";
     Parser.answer := Parser.PStr "Paris";
     Parser.options := Parser.PList (map Parser.PStr opts);
     Parser.category := Parser.PStr ""; Parser.qdifficulty := Parser.PInt 1;
     Parser.question_type := Parser.PStr "single_choice";
     Parser.correct_answers := Parser.PList [Parser.PStr "Paris"] |}.

(** A directory with one JSON file whose content is the number 42.  The
    rendering of non-string values is never asked for in the samples. *)
Definition files : gmap string Parser.file :=
  {[ "quizy/answer.json" :=
       {| Parser.f_text := "42"; Parser.f_json := Ok (Parser.PInt 42) |} ]}.
Definition no_repr : Parser.pyval -> string := fun _ => EmptyString.

(** Three questions due at 100, 100 and 101, of difficulty 1, 3 and 2. *)
Definition plain_question (i : Z) : question_row :=
  {| q_id := i; q_quiz_file := quiz; q_question_id := pretty i;
     q_question_text := "?"; q_correct_answer := "!"; q_question_type := "text";
     q_options := None; q_correct_answers := None |}.
Definition due_at (t : timestamp) (d : float) : srs_row :=
  {| difficulty := d; interval_days := 1; repetitions := 0;
     next_review := Some t; ease_factor := 2.5; last_review := None |}.
Definition three_due : Database :=
  {| questions := [plain_question 1; plain_question 2; plain_question 3];
     questions_seq := 3; user_answers := [];
     srs_stats := {[ 1 := due_at 100 1; 2 := due_at 100 3; 3 := due_at 101 2 ]} |}.

(** The submission [a<TAB>b]. *)
Definition tabbed : string :=
  String "a" (String (ascii_of_N 9) (String "b" EmptyString)).

End Sample.

(** ** Invariants of the store *)

Module Props.
Import Store.

(** The pair that [UNIQUE(quiz_file, question_id)] is about. *)
Definition identity (q : question_row) : string * string :=
  (q_quiz_file q, q_question_id q).

(** The two key constraints of table [questions], and the ids lying
    within what the [AUTOINCREMENT] counter has handed out. *)
Definition well_keyed (db : Database) : Prop :=
  NoDup (map q_id (questions db)) /\
  NoDup (map identity (questions db)) /\
  0 <= questions_seq db /\
  (forall q, In q (questions db) -> 1 <= q_id q <= questions_seq db).

(** Every question has a review state. *)
Definition all_have_state (db : Database) : Prop :=
  forall q, In q (questions db) -> is_Some (srs_stats db !! q_id q).

(** The constant that line 149 adds to the ease factor while the
    difficulty has its default value 2.5. *)
Definition ease_bonus : float :=
  Eval vm_compute in (0.1 - (3 - 2.5) * (0.08 + (3 - 2.5) * 0.02))%float.

(** Counters are not negative, the interval is one that [timedelta]
    takes, and the next review is set. *)
Definition well_scheduled (st : srs_row) : Prop :=
  0 <= repetitions st /\ 0 <= interval_days st <= 999999999 /\
  exists t, next_review st = Some t.

(** The clock readings of an event are dates of the calendar, as every
    value of [datetime.now()] is. *)
Definition on_calendar (e : Spec.event) : Prop :=
  match e with
  | Spec.Register _ _ _ _ _ _ _ now => is_datetime now
  | Spec.AnswerEvent _ _ _ _ now later => is_datetime now /\ is_datetime later
  end.

(** The next review is a date of the calendar, and the interval is
    shorter than the calendar. *)
Definition within_calendar (st : srs_row) : Prop :=
  interval_days st < 3652059 /\
  exists t, next_review st = Some t /\ is_datetime t.

Definition all_within_calendar (db : Database) : Prop :=
  forall k st, srs_stats db !! k = Some st -> within_calendar st.

(** The interval that lines 139-153 compute. *)
Definition new_interval (st : srs_row) (is_correct : bool) : result Z :=
  if is_correct then correct_interval st else Ok 1.

(** What holds of every review state the code produces. *)
Definition sound_state (st : srs_row) : Prop :=
  PyNum.fle 1.3 (ease_factor st) /\ well_scheduled st /\ difficulty st = 2.5%float.

Definition all_sound (db : Database) : Prop :=
  forall k st, srs_stats db !! k = Some st -> sound_state st.

End Props.

(** ** More of the session logic (src/quiz_manager.py) *)

Module Session.
Import Store Manager.

(** [has_questions_for_review], lines 242-245. *)
Definition has_questions_for_review (m : QuizManager) (now : timestamp) : bool :=
  (0 <? length (get_questions_for_review (db m) (current_quiz_file m) 1 now))%nat.

(** [reset_session_stats], lines 226-232. *)
Definition reset_session_stats (m : QuizManager) (now : timestamp) : QuizManager :=
  {| db := db m; current_quiz_file := current_quiz_file m;
     stats := {| questions_asked := 0; correct_count := 0; start_time := now |} |}.

(** [max(1, n)] on two [int]s. *)
Definition max_int (a b : Z) : Z := if a <? b then b else a.

(** The dict of [get_session_stats], lines 200-208. *)
Record session_report := {
  rep_questions_asked : Z;
  rep_correct_answers : Z;
  rep_start_time : timestamp;
  rep_elapsed_time : Z;
  rep_accuracy : float
}.

Definition get_session_stats (m : QuizManager) (now : timestamp) : result session_report :=
  let elapsed_time := now - start_time (stats m) in
  ratio ← PyNum.truediv (correct_count (stats m))
                        (max_int 1 (questions_asked (stats m)));
  hundred ← PyNum.float_of_int 100;
  Ok {| rep_questions_asked := questions_asked (stats m);
        rep_correct_answers := correct_count (stats m);
        rep_start_time := start_time (stats m);
        rep_elapsed_time := elapsed_time;
        rep_accuracy := (ratio * hundred)%float |}.

(** One call of [check_answer], with all its arguments. *)
Record submission := {
  sub_question : Z;
  sub_user_answer : string;
  sub_correct_answer : string;
  sub_question_type : string;
  sub_options : option (list string);
  sub_correct_answers : option (list string);
  sub_response_time : option float;
  sub_now : timestamp;
  sub_later : timestamp
}.

Definition submit (m : QuizManager) (s : submission) : QuizManager * result bool :=
  check_answer m (sub_question s) (sub_user_answer s) (sub_correct_answer s)
               (sub_question_type s) (sub_options s) (sub_correct_answers s)
               (sub_response_time s) (sub_now s) (sub_later s).

(** The manager after a series of calls of [check_answer]. *)
Definition after_submissions (m : QuizManager) (l : list submission) : QuizManager :=
  fold_left (fun m s => fst (submit m s)) l m.

End Session.

(** ** Vocabulary for the due query *)

Module Due.
Import Store.

(** [a] does not come after [b] in [ORDER BY next_review ASC]. *)
Definition not_after (a b : option timestamp) : Prop :=
  match a, b with
  | None, _ => True
  | Some _, None => False
  | Some x, Some y => x <= y
  end.

Definition by_next_review (a b : review_row) : Prop :=
  not_after (r_next_review a) (r_next_review b).

(** The rows the [WHERE] clause selects. *)
Definition selected (db : Database) (quiz_file : option string) (now : timestamp)
  : list review_row :=
  List.filter (fun r => is_due now r && in_quiz quiz_file r)
              (map (join_srs db) (questions db)).

End Due.

(** ** Vocabulary for the verifier *)

Module Rules.

(** The single-choice rule: a submission that is, once normalized, one
    letter with an option behind it stands for that option; any other
    submission stands for itself. *)
Definition single_choice_correct (submission canonical : string)
    (options : list string) : bool :=
  let n := Verifier.normalize submission in
  match n with
  | String c EmptyString =>
      match Spec.letter_option options c with
      | Some t => String.eqb (Verifier.normalize t) (Verifier.normalize canonical)
      | None => String.eqb n (Verifier.normalize canonical)
      end
  | _ => String.eqb n (Verifier.normalize canonical)
  end.

(** Text within ASCII, where [PyStr.lower] and [PyStr.upper] are Python's
    [str.lower] and [str.upper]. *)
Fixpoint is_ascii (s : string) : bool :=
  match s with
  | EmptyString => true
  | String c r => (N_of_ascii c <? 128)%N && is_ascii r
  end.

(** The letter, capital or small, of the option at offset [k]. *)
Definition letter_of (capital : bool) (k : nat) : string :=
  String (ascii_of_nat ((if capital then 65 else 97) + k)) EmptyString.

End Rules.

(** ** Vocabulary for the parser *)

Module Shapes.
Import Parser.

(** A free-text question as the Markdown reader builds it. *)
Definition is_text_question (q : Question) : Prop :=
  question_type q = PStr "text" /\ options q = PNone /\ correct_answers q = PNone /\
  exists i t a, qid q = PStr i /\ question q = PStr t /\ answer q = PStr a.

(** A choice question as the Markdown reader builds it: the id and the
    prompt are strings; one to four options, none of them blank or
    padded; at least one correct answer,
    each of them an option; the canonical answer is the correct answers
    joined by ", "; the type follows their number. *)
Definition is_choice_question (q : Question) : Prop :=
  exists (i t : string) (opts cs : list string),
    qid q = PStr i /\ question q = PStr t /\
    options q = PList (map PStr opts) /\
    correct_answers q = PList (map PStr cs) /\
    (1 <= length opts <= 4)%nat /\
    cs <> [] /\
    (forall x, In x cs -> In x opts) /\
    (forall x, In x opts -> x <> EmptyString /\ PyStr.strip x = x) /\
    answer q = PStr (PyStr.join ", " cs) /\
    question_type q =
      PStr (if (length cs =? 1)%nat then "single_choice" else "multiple_choice").

(** The ids ["0"], ["1"], ... of [n] questions. *)
Definition sequential_ids (first n : nat) : list pyval :=
  map (fun i : nat => PStr (pretty i)) (seq first n).

Definition is_dict (v : pyval) : bool :=
  match v with PDict _ => true | _ => false end.

(** Values on which [len] is defined. *)
Definition is_sized (v : pyval) : bool :=
  match v with PStr _ | PList _ | PDict _ => true | _ => false end.

(** A list all of whose items are strings. *)
Definition is_str_list (v : pyval) : bool :=
  match v with
  | PList l => forallb (fun x => match x with PStr _ => true | _ => false end) l
  | _ => false
  end.

Definition is_list (v : pyval) : bool :=
  match v with PList _ => true | _ => false end.

(** [item.get(k1, item.get(k2, dflt))] on the entries of a dict. *)
Definition field (d : list (string * pyval)) (k1 k2 : string) (dflt : pyval) : pyval :=
  default (default dflt (dict_get d k2)) (dict_get d k1).

End Shapes.

(** ** Loading a quiz *)

Module Loader.
Import Store Parser.

(** A value bound to a text column: a [str] is stored as it is.  How
    sqlite3 adapts other values (numbers, booleans), and the errors it
    raises for [None] and for nested values, are outside the model. *)
Definition text_field (v : pyval) : option string :=
  match v with
  | PStr s => Some s
  | _ => None
  end.

(** The argument [options] or [correct_answers] of [add_question]: a
    falsy value is stored as NULL whatever it is; of the others, a list
    of strings is within the model. *)
Definition list_field (v : pyval) : option (option (list string)) :=
  if truthy v
  then match v with
       | PList l => Some <$> mapM text_field l
       | _ => None
       end
  else Some None.

(** The arguments of one call of [add_question], lines 37-45 of
    quiz_manager.py. *)
Record registration := {
  g_id : string;
  g_text : string;
  g_answer : string;
  g_type : string;
  g_options : option (list string);
  g_correct_answers : option (list string)
}.

Definition registration_of (q : Question) : option registration :=
  i ← text_field (qid q);
  t ← text_field (question q);
  a ← text_field (answer q);
  ty ← text_field (question_type q);
  o ← list_field (options q);
  c ← list_field (correct_answers q);
  Some {| g_id := i; g_text := t; g_answer := a; g_type := ty;
          g_options := o; g_correct_answers := c |}.

Definition register (db : Database) (now : timestamp) (file_path : string)
    (g : registration) : Database * Z :=
  add_question db now file_path (g_id g) (g_text g) (g_answer g) (g_type g)
               (g_options g) (g_correct_answers g).

(** The row that [register] leaves in table [questions] under id [id]. *)
Definition stored_row (file_path : string) (g : registration) (id : Z)
  : question_row :=
  {| q_id := id; q_quiz_file := file_path; q_question_id := g_id g;
     q_question_text := g_text g; q_correct_answer := g_answer g;
     q_question_type := g_type g; q_options := json_column (g_options g);
     q_correct_answers := json_column (g_correct_answers g) |}.

(** The loop of lines 36-45; [clock k] is what [datetime.now()] returns
    in the [k]-th call of [add_question]. *)
Fixpoint register_all (db : Database) (clock : nat -> timestamp) (k : nat)
    (file_path : string) (l : list registration) : Database :=
  match l with
  | [] => db
  | g :: rest =>
      register_all (fst (register db (clock k) file_path g)) clock (S k)
                   file_path rest
  end.

Section Load.
Variable py_repr : pyval -> string.
Variable fs : gmap string file.

(** [load_quiz], lines 25-50 of quiz_manager.py.  Every exception of the
    parser ends in [False]; so does a file without questions.  The
    attribute [current_questions] is written here and never read, and is
    left out.  The result is [None] where a question holds a value that
    [text_field] or [list_field] does not cover. *)
Definition load_quiz (m : Manager.QuizManager) (file_path : string)
    (clock : nat -> timestamp) : option (Manager.QuizManager * bool) :=
  match parse_file py_repr fs file_path with
  | Raise _ => Some (m, false)
  | Ok [] => Some (m, false)
  | Ok questions =>
      rows ← mapM registration_of questions;
      Some ({| Manager.db := register_all (Manager.db m) clock 0 file_path rows;
               Manager.current_quiz_file := Some file_path;
               Manager.stats := Manager.stats m |}, true)
  end.
End Load.

End Loader.

(** ** Sample files *)

Module Cases.

(** A directory with a Markdown quiz of one choice question, and with an
    empty Markdown file. *)
Definition capitals : Parser.file :=
  {| Parser.f_text := Sample.four_options; Parser.f_json := Raise ValueError |}.
Definition empty_file : Parser.file :=
  {| Parser.f_text := EmptyString; Parser.f_json := Raise ValueError |}.
Definition quiz_dir : gmap string Parser.file :=
  {[ "quizy/capitals.md"%string := capitals; "quizy/empty.md"%string := empty_file ]}.

(** The session of [Sample.session] once the Markdown quiz is loaded. *)
Definition capitals_loaded : Manager.QuizManager :=
  {| Manager.db :=
       Loader.register_all (Manager.db Sample.session)
         (fun k => 5000 + Z.of_nat k) 0 "quizy/capitals.md"
         [{| Loader.g_id := "0"; Loader.g_text := "Capital of France";
             Loader.g_answer := "Paris"; Loader.g_type := "single_choice";
             Loader.g_options := Some ["Paris"; "London"; "Rome"; "Oslo"];
             Loader.g_correct_answers := Some ["Paris"] |}];
     Manager.current_quiz_file := Some "quizy/capitals.md"%string;
     Manager.stats := Manager.stats Sample.session |}.

End Cases.

(** ** Statistics *)

Module Stats.
Import Store.

(** A value that is an [int] in one branch and a [float] in another. *)
Inductive number : Type :=
| NInt (z : Z)
| NFloat (f : float).

(** The dict of [get_statistics], lines 235-243 of database.py. *)
Record statistics := {
  total_questions : Z;
  total_answers : Z;
  correct_answers : Z;
  accuracy : number;
  avg_response_time : number;
  learned_questions : Z;
  avg_difficulty : float
}.

(** [WHERE q.quiz_file = ?], which is added when [quiz_file] is truthy. *)
Definition in_file (quiz_file : option string) (q : question_row) : bool :=
  match quiz_file with
  | None | Some EmptyString => true
  | Some f => String.eqb (q_quiz_file q) f
  end.

(** The questions that [JOIN questions q ON .. = q.id] pairs with the
    key [id]. *)
Definition joined (db : Database) (quiz_file : option string) (id : Z)
  : list question_row :=
  List.filter (fun q => (q_id q =? id) && in_file quiz_file q) (questions db).

(** [user_answers ua JOIN questions q ON ua.question_id = q.id]. *)
Definition joined_answers (db : Database) (quiz_file : option string)
  : list (answer_row * question_row) :=
  flat_map (fun ua => map (pair ua) (joined db quiz_file (a_question_id ua)))
           (user_answers db).

(** [srs_stats s JOIN questions q ON s.question_id = q.id]. *)
Definition joined_states (db : Database) (quiz_file : option string)
  : list (srs_row * question_row) :=
  flat_map (fun '(id, st) => map (pair st) (joined db quiz_file id))
           (map_to_list (srs_stats db)).

(** [COUNT( * )]. *)
Definition sql_count {A} (l : list A) : Z := Z.of_nat (length l).

(** [SUM(CASE WHEN c THEN 1 ELSE 0 END)]: NULL over no rows. *)
Definition sql_sum_case {A} (c : A -> bool) (l : list A) : option Z :=
  match l with
  | [] => None
  | _ => Some (Z.of_nat (length (List.filter c l)))
  end.

Section Aggregates.
(** [AVG] over the values that are not NULL, when there is one; the
    summation of SQLite is not modelled. *)
Variable sql_avg : list float -> float.

Definition sql_avg_of {A} (column : A -> option float) (l : list A) : option float :=
  match omap column l with
  | [] => None
  | values => Some (sql_avg values)
  end.

(** [x or d] for a [float] or [None]. *)
Definition float_or (x : option float) (d : number) : number :=
  match x with
  | Some f => if (f =? 0)%float then d else NFloat f
  | None => d
  end.

(** [get_statistics], lines 192-243 of database.py. *)
Definition get_statistics (db : Database) (quiz_file : option string)
  : result statistics :=
  let answers := joined_answers db quiz_file in
  let total_answers := sql_count answers in
  let correct_answers := sql_sum_case (fun r => a_is_correct (fst r)) answers in
  let avg_response_time := sql_avg_of (fun r => a_response_time (fst r)) answers in
  let states := joined_states db quiz_file in
  let total_questions := sql_count states in
  let learned_questions := sql_sum_case (fun r => 0 <? repetitions (fst r)) states in
  let avg_difficulty := sql_avg_of (fun r => Some (difficulty (fst r))) states in
  accuracy ←
    (if 0 <? total_answers
     then match correct_answers with
          | None => Raise TypeError
          | Some c =>
              ratio ← PyNum.truediv c total_answers;
              hundred ← PyNum.float_of_int 100;
              Ok (NFloat (ratio * hundred)%float)
          end
     else Ok (NInt 0));
  Ok {| total_questions := total_questions;
        total_answers := total_answers;
        correct_answers := default 0 correct_answers;
        accuracy := accuracy;
        avg_response_time := float_or avg_response_time (NInt 0);
        learned_questions := default 0 learned_questions;
        avg_difficulty :=
          match avg_difficulty with
          | Some f => if (f =? 0)%float then 2.5%float else f
          | None => 2.5%float
          end |}.
End Aggregates.

(** The id belongs to a question of the table (of the quiz file, when
    one is given). *)
Definition is_registered (db : Database) (quiz_file : option string) (id : Z) : bool :=
  existsb (fun q => (q_id q =? id) && in_file quiz_file q) (questions db).

(** The recorded answers that were given to the question with id [id]. *)
Definition answers_to (db : Database) (id : Z) : list answer_row :=
  List.filter (fun ua => a_question_id ua =? id) (user_answers db).

(** Every recorded answer belongs to an id that has been handed out. *)
Definition answers_bounded (db : Database) : Prop :=
  forall ua, In ua (user_answers db) -> a_question_id ua <= questions_seq db.

End Stats.

(* ===================================================================== *)
(** * Part II.  Properties                                                *)
(* ===================================================================== *)

Import PyNum Store.

(** ** Binary64 facts *)

Lemma ltb_leb (x y : float) : (x <? y)%float = true -> (x <=? y)%float = true.
Proof.
  rewrite ltb_spec, leb_spec. unfold SFltb, SFleb.
  destruct (SFcompare _ _) as [[]|]; congruence.
Qed.

Lemma max_lower_bound (a b : float) :
  (a <=? a)%float = true -> fle a (PyNum.max a b).
Proof.
  intros Ha. unfold fle, PyNum.max.
  destruct (a <? b)%float eqn:E; [now apply ltb_leb | exact Ha].
Qed.

Lemma finite_not_special (f : float) :
  is_finite f = true -> Prim2SF f <> S754_nan /\ forall s, Prim2SF f <> S754_infinity s.
Proof.
  unfold is_finite. intros H. apply negb_true_iff, orb_false_iff in H.
  destruct H as [Hnan Hinf]. unfold Prim2SF. rewrite Hnan, Hinf.
  destruct (is_zero f); [split; [|intros s]; discriminate|].
  destruct (Z.frexp f) as [r ex].
  destruct (shr_fexp prec emax _ _ _) as [sh e'].
  destruct (shr_m sh); split; try intros s; discriminate.
Qed.

Lemma int_of_float_floor (f : float) :
  is_finite f = true -> fle 0 f ->
  int_of_float f = Ok (floor_of_float f).
Proof.
  intros Hfin Hle. destruct (finite_not_special f Hfin) as [Hnan Hinf].
  unfold fle in Hle. rewrite leb_spec in Hle.
  change (Prim2SF 0) with (S754_zero false) in Hle.
  unfold int_of_float, floor_of_float, Q_of_float.
  destruct (Prim2SF f) as [s|s| |s m e] eqn:E.
  - reflexivity.
  - now destruct (Hinf s).
  - now destruct Hnan.
  - destruct s; [discriminate Hle|]. unfold magnitude_trunc. cbn [cond_Zopp].
    destruct (0 <=? e) eqn:He.
    + now rewrite Qfloor_Z.
    + apply Z.leb_gt in He. unfold Qfloor.
      rewrite Z2Pos.id by (apply Z.pow_pos_nonneg; lia). reflexivity.
Qed.

Lemma binary_round_aux_nonneg (m e : Z) (l : location) :
  nonneg_sf (binary_round_aux prec emax false m e l) = true.
Proof.
  unfold binary_round_aux.
  destruct (shr_fexp prec emax m e l) as [mrs e'].
  destruct (shr_fexp prec emax _ e' loc_Exact) as [mrs' e''].
  destruct (shr_m mrs'); [reflexivity| |reflexivity].
  now destruct (e'' <=? emax - prec).
Qed.

Lemma binary_round_nonneg (m : positive) (e : Z) :
  nonneg_sf (binary_round prec emax false m e) = true.
Proof.
  unfold binary_round. destruct (shl_align _ _ _) as [mz ez].
  apply binary_round_aux_nonneg.
Qed.

Lemma binary_normalize_nonneg (z e : Z) :
  0 <= z -> nonneg_sf (binary_normalize prec emax z e false) = true.
Proof.
  intros Hz. destruct z as [|p|p]; [reflexivity| |lia].
  apply binary_round_nonneg.
Qed.

Lemma float_of_Z_nonneg (z : Z) :
  0 <= z -> nonneg_sf (Prim2SF (float_of_Z z)) = true.
Proof.
  intros Hz. unfold float_of_Z.
  pose proof (binary_normalize_nonneg z 0 Hz) as Hn.
  destruct (binary_normalize prec emax z 0 false) as [s|s| |s m e];
    cbn [nonneg_sf] in Hn.
  - destruct s; reflexivity.
  - destruct s; [discriminate|reflexivity].
  - reflexivity.
  - destruct s; [discriminate|]. cbn [SF2Prim].
    rewrite Z_ldexp_spec, of_uint63_spec.
    pose proof (Uint63.to_Z_bounded (Uint63.of_Z (Z.pos m))) as [Hlo _].
    pose proof (binary_normalize_nonneg _ 0 Hlo) as Hn'.
    destruct (binary_normalize prec emax _ 0 false) as [s'|s'| |s' m' e'];
      cbn [SFldexp]; try exact Hn'.
    destruct s'; [discriminate|]. apply binary_round_nonneg.
Qed.

Lemma fle_zero_nonneg (f : float) : fle 0 f -> nonneg_sf (Prim2SF f) = true.
Proof.
  unfold fle. rewrite leb_spec. change (Prim2SF 0) with (S754_zero false).
  destruct (Prim2SF f) as [s|s| |s m e]; try reflexivity;
    destruct s; try reflexivity; discriminate.
Qed.

Lemma SFmul_nonneg (x y : spec_float) :
  nonneg_sf x = true -> nonneg_sf y = true ->
  nonneg_sf (SFmul prec emax x y) = true.
Proof.
  destruct x as [sx|sx| |sx mx ex], y as [sy|sy| |sy my ey];
    cbn [nonneg_sf SFmul]; intros Hx Hy; try reflexivity;
    try (destruct sx; [discriminate|]); try (destruct sy; [discriminate|]);
    try reflexivity.
  apply binary_round_aux_nonneg.
Qed.

Lemma is_infinity_spec (x : float) :
  is_infinity x = true -> exists s, Prim2SF x = S754_infinity s.
Proof.
  unfold is_infinity. rewrite FloatAxioms.eqb_spec, abs_spec.
  change (Prim2SF infinity) with (S754_infinity false).
  destruct (Prim2SF x) as [s|s| |s m e]; try discriminate. eauto.
Qed.

Lemma finite_product_left (x y : float) :
  is_finite (x * y) = true -> is_infinity x = false.
Proof.
  intros Hfin. destruct (is_infinity x) eqn:E; [|reflexivity].
  destruct (is_infinity_spec x E) as [s Hs].
  destruct (finite_not_special _ Hfin) as [Hnan Hinf].
  rewrite mul_spec, Hs in Hnan, Hinf. unfold SF64mul in *.
  destruct (Prim2SF y) as [sy|sy| |sy my ey]; cbn [SFmul] in *;
    try (now destruct Hnan); now destruct (Hinf (xorb s sy)).
Qed.

Lemma finite_nonneg_product (z : Z) (f : float) :
  0 <= z -> fle 0 f -> is_finite (float_of_Z z * f) = true ->
  fle 0 (float_of_Z z * f).
Proof.
  intros Hz Hf Hfin.
  pose proof (SFmul_nonneg _ _ (float_of_Z_nonneg z Hz) (fle_zero_nonneg f Hf)) as Hn.
  destruct (finite_not_special _ Hfin) as [Hnan Hinf].
  unfold fle. rewrite leb_spec. change (Prim2SF 0) with (S754_zero false).
  rewrite mul_spec in *. unfold SF64mul in *.
  destruct (SFmul prec emax _ _) as [s|s| |s m e].
  - reflexivity.
  - now destruct (Hinf s).
  - now destruct Hnan.
  - destruct s; [discriminate Hn|reflexivity].
Qed.

(** The interval after a correct answer is the floor of the binary64
    product, whenever that product is a finite number and neither factor
    is negative. *)
Lemma correct_interval_floor (st : srs_row) :
  0 <= interval_days st -> fle 0 (ease_factor st) ->
  is_finite (Spec.interval_times_ease st) = true ->
  correct_interval st = Ok (Spec.spec_correct_interval st).
Proof.
  intros Hi He Hfin. unfold correct_interval, Spec.spec_correct_interval.
  destruct (repetitions st =? 0); [reflexivity|].
  destruct (repetitions st =? 1); [reflexivity|].
  unfold mul_int_float, float_of_int.
  unfold Spec.interval_times_ease in Hfin.
  rewrite (finite_product_left _ _ Hfin). cbn.
  apply int_of_float_floor; [exact Hfin|].
  now apply finite_nonneg_product.
Qed.

(** ** The scheduler *)

Lemma update_found (db : Database) (q : Z) (st st' : srs_row) (ok : bool)
    (now later : timestamp) :
  srs_stats db !! q = Some st -> srs_transition st ok now later = Ok st' ->
  exists db', _update_srs_stats db q ok now later = Ok db' /\
              srs_stats db' !! q = Some st' /\
              questions db' = questions db.
Proof.
  intros Hq Ht. unfold _update_srs_stats. rewrite Hq, Ht. cbn.
  eexists. split; [reflexivity|]. cbn. now rewrite lookup_insert_eq.
Qed.

Lemma record_found (db : Database) (q : Z) (st st' : srs_row) (u : string)
    (ok : bool) (rt : option float) (now later : timestamp) :
  srs_stats db !! q = Some st -> srs_transition st ok now later = Ok st' ->
  exists db', record_answer db q u ok rt now later = (db', Ok tt) /\
              srs_stats db' !! q = Some st'.
Proof.
  intros Hq Ht. unfold record_answer.
  match goal with |- context [_update_srs_stats ?db1 _ _ _ _] =>
    destruct (update_found db1 q st st' ok now later Hq Ht) as (db' & Hu & Hl & _)
  end.
  rewrite Hu. eauto.
Qed.

(** The sum of line 156 succeeds when the interval is one that
    [timedelta] takes and leads to a date of the calendar. *)
Lemma next_review_on_calendar (now : timestamp) (i : Z) :
  Z.abs i <= 999999999 -> is_datetime (now + timedelta_days i) ->
  (delta ← timedelta i; datetime_add now delta) = Ok (now + timedelta_days i).
Proof.
  unfold is_datetime, timedelta, datetime_add.
  intros Hi Hnext.
  destruct (Z.abs i <=? 999999999) eqn:E; [|apply Z.leb_gt in E; lia].
  cbn [mbind result_bind].
  destruct (0 <=? now + timedelta_days i) eqn:E1; [|apply Z.leb_gt in E1; lia].
  destruct (now + timedelta_days i <? datetime_limit) eqn:E2;
    [reflexivity|apply Z.ltb_ge in E2; lia].
Qed.

(** Between two dates of the calendar lie fewer days than [timedelta]
    takes. *)
Lemma calendar_span (now : timestamp) (i : Z) :
  is_datetime now -> is_datetime (now + timedelta_days i) -> Z.abs i <= 999999999.
Proof.
  unfold is_datetime, datetime_limit, timedelta_days. lia.
Qed.

(** What a transition that succeeds has computed. *)
Lemma transition_inv (st st' : srs_row) (ok : bool) (now later : timestamp) :
  srs_transition st ok now later = Ok st' ->
  exists i r e,
    (if ok
     then i0 ← correct_interval st; Ok (i0, repetitions st + 1, correct_ease st)
     else Ok (1, 0, incorrect_ease st)) = Ok (i, r, e) /\
    Z.abs i <= 999999999 /\ is_datetime (now + timedelta_days i) /\
    st' = {| difficulty := difficulty st; interval_days := i; repetitions := r;
             next_review := Some (now + timedelta_days i);
             ease_factor := e; last_review := Some later |}.
Proof.
  unfold srs_transition.
  destruct (if ok then _ else _) as [[[i r] e]|x]; cbn [mbind result_bind];
    [|discriminate].
  unfold timedelta, datetime_add, is_datetime.
  destruct (Z.abs i <=? 999999999) eqn:E; cbn [mbind result_bind]; [|discriminate].
  destruct (0 <=? now + timedelta_days i) eqn:E1; cbn [andb]; [|discriminate].
  destruct (now + timedelta_days i <? datetime_limit) eqn:E2; [|discriminate].
  intros [= <-]. exists i, r, e. apply Z.leb_le in E, E1. apply Z.ltb_lt in E2.
  repeat split; assumption.
Qed.

Lemma transition_on_calendar (st : srs_row) (ok : bool) (now later : timestamp)
    (i r : Z) (e : float) :
  (if ok
   then i0 ← correct_interval st; Ok (i0, repetitions st + 1, correct_ease st)
   else Ok (1, 0, incorrect_ease st)) = Ok (i, r, e) ->
  Z.abs i <= 999999999 -> is_datetime (now + timedelta_days i) ->
  srs_transition st ok now later =
  Ok {| difficulty := difficulty st; interval_days := i; repetitions := r;
        next_review := Some (now + timedelta_days i);
        ease_factor := e; last_review := Some later |}.
Proof.
  intros H Hi Hnext. unfold srs_transition. rewrite H. cbn [mbind result_bind].
  pose proof (next_review_on_calendar now i Hi Hnext) as Hc.
  destruct (timedelta i) as [delta|]; cbn [mbind result_bind] in *; [|discriminate].
  now rewrite Hc.
Qed.

Lemma correct_transition (st : srs_row) (now later : timestamp) (i : Z) :
  correct_interval st = Ok i ->
  Z.abs i <= 999999999 -> is_datetime (now + timedelta_days i) ->
  srs_transition st true now later =
  Ok {| difficulty := difficulty st; interval_days := i;
        repetitions := repetitions st + 1;
        next_review := Some (now + timedelta_days i);
        ease_factor := correct_ease st; last_review := Some later |}.
Proof.
  intros H. apply transition_on_calendar. now rewrite H.
Qed.

(** C2.  A correct answer moves the interval to 1 day when the question
    had no repetition, to 6 days when it had one, and otherwise to the
    floor of interval times ease factor (the binary64 product, which has to
    be a finite number and the factors not negative, as they are in every
    review state of the data model); the repetitions go up by one.  This
    holds when the clock shows a date of the calendar and the new interval
    leads from it to a date of the calendar.  From repetitions 0, two
    correct answers in a row give the intervals 1 and then 6. *)
Theorem correct_answer_interval (db : Database) (q : Z) (st : srs_row)
    (u : string) (rt : option float) (now later : timestamp) :
  srs_stats db !! q = Some st ->
  (repetitions st <> 0 -> repetitions st <> 1 ->
   0 <= interval_days st /\ fle 0 (ease_factor st) /\
   is_finite (Spec.interval_times_ease st) = true) ->
  is_datetime now ->
  is_datetime (now + timedelta_days (Spec.spec_correct_interval st)) ->
  exists db' st',
    record_answer db q u true rt now later = (db', Ok tt) /\
    srs_stats db' !! q = Some st' /\
    interval_days st' =
      (if repetitions st =? 0 then 1
       else if repetitions st =? 1 then 6
       else floor_of_float (float_of_Z (interval_days st) * ease_factor st)) /\
    repetitions st' = repetitions st + 1 /\
    (repetitions st = 0 ->
     forall u2 rt2 now2 later2,
       is_datetime now2 -> is_datetime (now2 + timedelta_days 6) ->
       exists db'' st'',
         record_answer db' q u2 true rt2 now2 later2 = (db'', Ok tt) /\
         srs_stats db'' !! q = Some st'' /\
         [interval_days st'; interval_days st''] = [1; 6] /\
         repetitions st'' = 2).
Proof.
  intros Hq Hside Hnow Hnext.
  assert (Hi : correct_interval st = Ok (Spec.spec_correct_interval st)).
  { destruct (Z.eq_dec (repetitions st) 0) as [E|N0].
    - unfold correct_interval, Spec.spec_correct_interval. now rewrite E.
    - destruct (Z.eq_dec (repetitions st) 1) as [E|N1].
      + unfold correct_interval, Spec.spec_correct_interval. now rewrite E.
      + destruct (Hside N0 N1) as (H1 & H2 & H3).
        now apply correct_interval_floor. }
  destruct (record_found db q st _ u true rt now later Hq
              (correct_transition st now later _ Hi
                 (calendar_span now _ Hnow Hnext) Hnext))
    as (db' & Hrec & Hl).
  exists db'. eexists. split; [exact Hrec|]. split; [exact Hl|].
  cbn [interval_days repetitions]. split; [reflexivity|]. split; [reflexivity|].
  intros E0 u2 rt2 now2 later2 Hnow2 Hnext2.
  assert (Hi2 : forall st1, repetitions st1 = 1 -> correct_interval st1 = Ok 6).
  { intros st1 E1. unfold correct_interval. now rewrite E1. }
  match type of Hl with _ = Some ?s1 =>
    destruct (record_found db' q s1 _ u2 true rt2 now2 later2 Hl
                (correct_transition s1 now2 later2 6
                   (Hi2 s1 ltac:(cbn; rewrite E0; reflexivity))
                   (calendar_span now2 6 Hnow2 Hnext2) Hnext2))
      as (db'' & Hrec2 & Hl2)
  end.
  exists db''. eexists. split; [exact Hrec2|]. split; [exact Hl2|].
  cbn. unfold Spec.spec_correct_interval. rewrite E0. cbn. split; reflexivity.
Qed.

(** C3.  An incorrect answer sets the repetitions to 0 and the interval to
    1 day whatever the state was, and takes 0.2 off the ease factor with
    1.3 as the floor: the new ease factor is [max(1.3, old - 0.2)].  The
    clock shows a date at least one day before the calendar ends. *)
Theorem incorrect_answer_resets (db : Database) (q : Z) (st : srs_row)
    (u : string) (rt : option float) (now later : timestamp) :
  srs_stats db !! q = Some st ->
  is_datetime (now + timedelta_days 1) ->
  exists db' st',
    record_answer db q u false rt now later = (db', Ok tt) /\
    srs_stats db' !! q = Some st' /\
    repetitions st' = 0 /\
    interval_days st' = 1 /\
    ease_factor st' =
      (if (1.3 <? ease_factor st - 0.2)%float
       then (ease_factor st - 0.2)%float else 1.3%float) /\
    fle 1.3 (ease_factor st').
Proof.
  intros Hq Hnext.
  destruct (record_found db q st _ u false rt now later Hq
              (transition_on_calendar st false now later 1 0 _ eq_refl
                 ltac:(cbn; lia) Hnext))
    as (db' & Hrec & Hl).
  exists db'. eexists. split; [exact Hrec|]. split; [exact Hl|].
  cbn. repeat split. now apply max_lower_bound.
Qed.

(** C2, as stated, fails after a long streak: fourteen correct answers
    in a row leave the interval at 2033127 days; the next correct answer
    asks for an interval of 6648325 days, which leads past the year 9999,
    so the update raises and the review state keeps its 14 repetitions
    and its interval. *)
Lemma correct_answer_overflow_counterexample :
  (repetitions <$> srs_stats (Spec.after Sample.streak) !! 1) = Some 14 /\
  (interval_days <$> srs_stats (Spec.after Sample.streak) !! 1) = Some 2033127 /\
  (Spec.spec_correct_interval <$> srs_stats (Spec.after Sample.streak) !! 1)
  = Some 6648325 /\
  snd (record_answer (Spec.after Sample.streak) 1 "import" true None
                     (Sample.today + Sample.seconds 15)
                     (Sample.today + Sample.seconds 15 + 7)) = Raise OverflowError /\
  srs_stats (fst (record_answer (Spec.after Sample.streak) 1 "import" true None
                                (Sample.today + Sample.seconds 15)
                                (Sample.today + Sample.seconds 15 + 7))) !! 1
  = srs_stats (Spec.after Sample.streak) !! 1.
Proof. vm_compute. repeat split; reflexivity. Qed.

Lemma correct_answer_interval_witness :
  exists db' st',
    record_answer Sample.seasoned_db 1 "import" true None 5000 5001 = (db', Ok tt) /\
    srs_stats db' !! 1 = Some st' /\
    interval_days st' = 15 /\ repetitions st' = 3.
Proof.
  destruct (correct_answer_interval Sample.seasoned_db 1 Sample.seasoned
              "import" None 5000 5001)
    as (db' & st' & Hrec & Hl & Hi & Hr & _).
  - vm_compute. reflexivity.
  - intros _ _. split; [cbn; lia|]. split; vm_compute; reflexivity.
  - vm_compute. split; [discriminate|reflexivity].
  - vm_compute. split; [discriminate|reflexivity].
  - exists db', st'. split; [exact Hrec|]. split; [exact Hl|].
    split; [rewrite Hi|rewrite Hr]; vm_compute; reflexivity.
Defined.

Lemma incorrect_answer_resets_witness :
  exists db' st',
    record_answer Sample.seasoned_db 1 "export" false None 5000 5001 = (db', Ok tt) /\
    srs_stats db' !! 1 = Some st' /\
    repetitions st' = 0 /\ interval_days st' = 1 /\
    ease_factor st' = (2.61 - 0.2)%float.
Proof.
  destruct (incorrect_answer_resets Sample.seasoned_db 1 Sample.seasoned
              "export" None 5000 5001)
    as (db' & st' & Hrec & Hl & Hr & Hi & He & _).
  - vm_compute. reflexivity.
  - vm_compute. split; [discriminate|reflexivity].
  - exists db', st'. repeat (split; [assumption|]). rewrite He.
    vm_compute. reflexivity.
Defined.

Lemma transition_ease_bounded (st st' : srs_row) (ok : bool) (now later : timestamp) :
  srs_transition st ok now later = Ok st' -> fle 1.3 (ease_factor st').
Proof.
  intros H. apply transition_inv in H as (i & r & e & H & _ & _ & ->). cbn.
  destruct ok.
  - destruct (correct_interval st); cbn in H; [|discriminate].
    injection H as _ _ <-. now apply max_lower_bound.
  - injection H as _ _ <-. now apply max_lower_bound.
Qed.

Lemma add_question_ease_bounded (db : Database) now f i t a ty o c :
  Spec.ease_bounded db -> Spec.ease_bounded (fst (add_question db now f i t a ty o c)).
Proof.
  intros Hdb q st. unfold add_question. cbn.
  destruct (srs_stats db !! (questions_seq db + 1)) eqn:E; [apply Hdb|].
  rewrite lookup_insert. case_decide.
  - injection 1 as <-. vm_compute. reflexivity.
  - apply Hdb.
Qed.

Lemma record_answer_ease_bounded (db : Database) q u ok rt now later :
  Spec.ease_bounded db ->
  Spec.ease_bounded (fst (record_answer db q u ok rt now later)).
Proof.
  intros Hdb q' st'. unfold record_answer, _update_srs_stats. cbn.
  destruct (srs_stats db !! q) as [st|] eqn:E; [|apply Hdb].
  destruct (srs_transition st ok now later) as [st1|e] eqn:T; cbn; [|apply Hdb].
  rewrite lookup_insert. case_decide; [|apply Hdb].
  injection 1 as <-. now apply (transition_ease_bounded st st1 ok now later).
Qed.

Lemma apply_ease_bounded (db : Database) (e : Spec.event) :
  Spec.ease_bounded db -> Spec.ease_bounded (Spec.apply db e).
Proof.
  destruct e; cbn [Spec.apply];
    [apply add_question_ease_bounded | apply record_answer_ease_bounded].
Qed.

Lemma history_ease_bounded (events : list Spec.event) (db : Database) :
  Spec.ease_bounded db -> Spec.ease_bounded (fold_left Spec.apply events db).
Proof.
  revert db. induction events as [|e events IH]; intros db Hdb; [exact Hdb|].
  cbn. apply IH. now apply apply_ease_bounded.
Qed.

(** C4.  After any finite history of registrations and of correct and
    incorrect answers, starting from a new store, every review state has
    an ease factor of at least 1.3: at creation (2.5) and after every
    transition. *)
Theorem ease_factor_at_least_1_3 (events : list Spec.event) (q : Z) (st : srs_row) :
  srs_stats (Spec.after events) !! q = Some st -> fle 1.3 (ease_factor st).
Proof.
  apply (history_ease_bounded events empty_db).
  intros q' st' H. cbn in H. now rewrite lookup_empty in H.
Qed.

Lemma ease_factor_at_least_1_3_witness :
  fle 1.3 (ease_factor (default (default_srs 0) (srs_stats Sample.studied !! 1))).
Proof.
  apply (ease_factor_at_least_1_3
           [Spec.Register Sample.quiz "py_2" "Which keyword imports a module?"
                          "import" "text" None None 0;
            Spec.AnswerEvent 1 "import" true None 1000 1000;
            Spec.AnswerEvent 1 "import" true None 2000 2000] 1).
  vm_compute. reflexivity.
Defined.

(** ** Registration *)

(** C1.  The code at a re-registration: the question registered under
    ("quizy/python_podstawy.json", "py_2") got the id 1 and, after two
    correct answers, the review state (repetitions 2, interval 6 days).
    Registered again, it gets the new id 2, whose review state is the
    default one (ease factor 2.5, interval 1, repetitions 0, due at once,
    never reviewed); the state reached under id 1 stays in the table but
    belongs to no question any more. *)
Theorem reregistration_resets_review_state :
  snd Sample.registered = 1 /\
  get_question_db_id Sample.studied Sample.quiz "py_2" = Some 1 /\
  (repetitions <$> srs_stats Sample.studied !! 1) = Some 2 /\
  (interval_days <$> srs_stats Sample.studied !! 1) = Some 6 /\
  snd Sample.registered_again = 2 /\
  get_question_db_id (fst Sample.registered_again) Sample.quiz "py_2" = Some 2 /\
  map q_id (questions (fst Sample.registered_again)) = [2] /\
  srs_stats (fst Sample.registered_again) !! 2 = Some (default_srs 3000) /\
  (repetitions <$> srs_stats (fst Sample.registered_again) !! 1) = Some 2.
Proof. vm_compute. repeat split; reflexivity. Qed.

(** Whatever the store holds, a registration under an identity that is
    already there hands out an id above every id handed out before, and
    drops the row of the old id. *)
Lemma add_question_fresh_id (db : Database) now f i t a ty o c :
  snd (add_question db now f i t a ty o c) = questions_seq db + 1 /\
  forall q, In q (questions (fst (add_question db now f i t a ty o c))) ->
            same_identity f i q = true -> q_id q = questions_seq db + 1.
Proof.
  split; [reflexivity|]. intros q. cbn. rewrite in_app_iff, filter_In.
  intros [[_ Hne]|[<-|[]]] Hs; [|reflexivity].
  rewrite Hs in Hne. discriminate.
Qed.

Lemma apply_keys_bounded (db : Database) (e : Spec.event) :
  Spec.keys_bounded db -> Spec.keys_bounded (Spec.apply db e).
Proof.
  intros Hdb k st. destruct e as [f i t a ty o c now|q u ok rt now later]; cbn.
  - destruct (srs_stats db !! (questions_seq db + 1)) eqn:E.
    + intros H. apply Hdb in H. lia.
    + rewrite lookup_insert. case_decide; [lia|]. intros Hk. apply Hdb in Hk. lia.
  - unfold record_answer, _update_srs_stats. cbn [srs_stats].
    destruct (srs_stats db !! q) as [st0|] eqn:E; [|apply Hdb].
    destruct (srs_transition st0 ok now later); cbn; [|apply Hdb].
    rewrite lookup_insert. case_decide; [|apply Hdb].
    intros _. subst k. now apply (Hdb q st0).
Qed.

Lemma history_keys_bounded (events : list Spec.event) (db : Database) :
  Spec.keys_bounded db -> Spec.keys_bounded (fold_left Spec.apply events db).
Proof.
  revert db. induction events as [|e events IH]; intros db Hdb; [exact Hdb|].
  cbn. apply IH. now apply apply_keys_bounded.
Qed.

(** After any history, a registration hands out a new id and that id
    starts from the default review state, whether or not the identity was
    registered before. *)
Lemma registration_starts_afresh (events : list Spec.event) now f i t a ty o c :
  let db := Spec.after events in
  let new_id := snd (add_question db now f i t a ty o c) in
  new_id = questions_seq db + 1 /\
  srs_stats (fst (add_question db now f i t a ty o c)) !! new_id
  = Some (default_srs now).
Proof.
  cbn. split; [reflexivity|].
  destruct (srs_stats (Spec.after events) !! (questions_seq (Spec.after events) + 1))
    as [st|] eqn:E.
  - assert (Hb : Spec.keys_bounded (Spec.after events)).
    { apply history_keys_bounded. intros k st' H. cbn in H.
      now rewrite lookup_empty in H. }
    apply Hb in E. lia.
  - now rewrite lookup_insert_eq.
Qed.

(** ** Selection of the next question *)

Lemma order_by_nil : order_by [] = [].
Proof. reflexivity. Qed.

Lemma nothing_due (db : Database) (quiz_file : option string) (limit : Z)
    (now : timestamp) :
  (forall q, In q (questions db) ->
             exists st t, srs_stats db !! q_id q = Some st /\
                          next_review st = Some t /\ now < t) ->
  get_questions_for_review db quiz_file limit now = [].
Proof.
  intros Hfuture. unfold get_questions_for_review.
  assert (E : List.filter (fun r => is_due now r && in_quiz quiz_file r)
                          (map (join_srs db) (questions db)) = []).
  { induction (questions db) as [|q qs IH]; [reflexivity|]. cbn [map List.filter].
    destruct (Hfuture q (or_introl eq_refl)) as (st & t & Hs & Hn & Hlt).
    assert (Hdue : is_due now (join_srs db q) = false).
    { unfold is_due, join_srs. cbn. rewrite Hs. cbn. rewrite Hn.
      apply Z.leb_gt. exact Hlt. }
    rewrite Hdue. cbn. apply IH. intros q' Hin. apply Hfuture. now right. }
  rewrite E. cbn. unfold sql_limit. destruct (limit <? 0); [reflexivity|].
  now destruct (Z.to_nat limit).
Qed.

(** In random mode the question is drawn from the due questions only:
    when none is due there is no question, however many are registered. *)
Lemma random_mode_without_due (m : Manager.QuizManager) (now : timestamp) (pick : nat) :
  (forall q, In q (questions (Manager.db m)) ->
             exists st t, srs_stats (Manager.db m) !! q_id q = Some st /\
                          next_review st = Some t /\ now < t) ->
  Manager.get_next_question m "random" now pick = None.
Proof.
  intros H. unfold Manager.get_next_question.
  now rewrite (nothing_due _ _ 100 now H).
Qed.

(** C9.  The code in random mode when nothing is due: the store of the
    sample session holds one registered question, reviewed, and due in six
    days; asked for the next question in random mode, the session returns
    none, and so does it in review mode. *)
Theorem random_mode_has_no_fallback :
  length (questions (Manager.db Sample.session)) = 1%nat /\
  (last_review <$> srs_stats (Manager.db Sample.session) !! 1) = Some (Some 2000) /\
  (next_review <$> srs_stats (Manager.db Sample.session) !! 1)
    = Some (Some (2000 + timedelta_days 6)) /\
  Manager.get_next_question Sample.session "random" 3000 0 = None /\
  Manager.get_next_question Sample.session "review" 3000 0 = None.
Proof. vm_compute. repeat split; reflexivity. Qed.

(** ** The answer verifier *)

Import Verifier.

Lemma index_lookup {A} (l : list A) (i : nat) (x : A) :
  l !! i = Some x -> index l (Z.of_nat i) = Ok x.
Proof.
  intros H. pose proof (lookup_lt_Some _ _ _ H) as Hlt. unfold index.
  destruct (Z.of_nat i <? 0) eqn:E0; [apply Z.ltb_lt in E0; lia|].
  replace ((0 <=? Z.of_nat i) && (Z.of_nat i <? Z.of_nat (length l))) with true.
  - now rewrite Nat2Z.id, H.
  - symmetry. apply andb_true_iff. split; [apply Z.leb_le|apply Z.ltb_lt]; lia.
Qed.

Lemma index_total {A} (l : list A) (i : Z) :
  (0 <=? i) && (i <? Z.of_nat (length l)) = true -> exists x, index l i = Ok x.
Proof.
  intros H. apply andb_true_iff in H as [H0 H1].
  apply Z.leb_le in H0. apply Z.ltb_lt in H1.
  assert (Hlt : (Z.to_nat i < length l)%nat) by lia.
  destruct (lookup_lt_is_Some_2 l (Z.to_nat i) Hlt) as [x Hx].
  exists x. rewrite <- (Z2Nat.id i) by lia. now apply index_lookup.
Qed.

Lemma free_text_empty_canon (canon sub : gset string) :
  size canon = 0%nat -> size (canon ∩ sub) = 0%nat.
Proof.
  rewrite !size_empty_iff. intros H x. rewrite elem_of_intersection, (H x).
  rewrite elem_of_empty. tauto.
Qed.

Lemma check_text_answer_spec (submission canonical : string) :
  exists b, _check_text_answer submission canonical = Ok b /\
            (b = true <-> Spec.free_text_correct submission canonical).
Proof.
  revert submission canonical.
  intros u c. unfold _check_text_answer, Spec.free_text_correct, Spec.coverage, fle.
  set (un := normalize u). set (cn := normalize c).
  destruct (10 <? PyStr.len cn) eqn:Elen.
  - apply Z.ltb_lt in Elen.
    destruct (0 <? Z.of_nat (size (words cn))) eqn:Esz.
    + apply Z.ltb_lt in Esz. unfold truediv.
      destruct (Z.of_nat (size (words cn)) =? 0) eqn:Ez;
        [apply Z.eqb_eq in Ez; lia|].
      cbn. eexists. split; [reflexivity|].
      rewrite orb_true_iff, String.eqb_eq. tauto.
    + apply Z.ltb_ge in Esz. assert (Hs : size (words cn) = 0%nat) by lia.
      cbn. eexists. split; [reflexivity|].
      rewrite orb_false_r, String.eqb_eq.
      rewrite (free_text_empty_canon _ (words un) Hs), Hs.
      split; [tauto|]. intros [H|[_ H]]; [exact H|].
      vm_compute in H. discriminate.
  - apply Z.ltb_ge in Elen. cbn. eexists. split; [reflexivity|].
    rewrite orb_false_r, String.eqb_eq. split; [tauto|].
    intros [H|[H _]]; [exact H|lia].
Qed.

(** C5.  A free-text submission is judged correct exactly when its
    normalized text equals the normalized canonical answer, or the
    normalized canonical answer is longer than 10 characters and the
    coverage of its words by the submission's words is at least 0.70.  For
    the canonical answer "the quick brown fox jumps", four of the five
    words are enough and three are not. *)
Theorem free_text_rule :
  (forall (submission canonical : string) (options correct_answers : option (list string)),
     verdict submission canonical "text" options correct_answers
     = _check_text_answer submission canonical) /\
  (forall submission canonical : string,
     exists b, _check_text_answer submission canonical = Ok b /\
               (b = true <-> Spec.free_text_correct submission canonical)) /\
  _check_text_answer "The quick brown fox" "the quick brown fox jumps" = Ok true /\
  Spec.coverage "the quick brown fox jumps" "The quick brown fox" = (4 / 5)%float /\
  _check_text_answer "the quick brown" "the quick brown fox jumps" = Ok false /\
  Spec.coverage "the quick brown fox jumps" "the quick brown" = (3 / 5)%float.
Proof.
  split; [reflexivity|].
  split; [exact check_text_answer_spec|vm_compute; repeat split; reflexivity].
Qed.

Lemma letter_class (c : ascii) :
  PyStr.contains "abcd, " (String c EmptyString) =
  Spec.is_letter c || Ascii.eqb c "," || Spec.is_space_char c.
Proof. destruct c as [[] [] [] [] [] [] [] []]; reflexivity. Qed.

Lemma all_letter_class (s : string) :
  forallb (fun c => PyStr.contains "abcd, " c) (PyStr.chars s) =
  forallb (fun c => Spec.is_letter c || Ascii.eqb c "," || Spec.is_space_char c)
          (list_ascii_of_string s).
Proof.
  induction s as [|c s IH]; [reflexivity|].
  cbn [PyStr.chars list_ascii_of_string forallb]. now rewrite IH, letter_class.
Qed.

(** One round of the loop over the letters, for the letter at offset [k]. *)
Lemma collect_letter (opts : list string) (letter : ascii) (k : nat)
    (rest acc : list string) :
  (k < 4)%nat -> N_of_ascii letter = N.of_nat (65 + k) ->
  collect_user_answers opts (String letter EmptyString :: rest) acc =
  collect_user_answers opts rest
    (acc ++ match opts !! k with Some t => [normalize t] | None => [] end).
Proof.
  intros Hk Hl. cbn [collect_user_answers ord]. rewrite Hl. cbn [mbind result_bind].
  replace (Z.of_N (N.of_nat (65 + k)) - Z.of_N (N_of_ascii "A")) with (Z.of_nat k)
    by (change (N_of_ascii "A") with 65%N; lia).
  destruct (opts !! k) as [t|] eqn:E.
  - pose proof (lookup_lt_Some _ _ _ E) as Hlt.
    replace ((0 <=? Z.of_nat k) && (Z.of_nat k <? Z.of_nat (length opts))) with true
      by (symmetry; apply andb_true_iff; split;
          [apply Z.leb_le|apply Z.ltb_lt]; lia).
    now rewrite (index_lookup _ _ _ E).
  - pose proof (lookup_ge_None_1 _ _ E) as Hge.
    replace (Z.of_nat k <? Z.of_nat (length opts)) with false
      by (symmetry; apply Z.ltb_ge; lia).
    rewrite andb_false_r, app_nil_r. reflexivity.
Qed.

Lemma collect_named (opts : list string) (s : string) (acc : list string) :
  forallb (fun c => PyStr.contains "abcd, " c) (PyStr.chars s) = true ->
  collect_user_answers opts
    (List.filter (fun c => PyStr.contains "ABCD" c) (map PyStr.upper (PyStr.chars s)))
    acc
  = Ok (acc ++ Spec.named_options opts s).
Proof.
  revert acc. induction s as [|c s IH]; intros acc Hall.
  - cbn. now rewrite app_nil_r.
  - cbn [PyStr.chars forallb] in Hall. apply andb_true_iff in Hall as [Hc Hs].
    cbn [PyStr.chars map List.filter]. unfold Spec.named_options.
    cbn [list_ascii_of_string omap list_omap].
    fold (Spec.named_options opts s).
    destruct c as [[] [] [] [] [] [] [] []]; try discriminate Hc;
      cbn [PyStr.upper PyStr.map_chars];
      match goal with
      | |- context [Spec.letter_option opts ?c] =>
          let b := eval vm_compute in (Spec.is_letter c) in
          match b with
          | true =>
              let k := eval vm_compute in (N.to_nat (N_of_ascii c) - 97)%nat in
              let u := eval vm_compute in (PyStr.upper_char c) in
              change (PyStr.upper_char c) with u;
              change (PyStr.contains "ABCD" (String u EmptyString)) with true;
              cbv iota;
              rewrite (collect_letter opts u k _ acc ltac:(cbn; lia) eq_refl);
              rewrite IH by exact Hs;
              change (Spec.letter_option opts c) with (opts !! k);
              destruct (opts !! k); cbn; [now rewrite <- app_assoc | now rewrite app_nil_r]
          | false =>
              let u := eval vm_compute in (PyStr.upper_char c) in
              change (PyStr.upper_char c) with u;
              change (PyStr.contains "ABCD" (String u EmptyString)) with false;
              cbv iota;
              change (Spec.letter_option opts c) with (@None string);
              cbn; now apply IH
          end
      end.
Qed.

Lemma same_set_same_members (l1 l2 : list string) :
  bool_decide (as_set l1 = as_set l2) = true <-> (forall x, x ∈ l1 <-> x ∈ l2).
Proof.
  rewrite bool_decide_eq_true. unfold as_set. split.
  - intros H x. rewrite <- !(elem_of_list_to_set (C := gset string)). now rewrite H.
  - intros H. apply set_eq. intros x. rewrite !elem_of_list_to_set. apply H.
Qed.

Lemma check_multiple_choice_spec (submission : string)
    (correct_answers : list string) (options : option (list string)) :
  _check_multiple_choice_answer submission correct_answers options =
  Ok (Spec.multi_choice_correct Spec.is_space_char submission correct_answers options).
Proof.
  revert submission correct_answers options. intros u correct options.
  unfold _check_multiple_choice_answer, Spec.multi_choice_correct.
  rewrite <- all_letter_class.
  destruct (forallb _ (PyStr.chars (normalize u))) eqn:Hall; [|reflexivity].
  destruct options as [[|o opts]|]; cbn [truthy default].
  - cbn [mbind result_bind]. unfold Spec.named_options.
    replace (omap _ _) with (@nil string); [reflexivity|].
    induction (list_ascii_of_string (normalize u)) as [|c l IH]; [reflexivity|].
    cbn. unfold Spec.letter_option.
    repeat (destruct (Ascii.eqb c _); [exact IH|]). exact IH.
  - change (id (o :: opts)) with (o :: opts).
    rewrite (collect_named (o :: opts) (normalize u) [] Hall). reflexivity.
  - cbn [mbind result_bind]. unfold Spec.named_options.
    replace (omap _ _) with (@nil string); [reflexivity|].
    induction (list_ascii_of_string (normalize u)) as [|c l IH]; [reflexivity|].
    cbn. unfold Spec.letter_option.
    repeat (destruct (Ascii.eqb c _); [exact IH|]). exact IH.
Qed.

(** C6, as amended.  When every character of the normalized submission is
    one of the letters a-d, a comma or a space, the letters are mapped to
    their option texts (a letter without an option is dropped) and the set
    of these texts, normalized, is compared with the set of the normalized
    correct answers; otherwise the submission is split on commas and the
    set of its normalized pieces is compared.  Two lists compare equal as
    sets exactly when they have the same members, whatever their order
    and their repetitions. *)
Theorem multi_choice_rule :
  (forall (submission : string) (correct_answers : list string)
          (options : option (list string)),
     _check_multiple_choice_answer submission correct_answers options =
     Ok (Spec.multi_choice_correct Spec.is_space_char submission correct_answers
                                   options)) /\
  (forall l1 l2 : list string,
     bool_decide (as_set l1 = as_set l2) = true <-> (forall x, x ∈ l1 <-> x ∈ l2)).
Proof. split; [exact check_multiple_choice_spec|exact same_set_same_members]. Qed.

(** C6, as stated, fails when a tab stands between the letters: every
    character of "a<TAB>b" is a letter or whitespace, and read as letters
    it names the two options, which are the two correct answers; the code
    takes the other branch and compares the whole text with them. *)
Lemma multi_choice_tab_counterexample :
  Spec.multi_choice_correct PyStr.isspace Sample.tabbed ["int"; "string"]
                            (Some ["int"; "string"; "array"]) = true /\
  _check_multiple_choice_answer Sample.tabbed ["int"; "string"]
                                (Some ["int"; "string"; "array"]) = Ok false.
Proof. vm_compute. split; reflexivity. Qed.

Lemma one_character (s : string) :
  PyStr.len s = 1 -> exists c, s = String c EmptyString.
Proof.
  destruct s as [|c [|c' s]]; unfold PyStr.len; cbn [String.length]; intros H;
    [lia|eauto|lia].
Qed.

Lemma check_single_choice_total (user_answer correct_answer : string)
    (options : list string) :
  exists b, _check_single_choice_answer user_answer correct_answer options = Ok b.
Proof.
  unfold _check_single_choice_answer.
  destruct (PyStr.len (normalize user_answer) =? 1) eqn:E1; cbn [andb]; [|eauto].
  apply Z.eqb_eq, one_character in E1 as [c ->].
  destruct (PyStr.contains "ABCD" _); [|eauto]. cbn [PyStr.upper PyStr.map_chars ord].
  cbn [mbind result_bind].
  destruct ((0 <=? _) && _) eqn:Er; [|eauto].
  destruct (index_total _ _ Er) as [t ->]. cbn. eauto.
Qed.

(** C10.  Whatever the question type, the options, the canonical answer
    and the submission, the verification returns a verdict and raises
    nothing.  An empty submission and a letter beyond the last option are
    compared with the canonical answer as texts. *)
Theorem verification_is_total :
  (forall (user_answer correct_answer question_type : string)
          (options correct_answers : option (list string)),
     exists b, verdict user_answer correct_answer question_type
                       options correct_answers = Ok b) /\
  (forall (correct_answer : string) (options : list string),
     _check_single_choice_answer "" correct_answer options
     = Ok (String.eqb "" (normalize correct_answer))) /\
  (forall correct_answer : string,
     _check_single_choice_answer "D" correct_answer ["Paris"; "London"; "Rome"]
     = Ok (String.eqb "d" (normalize correct_answer))) /\
  (forall correct_answers : list string,
     _check_multiple_choice_answer "" correct_answers None
     = Ok (bool_decide (as_set [] = as_set (map normalize correct_answers)))).
Proof.
  split; [|repeat split; intros; reflexivity].
  intros u c ty options correct. unfold verdict.
  destruct (String.eqb ty "single_choice" && truthy options);
    [apply check_single_choice_total|].
  destruct (String.eqb ty "multiple_choice" && truthy correct).
  - rewrite check_multiple_choice_spec. eauto.
  - destruct (check_text_answer_spec u c) as (b & Hb & _). eauto.
Qed.

(** ** The content parser *)


(** The choice pattern asks for the four labelled lines.  With the four
    options the block gives the single-choice question; with the line of
    option D present but blank it gives the question with the three other
    options; without that line it finds no match, no text pattern applies
    either, and the lines are paired off into two free-text questions. *)
Example choice_block_examples :
  Parser._parse_markdown Sample.four_options =
    [Sample.choice_of_capital ["Paris"; "London"; "Rome"; "Oslo"]] /\
  Parser._parse_markdown Sample.blank_fourth =
    [Sample.choice_of_capital ["Paris"; "London"; "Rome"]] /\
  Regex.findall Parser.abcd_pattern Sample.three_options = [] /\
  Parser._parse_markdown Sample.three_options =
    [Parser.text_question "0" "Q: Capital of France" "A) Paris";
     Parser.text_question "1" "B) London" "C) Rome"].
Proof. vm_compute. repeat split; reflexivity. Qed.

(** C8, as amended.  A JSON source whose top-level value is neither a list
    nor an object (a string, a number, a boolean, null) parses to the
    empty sequence of questions: [_parse_json] returns it, and so does
    [parse_file] for a [.json] file with such a content; nothing is raised. *)
Theorem scalar_json_parses_to_nothing (py_repr : Parser.pyval -> string)
    (data : Parser.pyval) :
  Spec.accepted_shape data = false ->
  Parser._parse_json py_repr data = Ok [] /\
  forall (fs : gmap string Parser.file) (path : string) (f : Parser.file),
    fs !! path = Some f ->
    PyStr.lower (Parser.extension path) = ".json" ->
    Parser.f_json f = Ok data ->
    Parser.parse_file py_repr fs path = Ok [].
Proof.
  intros Hshape.
  assert (H : Parser._parse_json py_repr data = Ok [])
    by (destruct data; try reflexivity; discriminate Hshape).
  split; [exact H|]. intros fs path f Hf Hext Hjson.
  unfold Parser.parse_file. rewrite Hf, Hext, Hjson. exact H.
Qed.

Lemma scalar_json_parses_to_nothing_witness :
  Parser._parse_json Sample.no_repr (Parser.PInt 42) = Ok [] /\
  Parser.parse_file Sample.no_repr Sample.files "quizy/answer.json" = Ok [].
Proof.
  destruct (scalar_json_parses_to_nothing Sample.no_repr (Parser.PInt 42) eq_refl)
    as [H1 H2].
  split; [exact H1|].
  apply (H2 Sample.files "quizy/answer.json"
            {| Parser.f_text := "42"; Parser.f_json := Ok (Parser.PInt 42) |});
    vm_compute; reflexivity.
Defined.

(** C8, as stated, fails on the file whose content is the number 42: the
    parse returns the empty sequence where the claim asks for an error. *)
Lemma scalar_json_counterexample :
  Parser.parse_file Sample.no_repr Sample.files "quizy/answer.json" = Ok [].
Proof. vm_compute. reflexivity. Qed.

(** ** The session *)

(** What [check_answer] returns is the verdict of the verifier; the answer
    row is in the store whether or not the update of the review state
    went through. *)
Lemma check_answer_returns_verdict (m : Manager.QuizManager) (q : Z)
    (u c ty : string) (o ca : option (list string)) (rt : option float)
    (now later : timestamp) (b : bool) :
  snd (Manager.check_answer m q u c ty o ca rt now later) = Ok b ->
  verdict u c ty o ca = Ok b /\
  length (user_answers
            (Manager.db (fst (Manager.check_answer m q u c ty o ca rt now later))))
  = S (length (user_answers (Manager.db m))).
Proof.
  unfold Manager.check_answer.
  destruct (verdict u c ty o ca) as [v|e] eqn:Ev; [|discriminate].
  unfold record_answer, _update_srs_stats. cbn [srs_stats].
  destruct (srs_stats (Manager.db m) !! q) as [st|].
  - destruct (srs_transition st v now later); cbn; [|discriminate].
    intros [= <-]. split; [reflexivity|]. rewrite length_app. cbn. lia.
  - cbn. intros [= <-]. split; [reflexivity|]. rewrite length_app. cbn. lia.
Qed.

(** An incorrect answer is recorded while the calendar has a day left:
    the transition it triggers does not raise. *)
Lemma check_answer_incorrect_recorded (m : Manager.QuizManager) (q : Z)
    (u c ty : string) (o ca : option (list string)) (rt : option float)
    (now later : timestamp) :
  verdict u c ty o ca = Ok false ->
  is_datetime (now + timedelta_days 1) ->
  snd (Manager.check_answer m q u c ty o ca rt now later) = Ok false.
Proof.
  intros Hv Hnext. unfold Manager.check_answer. rewrite Hv.
  unfold record_answer, _update_srs_stats. cbn [srs_stats].
  destruct (srs_stats (Manager.db m) !! q) as [st|]; [|reflexivity].
  now rewrite (transition_on_calendar st false now later 1 0 _ eq_refl
                 ltac:(cbn; lia) Hnext).
Qed.

(** ** The examples of the specification, run on the model *)

Example single_choice_examples :
  let check u := _check_single_choice_answer u "Paris" ["Paris"; "London"; "Rome"] in
  map check ["A"; "a"; "paris"; " Paris "; "B"; "rome"]
  = [Ok true; Ok true; Ok true; Ok true; Ok false; Ok false].
Proof. vm_compute. reflexivity. Qed.

Example multi_choice_examples :
  let check u :=
    _check_multiple_choice_answer u ["int"; "string"; "boolean"]
                                  (Some ["int"; "string"; "boolean"; "array"]) in
  map check ["A, B, C"; "a,c,b"; "int, boolean, string"; "A, B"]
  = [Ok true; Ok true; Ok true; Ok false].
Proof. vm_compute. reflexivity. Qed.

Example due_ordering_example :
  map (fun r => q_id (r_question r))
      (get_questions_for_review Sample.three_due None 20 101) = [2; 1; 3] /\
  map (fun r => q_id (r_question r))
      (get_questions_for_review Sample.three_due None 20 100) = [2; 1].
Proof. vm_compute. split; reflexivity. Qed.

(** Up to 300 words in the canonical answer, the binary64 comparison of
    the coverage with 0.7 is the exact comparison of [k / n] with 7/10. *)
Example threshold_is_exact : forallb Spec.threshold_exact (seq 1 300) = true.
Proof. vm_compute. reflexivity. Qed.

(* ===================================================================== *)
(** * Part III.  Further properties of the code                           *)
(* ===================================================================== *)

(** ** Keys of the store *)

Lemma same_identity_iff (f i : string) (q : question_row) :
  same_identity f i q = true <-> Props.identity q = (f, i).
Proof.
  unfold same_identity, Props.identity.
  rewrite andb_true_iff, !String.eqb_eq. split; [intros [-> ->]|intros [= -> ->]]; auto.
Qed.

Lemma in_kept (f i : string) (q : question_row) (l : list question_row) :
  In q (List.filter (fun q => negb (same_identity f i q)) l) <->
  In q l /\ Props.identity q <> (f, i).
Proof.
  rewrite filter_In, negb_true_iff, <- same_identity_iff.
  destruct (same_identity f i q); intuition congruence.
Qed.

Lemma NoDup_map_filter {A B} (g : A -> B) (p : A -> bool) (l : list A) :
  NoDup (map g l) -> NoDup (map g (List.filter p l)).
Proof.
  induction l as [|x l IH]; cbn; [auto|]. rewrite !NoDup_cons. intros [Hx Hl].
  destruct (p x); cbn; [|auto]. rewrite NoDup_cons. split; [|auto].
  rewrite list_elem_of_In, in_map_iff in *. intros (y & Hy & Hin).
  apply Hx. exists y. split; [exact Hy|]. now apply filter_In in Hin.
Qed.

Lemma add_question_well_keyed (db : Database) now f i t a ty o c :
  Props.well_keyed db -> Props.well_keyed (fst (add_question db now f i t a ty o c)).
Proof.
  intros (Hid & Hident & Hseq & Hrange). unfold Props.well_keyed. cbn.
  rewrite !map_app. cbn. split; [|split; [|split]].
  - apply NoDup_app. split; [now apply NoDup_map_filter|]. split.
    + intros x Hx Hy. apply list_elem_of_In in Hx, Hy.
      destruct Hy as [<-|[]]. apply in_map_iff in Hx as (q & Hq & Hin).
      apply in_kept in Hin as [Hin _]. apply Hrange in Hin. lia.
    + apply NoDup_singleton.
  - apply NoDup_app. split; [now apply NoDup_map_filter|]. split.
    + intros x Hx Hy. apply list_elem_of_In in Hx, Hy.
      destruct Hy as [<-|[]]. apply in_map_iff in Hx as (q & Hq & Hin).
      apply in_kept in Hin as [_ Hne]. apply Hne. exact Hq.
    + apply NoDup_singleton.
  - lia.
  - intros q Hq. apply in_app_iff in Hq as [Hin|[<-|[]]]; cbn.
    + apply in_kept in Hin as [Hin _]. apply Hrange in Hin. lia.
    + lia.
Qed.

Lemma record_answer_questions (db : Database) q u ok rt now later :
  questions (fst (record_answer db q u ok rt now later)) = questions db /\
  questions_seq (fst (record_answer db q u ok rt now later)) = questions_seq db.
Proof.
  unfold record_answer, _update_srs_stats. cbn [srs_stats].
  destruct (srs_stats db !! q) as [st|]; [|now cbn].
  destruct (srs_transition st ok now later); now cbn.
Qed.

Lemma apply_well_keyed (db : Database) (e : Spec.event) :
  Props.well_keyed db -> Props.well_keyed (Spec.apply db e).
Proof.
  destruct e as [f i t a ty o c now|q u ok rt now later]; cbn [Spec.apply].
  - apply add_question_well_keyed.
  - unfold Props.well_keyed.
    destruct (record_answer_questions db q u ok rt now later) as [-> ->]. auto.
Qed.

Lemma fold_invariant (P : Database -> Prop) :
  P empty_db -> (forall db e, P db -> P (Spec.apply db e)) ->
  forall events, P (Spec.after events).
Proof.
  intros H0 Hstep events. unfold Spec.after. generalize empty_db H0.
  induction events as [|e events IH]; intros db Hdb; [exact Hdb|].
  cbn. apply IH. now apply Hstep.
Qed.

(** X1.  In every store reached from a new database by registrations and
    answers, the ids of the questions are pairwise distinct and lie between
    1 and the counter, and no two questions share their (quiz file,
    question id) pair. *)
Theorem store_keys_are_unique (events : list Spec.event) :
  Props.well_keyed (Spec.after events).
Proof.
  apply fold_invariant; [|apply apply_well_keyed].
  unfold Props.well_keyed. cbn. repeat split; try apply NoDup_nil_2; lia.
Qed.

Lemma add_question_all_have_state (db : Database) now f i t a ty o c :
  Props.all_have_state db ->
  Props.all_have_state (fst (add_question db now f i t a ty o c)).
Proof.
  intros Hdb q Hq. cbn in *. apply in_app_iff in Hq as [Hin|[<-|[]]]; cbn.
  - apply in_kept in Hin as [Hin _]. apply Hdb in Hin.
    destruct (srs_stats db !! (questions_seq db + 1)); [exact Hin|].
    rewrite lookup_insert. case_decide; [eauto|exact Hin].
  - destruct (srs_stats db !! (questions_seq db + 1)) eqn:E; [now rewrite E|].
    now rewrite lookup_insert_eq.
Qed.

Lemma record_answer_srs (db : Database) q u ok rt now later (k : Z) :
  srs_stats (fst (record_answer db q u ok rt now later)) !! k = srs_stats db !! k \/
  (k = q /\ exists st st', srs_stats db !! q = Some st /\
                           srs_transition st ok now later = Ok st' /\
                           srs_stats (fst (record_answer db q u ok rt now later)) !! k = Some st').
Proof.
  unfold record_answer, _update_srs_stats. cbn [srs_stats].
  destruct (srs_stats db !! q) as [st|] eqn:E; [|now left].
  destruct (srs_transition st ok now later) as [st'|e] eqn:T; cbn; [|now left].
  rewrite lookup_insert. case_decide; [|now left].
  right. split; [congruence|]. eauto.
Qed.

Lemma apply_all_have_state (db : Database) (e : Spec.event) :
  Props.all_have_state db -> Props.all_have_state (Spec.apply db e).
Proof.
  destruct e as [f i t a ty o c now|q u ok rt now later]; cbn [Spec.apply].
  - apply add_question_all_have_state.
  - intros Hdb x Hx.
    destruct (record_answer_questions db q u ok rt now later) as [Eq _].
    rewrite Eq in Hx. apply Hdb in Hx.
    destruct (record_answer_srs db q u ok rt now later (q_id x)) as [->|(_ & st & st' & _ & _ & ->)];
      [exact Hx|eauto].
Qed.

(** X2.  In every store reached from a new database, each question of
    table [questions] has a row in [srs_stats]: no question is without a
    review state. *)
Theorem every_question_has_review_state (events : list Spec.event) :
  Props.all_have_state (Spec.after events).
Proof.
  apply fold_invariant; [intros q []|apply apply_all_have_state].
Qed.

(** ** Registration and lookup *)

Lemma find_kept_none (f i : string) (l : list question_row) :
  List.find (same_identity f i)
            (List.filter (fun q => negb (same_identity f i q)) l) = None.
Proof.
  induction l as [|q l IH]; [reflexivity|]. cbn.
  destruct (same_identity f i q) eqn:E; cbn; [exact IH|]. now rewrite E.
Qed.

Lemma find_app {A} (p : A -> bool) (l k : list A) :
  List.find p (l ++ k) = match List.find p l with
                         | Some x => Some x
                         | None => List.find p k
                         end.
Proof.
  induction l as [|x l IH]; [reflexivity|]. cbn. now destruct (p x).
Qed.

Lemma find_kept_other (f i f' i' : string) (l : list question_row) :
  (f', i') <> (f, i) ->
  List.find (same_identity f' i')
            (List.filter (fun q => negb (same_identity f i q)) l)
  = List.find (same_identity f' i') l.
Proof.
  intros Hne. induction l as [|q l IH]; [reflexivity|]. cbn.
  destruct (same_identity f i q) eqn:E; cbn.
  - destruct (same_identity f' i' q) eqn:E'; [|exact IH].
    apply same_identity_iff in E, E'. congruence.
  - now rewrite IH.
Qed.

(** X3.  Whatever the store holds, the id that [add_question] returns is
    the id that [get_question_db_id] finds afterwards for the same quiz
    file and question id. *)
Theorem registered_question_is_found (db : Database) (now : timestamp)
    (f i t a ty : string) (o c : option (list string)) :
  get_question_db_id (fst (add_question db now f i t a ty o c)) f i
  = Some (snd (add_question db now f i t a ty o c)).
Proof.
  unfold get_question_db_id. cbn. rewrite find_app, find_kept_none. cbn.
  unfold same_identity. cbn. now rewrite !String.eqb_refl.
Qed.

(** X4.  A registration touches nothing but the row of its own identity:
    every other (quiz file, question id) pair is found under the id it
    had, no recorded answer changes, and every review state that was in
    the store is still there, unchanged. *)
Theorem registration_leaves_the_rest (db : Database) (now : timestamp)
    (f i t a ty : string) (o c : option (list string)) :
  let db' := fst (add_question db now f i t a ty o c) in
  (forall f' i', (f', i') <> (f, i) ->
                 get_question_db_id db' f' i' = get_question_db_id db f' i') /\
  user_answers db' = user_answers db /\
  (forall k st, srs_stats db !! k = Some st -> srs_stats db' !! k = Some st).
Proof.
  cbn. split; [|split; [reflexivity|]].
  - intros f' i' Hne. unfold get_question_db_id. cbn.
    rewrite find_app, (find_kept_other f i f' i' _ Hne).
    destruct (List.find _ (questions db)); [reflexivity|]. cbn.
    destruct (same_identity f' i' _) eqn:E; [|reflexivity].
    apply same_identity_iff in E. unfold Props.identity in E. cbn in E.
    now destruct Hne.
  - intros k st Hk.
    destruct (srs_stats db !! (questions_seq db + 1)) eqn:E; [exact Hk|].
    rewrite lookup_insert. case_decide as Hd; [|exact Hk].
    rewrite <- Hd in Hk. congruence.
Qed.

(** ** Recording an answer *)

Lemma record_answer_user_answers (db : Database) (q : Z) (u : string) (ok : bool)
    (rt : option float) (now later : timestamp) :
  user_answers (fst (record_answer db q u ok rt now later)) =
    user_answers db ++ [{| a_question_id := q; a_user_answer := u;
                           a_is_correct := ok; a_timestamp := now;
                           a_response_time := rt |}].
Proof.
  unfold record_answer, _update_srs_stats. cbn [srs_stats].
  destruct (srs_stats db !! q) as [st|]; [|reflexivity].
  now destruct (srs_transition st ok now later).
Qed.

(** X5.  [record_answer] adds exactly one row to [user_answers], holding
    the question id, the submitted text, the verdict and the latency it was
    given, also when the update of the review state raises; it leaves the
    questions and the review states of all other questions as they were. *)
Theorem record_answer_frame (db : Database) (q : Z) (u : string) (ok : bool)
    (rt : option float) (now later : timestamp) :
  let db' := fst (record_answer db q u ok rt now later) in
  user_answers db' =
    user_answers db ++ [{| a_question_id := q; a_user_answer := u;
                           a_is_correct := ok; a_timestamp := now;
                           a_response_time := rt |}] /\
  questions db' = questions db /\
  (forall k, k <> q -> srs_stats db' !! k = srs_stats db !! k).
Proof.
  cbn. split; [|split].
  - apply record_answer_user_answers.
  - apply record_answer_questions.
  - intros k Hk.
    destruct (record_answer_srs db q u ok rt now later k) as [H|[H _]]; [exact H|congruence].
Qed.

(** X6.  An answer for an id that has no review state (an id that was
    never handed out) is recorded all the same: no error is raised and no
    review state is created or changed. *)
Theorem answer_for_unknown_question (db : Database) (q : Z) (u : string)
    (ok : bool) (rt : option float) (now later : timestamp) :
  srs_stats db !! q = None ->
  snd (record_answer db q u ok rt now later) = Ok tt /\
  srs_stats (fst (record_answer db q u ok rt now later)) = srs_stats db /\
  length (user_answers (fst (record_answer db q u ok rt now later)))
  = S (length (user_answers db)).
Proof.
  intros H. unfold record_answer, _update_srs_stats. cbn [srs_stats]. rewrite H. cbn.
  repeat split. rewrite length_app. cbn. lia.
Qed.

Lemma answer_for_unknown_question_witness :
  snd (record_answer Sample.studied 7 "import" true None 4000 4001) = Ok tt /\
  srs_stats (fst (record_answer Sample.studied 7 "import" true None 4000 4001))
  = srs_stats Sample.studied /\
  length (user_answers (fst (record_answer Sample.studied 7 "import" true None 4000 4001)))
  = 3%nat.
Proof.
  apply (answer_for_unknown_question Sample.studied 7 "import" true None 4000 4001).
  vm_compute. reflexivity.
Defined.

(** ** The review states the code produces *)

Lemma fle_13_fle_0 (f : float) : fle 1.3 f -> fle 0 f.
Proof.
  unfold fle. rewrite !leb_spec. change (Prim2SF 0) with (S754_zero false).
  destruct (Prim2SF 1.3) as [s|s| |s m e] eqn:E; vm_compute in E; try discriminate.
  injection E as <- _ _.
  destruct (Prim2SF f) as [s'|s'| |s' m' e']; try reflexivity; try discriminate.
  - destruct s'; [discriminate|reflexivity].
  - destruct s'; [discriminate|reflexivity].
Qed.

Lemma int_of_float_nonneg (p : float) (z : Z) :
  nonneg_sf (Prim2SF p) = true -> int_of_float p = Ok z -> 0 <= z.
Proof.
  unfold int_of_float. destruct (Prim2SF p) as [s|s| |s m e]; cbn [nonneg_sf];
    intros Hn [= <-]; [lia|].
  destruct s; [discriminate|]. cbn [cond_Zopp]. unfold magnitude_trunc.
  destruct (0 <=? e) eqn:He.
  - apply Z.leb_le in He. apply Z.mul_nonneg_nonneg; [lia|]. now apply Z.pow_nonneg.
  - apply Z.div_pos; [lia|]. apply Z.pow_pos_nonneg; [lia|]. apply Z.leb_gt in He. lia.
Qed.

Lemma correct_interval_nonneg (st : srs_row) (i : Z) :
  0 <= interval_days st -> fle 1.3 (ease_factor st) ->
  correct_interval st = Ok i -> 0 <= i.
Proof.
  intros Hi He. unfold correct_interval.
  destruct (repetitions st =? 0); [intros [= <-]; lia|].
  destruct (repetitions st =? 1); [intros [= <-]; lia|].
  unfold mul_int_float, float_of_int.
  destruct (is_infinity (float_of_Z (interval_days st))); [discriminate|]. cbn.
  apply int_of_float_nonneg. rewrite mul_spec. apply SFmul_nonneg.
  - now apply float_of_Z_nonneg.
  - now apply fle_zero_nonneg, fle_13_fle_0.
Qed.

Lemma transition_sound (st st' : srs_row) (ok : bool) (now later : timestamp) :
  Props.sound_state st -> srs_transition st ok now later = Ok st' ->
  Props.sound_state st'.
Proof.
  intros (He & (Hr & Hi & Hn) & Hd) Ht.
  split; [now apply (transition_ease_bounded st st' ok now later)|].
  apply transition_inv in Ht as (i & r & e & Ht & Habs & _ & ->).
  split; [|exact Hd]. unfold Props.well_scheduled. cbn. destruct ok.
  - destruct (correct_interval st) as [i0|] eqn:Ei; cbn in Ht; [|discriminate].
    injection Ht as <- <- _.
    pose proof (correct_interval_nonneg st i0 (proj1 Hi) He Ei).
    split; [lia|]. split; [lia|]. eauto.
  - injection Ht as <- <- _. split; [lia|]. split; [lia|]. eauto.
Qed.

Lemma apply_all_sound (db : Database) (e : Spec.event) :
  Props.all_sound db -> Props.all_sound (Spec.apply db e).
Proof.
  intros Hdb k st. destruct e as [f i t a ty o c now|q u ok rt now later]; cbn [Spec.apply].
  - cbn. destruct (srs_stats db !! (questions_seq db + 1)); [apply Hdb|].
    rewrite lookup_insert. case_decide; [|apply Hdb].
    intros [= <-]. split; [vm_compute; reflexivity|].
    split; [|reflexivity]. unfold Props.well_scheduled. cbn.
    split; [lia|]. split; [lia|]. eauto.
  - destruct (record_answer_srs db q u ok rt now later k)
      as [->|(_ & st0 & st1 & H0 & Ht & ->)]; [apply Hdb|].
    intros [= <-]. exact (transition_sound st0 st1 ok now later (Hdb q st0 H0) Ht).
Qed.

Lemma history_all_sound (events : list Spec.event) : Props.all_sound (Spec.after events).
Proof.
  apply fold_invariant; [|apply apply_all_sound].
  intros k st H. cbn in H. now rewrite lookup_empty in H.
Qed.

(** X7.  The difficulty of a review state is never changed: in every store
    reached from a new database it has its default 2.5, so that a correct
    answer always adds the same constant to the ease factor (before the
    floor 1.3 is applied). *)
Theorem difficulty_stays_default (events : list Spec.event) (k : Z) (st : srs_row) :
  srs_stats (Spec.after events) !! k = Some st ->
  difficulty st = 2.5%float /\
  correct_ease st = PyNum.max 1.3 (ease_factor st + Props.ease_bonus)%float.
Proof.
  intros H. destruct (history_all_sound events k st H) as (_ & _ & Hd).
  split; [exact Hd|]. unfold correct_ease. now rewrite Hd.
Qed.

Lemma difficulty_stays_default_witness :
  (difficulty <$> srs_stats Sample.studied !! 1) = Some 2.5%float /\
  (correct_ease <$> srs_stats Sample.studied !! 1)
  = (fun st => PyNum.max 1.3 (ease_factor st + Props.ease_bonus)%float)
      <$> srs_stats Sample.studied !! 1.
Proof.
  destruct (srs_stats Sample.studied !! 1) as [st|] eqn:E; [|vm_compute in E; discriminate].
  destruct (difficulty_stays_default
              [Spec.Register Sample.quiz "py_2" "Which keyword imports a module?"
                             "import" "text" None None 0;
               Spec.AnswerEvent 1 "import" true None 1000 1000;
               Spec.AnswerEvent 1 "import" true None 2000 2000] 1 st E) as [Hd He].
  cbn. now rewrite Hd, He.
Defined.

Lemma fold_invariant_on (V : Spec.event -> Prop) (P : Database -> Prop) :
  P empty_db -> (forall db e, V e -> P db -> P (Spec.apply db e)) ->
  forall events, Forall V events -> P (Spec.after events).
Proof.
  intros H0 Hstep events. unfold Spec.after. generalize empty_db H0.
  induction events as [|e events IH]; intros db Hdb Hv; [exact Hdb|].
  apply Forall_cons in Hv as [He Hv]. cbn. apply IH; [|exact Hv]. now apply Hstep.
Qed.

Lemma apply_within_calendar (db : Database) (e : Spec.event) :
  Props.on_calendar e -> Props.all_within_calendar db ->
  Props.all_within_calendar (Spec.apply db e).
Proof.
  intros He Hdb k st. destruct e as [f i t a ty o c now|q u ok rt now later];
    cbn [Spec.apply Props.on_calendar] in *.
  - cbn. destruct (srs_stats db !! (questions_seq db + 1)); [apply Hdb|].
    rewrite lookup_insert. case_decide; [|apply Hdb].
    intros [= <-]. split; [cbn; lia|]. exists now. now split.
  - destruct (record_answer_srs db q u ok rt now later k)
      as [->|(_ & st0 & st1 & H0 & Ht & ->)]; [apply Hdb|].
    intros [= <-].
    apply transition_inv in Ht as (i & r & e & _ & _ & Hnext & ->).
    split; [|eexists; split; [reflexivity|exact Hnext]].
    cbn. destruct He as [Hnow _].
    unfold is_datetime, datetime_limit, timedelta_days in *. lia.
Qed.

(** X8.  In every store reached from a new database, the repetitions and
    the interval of a review state are not negative, the interval is at
    most 999999999 days, and the next review is set.  When moreover every
    clock reading of the history was a date of the calendar, the next
    review is a date of the calendar too, and the interval is shorter
    than the 3652059 days of the calendar. *)
Theorem review_states_are_well_scheduled (events : list Spec.event) (k : Z)
    (st : srs_row) :
  srs_stats (Spec.after events) !! k = Some st ->
  0 <= repetitions st /\ 0 <= interval_days st <= 999999999 /\
  (exists t, next_review st = Some t) /\
  (Forall Props.on_calendar events ->
   interval_days st < 3652059 /\
   exists t, next_review st = Some t /\ is_datetime t).
Proof.
  intros H. destruct (history_all_sound events k st H) as (_ & (Hr & Hi & Hn) & _).
  split; [exact Hr|]. split; [exact Hi|]. split; [exact Hn|].
  intros Hv. clear Hr Hi Hn. revert k st H.
  apply (fold_invariant_on Props.on_calendar Props.all_within_calendar);
    [|apply apply_within_calendar|exact Hv].
  intros k st H. cbn in H. now rewrite lookup_empty in H.
Qed.

Lemma review_states_are_well_scheduled_witness :
  let st := default (default_srs 0) (srs_stats Sample.studied !! 1) in
  0 <= repetitions st /\ interval_days st < 3652059 /\
  exists t, next_review st = Some t /\ is_datetime t.
Proof.
  destruct (review_states_are_well_scheduled
              [Spec.Register Sample.quiz "py_2" "Which keyword imports a module?"
                             "import" "text" None None 0;
               Spec.AnswerEvent 1 "import" true None 1000 1000;
               Spec.AnswerEvent 1 "import" true None 2000 2000] 1
              (default (default_srs 0) (srs_stats Sample.studied !! 1)))
    as (Hr & _ & _ & Hc).
  - vm_compute. reflexivity.
  - split; [exact Hr|]. apply Hc.
    repeat constructor; vm_compute; try discriminate; reflexivity.
Defined.

(** ** When recording an answer raises *)

Lemma not_finite_special (f : float) :
  is_finite f = false ->
  Prim2SF f = S754_nan \/ exists s, Prim2SF f = S754_infinity s.
Proof.
  unfold is_finite. intros H. apply negb_false_iff, orb_true_iff in H as [H|H].
  - left. unfold Prim2SF. now rewrite H.
  - right. now apply is_infinity_spec.
Qed.

Lemma int_of_float_succeeds (f : float) :
  (exists z, int_of_float f = Ok z) <-> is_finite f = true.
Proof.
  split.
  - intros [z Hz]. destruct (is_finite f) eqn:E; [reflexivity|].
    unfold int_of_float in Hz.
    destruct (not_finite_special f E) as [H|[s H]]; rewrite H in Hz; discriminate.
  - intros H. destruct (finite_not_special f H) as [Hnan Hinf].
    unfold int_of_float. destruct (Prim2SF f) as [s|s| |s m e]; eauto.
    + now destruct (Hinf s).
    + now destruct Hnan.
Qed.

Lemma infinite_product (x y : float) :
  is_infinity x = true -> is_finite (x * y) = false.
Proof.
  intros H. destruct (is_finite (x * y)) eqn:E; [|reflexivity].
  apply finite_product_left in E. congruence.
Qed.

Lemma correct_interval_succeeds (st : srs_row) :
  (exists i, correct_interval st = Ok i) <->
  repetitions st = 0 \/ repetitions st = 1 \/
  is_finite (Spec.interval_times_ease st) = true.
Proof.
  unfold correct_interval, Spec.interval_times_ease.
  destruct (repetitions st =? 0) eqn:E0.
  { apply Z.eqb_eq in E0. split; eauto. }
  destruct (repetitions st =? 1) eqn:E1.
  { apply Z.eqb_eq in E1. split; eauto. }
  apply Z.eqb_neq in E0, E1. unfold mul_int_float, float_of_int.
  destruct (is_infinity (float_of_Z (interval_days st))) eqn:Ei; cbn.
  - rewrite (infinite_product _ (ease_factor st) Ei). split.
    + intros [i Hi]. discriminate.
    + intros [H|[H|H]]; [lia|lia|discriminate].
  - rewrite int_of_float_succeeds. split; [auto|]. intros [H|[H|H]]; [lia|lia|exact H].
Qed.

Lemma transition_succeeds (st : srs_row) (ok : bool) (now later : timestamp) :
  (exists st', srs_transition st ok now later = Ok st') <->
  exists i, Props.new_interval st ok = Ok i /\ Z.abs i <= 999999999 /\
            is_datetime (now + timedelta_days i).
Proof.
  unfold Props.new_interval. split.
  - intros [st' H]. apply transition_inv in H as (i & r & e & H & Habs & Hnext & _).
    exists i. split; [|now split]. destruct ok; [|now injection H as <- _ _].
    destruct (correct_interval st); cbn in H; [|discriminate]. now injection H as <- _ _.
  - intros (i & H & Habs & Hnext). destruct ok.
    + eexists. apply (correct_transition st now later i H Habs Hnext).
    + injection H as <-. eexists.
      apply (transition_on_calendar st false now later 1 0 _ eq_refl Habs Hnext).
Qed.

(** X9.  For a question that has a review state, [record_answer] raises
    in two cases only.  Either the new interval cannot be computed: the
    answer is correct, the repetitions are neither 0 nor 1, and the
    product of interval and ease factor is not a finite number.  Or the
    next review cannot be dated: the new interval is more than 999999999
    days, or it leads from the clock reading to a date outside the
    calendar.  When it raises, the review states are left as they were. *)
Theorem record_answer_raises_only_on_overflow (db : Database) (q : Z) (st : srs_row)
    (u : string) (ok : bool) (rt : option float) (now later : timestamp) :
  srs_stats db !! q = Some st ->
  ((exists i, Props.new_interval st ok = Ok i) <->
   ok = false \/ repetitions st = 0 \/ repetitions st = 1 \/
   is_finite (Spec.interval_times_ease st) = true) /\
  (snd (record_answer db q u ok rt now later) = Ok tt <->
   exists i, Props.new_interval st ok = Ok i /\ Z.abs i <= 999999999 /\
             is_datetime (now + timedelta_days i)) /\
  (snd (record_answer db q u ok rt now later) <> Ok tt ->
   srs_stats (fst (record_answer db q u ok rt now later)) = srs_stats db).
Proof.
  intros Hq. split; [|split].
  - unfold Props.new_interval. destruct ok.
    + rewrite correct_interval_succeeds. split; [auto|].
      intros [H|H]; [discriminate|exact H].
    + split; eauto.
  - rewrite <- (transition_succeeds st ok now later).
    unfold record_answer, _update_srs_stats. cbn [srs_stats]. rewrite Hq.
    destruct (srs_transition st ok now later) as [st'|e]; cbn.
    + split; eauto.
    + split; [discriminate|]. intros [st' H]. discriminate.
  - unfold record_answer, _update_srs_stats. cbn [srs_stats]. rewrite Hq.
    destruct (srs_transition st ok now later) as [st'|e]; cbn; [congruence|reflexivity].
Qed.

Lemma record_answer_raises_only_on_overflow_witness :
  snd (record_answer Sample.seasoned_db 1 "import" true None 5000 5001) = Ok tt.
Proof.
  apply (record_answer_raises_only_on_overflow Sample.seasoned_db 1 Sample.seasoned
           "import" true None 5000 5001).
  - vm_compute. reflexivity.
  - exists 15. vm_compute. repeat split; discriminate.
Defined.

(** ** Due dates *)

(** X10.  After an answer has been recorded for a question with a review
    state, that state holds the second reading of the clock as the last
    review and, as the next review, the date [interval] days after the
    first reading, which is a date of the calendar; the due test of
    [get_questions_for_review] fails for the question at every moment
    before that date and holds from that date on. *)
Theorem answered_question_is_due_after_its_interval (db db' : Database) (q : Z)
    (st : srs_row) (u : string) (ok : bool) (rt : option float) (now later : timestamp) :
  srs_stats db !! q = Some st ->
  record_answer db q u ok rt now later = (db', Ok tt) ->
  exists st',
    srs_stats db' !! q = Some st' /\
    last_review st' = Some later /\
    next_review st' = Some (now + timedelta_days (interval_days st')) /\
    is_datetime (now + timedelta_days (interval_days st')) /\
    forall (row : question_row) (t : timestamp),
      q_id row = q ->
      is_due t (join_srs db' row) = (now + timedelta_days (interval_days st') <=? t).
Proof.
  intros Hq. unfold record_answer, _update_srs_stats. cbn [srs_stats]. rewrite Hq.
  destruct (srs_transition st ok now later) as [st'|e] eqn:T; cbn; [|discriminate].
  intros [= <-]. exists st'. cbn. rewrite lookup_insert_eq.
  apply transition_inv in T as (i & r & e & _ & _ & Hnext & ->). cbn.
  split; [reflexivity|]. split; [reflexivity|]. split; [reflexivity|].
  split; [exact Hnext|].
  intros row t <-. unfold is_due, join_srs. cbn. now rewrite lookup_insert_eq.
Qed.

Lemma answered_question_is_due_after_its_interval_witness :
  exists st',
    srs_stats (fst (record_answer Sample.seasoned_db 1 "export" false None 5000 5007)) !! 1
    = Some st' /\
    last_review st' = Some 5007 /\
    next_review st' = Some (5000 + timedelta_days (interval_days st')) /\
    is_datetime (5000 + timedelta_days (interval_days st')) /\
    forall (row : question_row) (t : timestamp),
      q_id row = 1 ->
      is_due t (join_srs (fst (record_answer Sample.seasoned_db 1 "export" false None
                                             5000 5007)) row)
      = (5000 + timedelta_days (interval_days st') <=? t).
Proof.
  apply (answered_question_is_due_after_its_interval Sample.seasoned_db _ 1
           Sample.seasoned "export" false None 5000 5007).
  - vm_compute. reflexivity.
  - vm_compute. reflexivity.
Defined.

(** ** The due query *)

Lemma insert_sorted_perm (x : review_row) (l : list review_row) :
  Permutation (insert_sorted x l) (x :: l).
Proof.
  induction l as [|y l IH]; cbn; [reflexivity|].
  destruct (sorts_before y x); [|reflexivity].
  rewrite IH. apply perm_swap.
Qed.

Lemma order_by_perm (l : list review_row) : Permutation (order_by l) l.
Proof.
  induction l as [|x l IH]; cbn; [reflexivity|].
  fold (order_by l). rewrite insert_sorted_perm. now constructor.
Qed.

Lemma not_after_refl (a : option timestamp) : Due.not_after a a.
Proof. destruct a; cbn; [lia|exact I]. Qed.

Lemma not_after_trans (a b c : option timestamp) :
  Due.not_after a b -> Due.not_after b c -> Due.not_after a c.
Proof. destruct a, b, c; cbn; try tauto; lia. Qed.

Lemma sorts_before_not_after (a b : review_row) :
  sorts_before a b = true -> Due.by_next_review a b.
Proof.
  unfold sorts_before, Due.by_next_review, Due.not_after.
  destruct (r_next_review a), (r_next_review b); try discriminate; try (intros; exact I).
  intros H. apply orb_true_iff in H as [H|H].
  - apply Z.ltb_lt in H. lia.
  - apply andb_true_iff in H as [H _]. apply Z.eqb_eq in H. lia.
Qed.

Lemma not_sorts_before_not_after (a b : review_row) :
  sorts_before a b = false -> Due.by_next_review b a.
Proof.
  unfold sorts_before, Due.by_next_review, Due.not_after.
  destruct (r_next_review a), (r_next_review b); try discriminate; try (intros; exact I).
  intros H. apply orb_false_iff in H as [H _]. apply Z.ltb_ge in H. lia.
Qed.

Lemma insert_sorted_sorted (x : review_row) (l : list review_row) :
  StronglySorted Due.by_next_review l ->
  StronglySorted Due.by_next_review (insert_sorted x l).
Proof.
  induction l as [|y l IH]; cbn; intros Hs.
  - repeat constructor.
  - apply StronglySorted_inv in Hs as [Hl Hy].
    destruct (sorts_before y x) eqn:E.
    + constructor; [auto|].
      apply List.Forall_forall. intros z Hz.
      apply (Permutation_in _ (insert_sorted_perm x l)) in Hz as [<-|Hz].
      * now apply sorts_before_not_after.
      * rewrite List.Forall_forall in Hy. now apply Hy.
    + pose proof (not_sorts_before_not_after y x E) as Hxy.
      constructor; [now constructor|].
      constructor; [exact Hxy|].
      rewrite List.Forall_forall in *. intros z Hz.
      exact (not_after_trans _ _ _ Hxy (Hy z Hz)).
Qed.

Lemma order_by_sorted (l : list review_row) :
  StronglySorted Due.by_next_review (order_by l).
Proof.
  induction l as [|x l IH]; cbn; [constructor|]. now apply insert_sorted_sorted.
Qed.

Lemma StronglySorted_take {A} (R : A -> A -> Prop) (n : nat) (l : list A) :
  StronglySorted R l -> StronglySorted R (take n l).
Proof.
  revert n. induction l as [|x l IH]; intros [|n] Hs; cbn; try constructor.
  - apply IH. now apply StronglySorted_inv in Hs.
  - apply StronglySorted_inv in Hs as [_ Hx].
    rewrite List.Forall_forall in *. intros y Hy. apply Hx.
    apply list_elem_of_In. apply list_elem_of_In in Hy.
    eapply subseteq_take; eauto.
Qed.

Lemma in_sql_limit {A} (n : Z) (l : list A) (x : A) :
  In x (sql_limit n l) -> In x l.
Proof.
  unfold sql_limit. destruct (n <? 0); [auto|].
  intros H. apply list_elem_of_In. apply list_elem_of_In in H.
  eapply subseteq_take; eauto.
Qed.

Lemma in_selected (db : Database) (quiz_file : option string) (now : timestamp)
    (r : review_row) :
  In r (Due.selected db quiz_file now) <->
  (exists q, In q (questions db) /\ r = join_srs db q) /\
  is_due now r = true /\ in_quiz quiz_file r = true.
Proof.
  unfold Due.selected. rewrite filter_In, in_map_iff, andb_true_iff.
  split; intros [(q & H1 & H2) H]; (split; [exists q|exact H]); auto.
Qed.

(** X11.  Every row that [get_questions_for_review] returns belongs to a
    registered question, is due (its next review is not set or not after
    now) and, when a quiz file is given, belongs to that quiz; the rows
    come in the order of their next review, unset ones first; a limit
    that is not negative bounds their number. *)
Theorem due_query_is_sound (db : Database) (quiz_file : option string) (limit : Z)
    (now : timestamp) :
  let rows := get_questions_for_review db quiz_file limit now in
  (forall r, In r rows ->
     (exists q, In q (questions db) /\ r = join_srs db q) /\
     is_due now r = true /\ in_quiz quiz_file r = true) /\
  StronglySorted Due.by_next_review rows /\
  (0 <= limit -> Z.of_nat (length rows) <= limit).
Proof.
  cbn. unfold get_questions_for_review. fold (Due.selected db quiz_file now).
  split; [|split].
  - intros r Hr. apply in_sql_limit in Hr.
    apply (Permutation_in _ (order_by_perm _)) in Hr. now apply in_selected.
  - unfold sql_limit. destruct (limit <? 0); [apply order_by_sorted|].
    apply StronglySorted_take, order_by_sorted.
  - intros Hl. unfold sql_limit. destruct (limit <? 0) eqn:E; [apply Z.ltb_lt in E; lia|].
    rewrite length_take. lia.
Qed.

(** X12.  When the limit is negative or at least the number of registered
    questions, [get_questions_for_review] returns every due question of
    the quiz, each once: its result is a rearrangement of the rows the
    [WHERE] clause selects. *)
Theorem due_query_is_complete (db : Database) (quiz_file : option string)
    (limit : Z) (now : timestamp) :
  limit < 0 \/ Z.of_nat (length (questions db)) <= limit ->
  Permutation (get_questions_for_review db quiz_file limit now)
              (Due.selected db quiz_file now).
Proof.
  intros Hl. unfold get_questions_for_review. fold (Due.selected db quiz_file now).
  unfold sql_limit. destruct (limit <? 0) eqn:E; [apply order_by_perm|].
  apply Z.ltb_ge in E. destruct Hl as [Hl|Hl]; [lia|].
  rewrite take_ge; [apply order_by_perm|].
  rewrite (Permutation_length (order_by_perm _)). unfold Due.selected.
  pose proof (filter_length_le (fun r => is_due now r && in_quiz quiz_file r)
                (map (join_srs db) (questions db))) as H.
  rewrite length_map in H. lia.
Qed.

Lemma due_query_is_complete_witness :
  Permutation (get_questions_for_review Sample.three_due None 20 101)
              (Due.selected Sample.three_due None 101).
Proof.
  apply (due_query_is_complete Sample.three_due None 20 101).
  right. cbn. lia.
Defined.

(** ** The next question *)

Lemma review_mode_head (m : Manager.QuizManager) (now : timestamp) (pick : nat) :
  Manager.get_next_question m "review" now pick =
  Manager.to_question_data
    <$> head (order_by (Due.selected (Manager.db m) (Manager.current_quiz_file m) now)).
Proof.
  unfold Manager.get_next_question, get_questions_for_review. cbn.
  fold (Due.selected (Manager.db m) (Manager.current_quiz_file m) now).
  now destruct (order_by _) as [|r [|r' l]].
Qed.

(** X13.  In review mode [get_next_question] returns a due question of the
    current quiz whose next review is the earliest: no due question of the
    quiz has an earlier one.  It returns nothing only when no question of
    the quiz is due. *)
Theorem review_mode_returns_the_earliest_due (m : Manager.QuizManager)
    (now : timestamp) (pick : nat) :
  match Manager.get_next_question m "review" now pick with
  | Some d =>
      exists r, In r (Due.selected (Manager.db m) (Manager.current_quiz_file m) now) /\
                d = Manager.to_question_data r /\
                forall r', In r' (Due.selected (Manager.db m)
                                               (Manager.current_quiz_file m) now) ->
                           Due.by_next_review r r'
  | None => Due.selected (Manager.db m) (Manager.current_quiz_file m) now = []
  end.
Proof.
  rewrite review_mode_head.
  set (sel := Due.selected (Manager.db m) (Manager.current_quiz_file m) now).
  pose proof (order_by_perm sel) as Hp. pose proof (order_by_sorted sel) as Hs.
  destruct (order_by sel) as [|r l]; cbn.
  - now apply Permutation_nil.
  - exists r. split; [apply (Permutation_in _ Hp); now left|]. split; [reflexivity|].
    intros r' Hr'. apply (Permutation_in _ (Permutation_sym Hp)) in Hr' as [<-|Hr'].
    + apply not_after_refl.
    + apply StronglySorted_inv in Hs as [_ Hs]. rewrite List.Forall_forall in Hs. auto.
Qed.

Lemma nth_in_or_default {A} (n : nat) (l : list A) (d : A) :
  In d l -> In (List.nth n l d) l.
Proof.
  intros Hd. destruct (Nat.lt_ge_cases n (length l)) as [H|H].
  - now apply nth_In.
  - now rewrite nth_overflow.
Qed.

Lemma random_mode_eq (m : Manager.QuizManager) (now : timestamp) (pick : nat) :
  Manager.get_next_question m "random" now pick =
  match get_questions_for_review (Manager.db m) (Manager.current_quiz_file m) 100 now with
  | [] => None
  | first :: rest =>
      Some (Manager.to_question_data
              (Manager.random_choice pick (first :: rest) first))
  end.
Proof.
  unfold Manager.get_next_question.
  change (String.eqb "random" "review") with false.
  change (String.eqb "random" "random") with true. cbv iota.
  now destruct (get_questions_for_review (Manager.db m) (Manager.current_quiz_file m)
                                         100 now).
Qed.

Lemma limited_nil {A} (n : Z) (l : list A) :
  0 < n -> sql_limit n l = [] <-> l = [].
Proof.
  intros Hn. unfold sql_limit. destruct (n <? 0) eqn:E; [apply Z.ltb_lt in E; lia|].
  destruct l as [|x l]; [now rewrite take_nil|].
  destruct (Z.to_nat n) eqn:En; [lia|]. cbn. split; discriminate.
Qed.

(** X14.  In random mode [get_next_question] returns, whatever the draw,
    one of the (at most 100) due questions that the query returns for the
    current quiz; review mode, random mode and [has_questions_for_review]
    agree on whether there is a question at all; any other mode gives
    none. *)
Theorem random_mode_draws_a_due_question (m : Manager.QuizManager)
    (now : timestamp) (pick : nat) :
  (forall d, Manager.get_next_question m "random" now pick = Some d ->
     exists r, In r (get_questions_for_review (Manager.db m)
                       (Manager.current_quiz_file m) 100 now) /\
               d = Manager.to_question_data r) /\
  (Session.has_questions_for_review m now = true <->
   is_Some (Manager.get_next_question m "review" now pick)) /\
  (is_Some (Manager.get_next_question m "random" now pick) <->
   is_Some (Manager.get_next_question m "review" now pick)) /\
  (forall mode, mode <> "review"%string -> mode <> "random"%string ->
                Manager.get_next_question m mode now pick = None).
Proof.
  split; [|split; [|split]].
  - rewrite random_mode_eq.
    destruct (get_questions_for_review (Manager.db m) (Manager.current_quiz_file m)
                                       100 now) as [|r l]; [discriminate|].
    intros d [= <-]. eexists. split; [|reflexivity].
    apply nth_in_or_default. now left.
  - rewrite review_mode_head. unfold Session.has_questions_for_review,
      get_questions_for_review.
    fold (Due.selected (Manager.db m) (Manager.current_quiz_file m) now).
    destruct (order_by _) as [|r l]; cbn.
    + split; [discriminate|]. intros [x Hx]. discriminate.
    + split; [eauto|reflexivity].
  - rewrite review_mode_head, random_mode_eq. unfold get_questions_for_review.
    fold (Due.selected (Manager.db m) (Manager.current_quiz_file m) now).
    pose proof (limited_nil 100 (order_by (Due.selected (Manager.db m)
                  (Manager.current_quiz_file m) now)) ltac:(lia)) as Hn.
    destruct (sql_limit 100 _) as [|r l]; destruct (order_by _) as [|r' l']; cbn.
    + split; intros [x Hx]; discriminate.
    + destruct Hn as [Hn _]. specialize (Hn eq_refl). discriminate.
    + destruct Hn as [_ Hn]. specialize (Hn eq_refl). discriminate.
    + split; eauto.
  - intros mode H1 H2. unfold Manager.get_next_question.
    apply String.eqb_neq in H1, H2. now rewrite H1, H2.
Qed.

(** X15.  A question is due from the moment it is registered: after any
    history, once [add_question] has run at time [now], the due query for
    its quiz file selects a row with the new id at every later time, so
    that review mode has a question to give. *)
Theorem registered_question_is_due_at_once (events : list Spec.event)
    (now later : timestamp) (f i t a ty : string) (o c : option (list string))
    (st : Manager.session_stats) (pick : nat) :
  now <= later ->
  let reg := add_question (Spec.after events) now f i t a ty o c in
  (exists r, In r (Due.selected (fst reg) (Some f) later) /\
             q_id (r_question r) = snd reg) /\
  is_Some (Manager.get_next_question
             {| Manager.db := fst reg; Manager.current_quiz_file := Some f;
                Manager.stats := st |} "review" later pick).
Proof.
  intros Hle reg.
  assert (Hsel : exists r, In r (Due.selected (fst reg) (Some f) later) /\
                           q_id (r_question r) = snd reg).
  { destruct (registration_starts_afresh events now f i t a ty o c) as [_ Hs].
    fold reg in Hs.
    set (row := {| q_id := snd reg; q_quiz_file := f; q_question_id := i;
                   q_question_text := t; q_correct_answer := a;
                   q_question_type := ty; q_options := json_column o;
                   q_correct_answers := json_column c |}).
    exists (join_srs (fst reg) row). split; [|reflexivity].
    apply in_selected. split; [|split].
    - exists row. split; [|reflexivity]. subst reg. cbn. apply in_app_iff. right.
      now left.
    - unfold is_due, join_srs. cbn [r_next_review q_id row]. rewrite Hs. cbn.
      now apply Z.leb_le.
    - unfold in_quiz. cbn. destruct f; [reflexivity|]. apply String.eqb_refl. }
  split; [exact Hsel|].
  rewrite review_mode_head. cbn [Manager.db Manager.current_quiz_file].
  pose proof (order_by_perm (Due.selected (fst reg) (Some f) later)) as Hp.
  destruct Hsel as (r & Hr & _).
  destruct (order_by (Due.selected (fst reg) (Some f) later)); [|cbn; eauto].
  apply Permutation_nil in Hp. rewrite Hp in Hr. destruct Hr.
Qed.

Lemma registered_question_is_due_at_once_witness :
  is_Some (Manager.get_next_question
             {| Manager.db := fst Sample.registered;
                Manager.current_quiz_file := Some Sample.quiz;
                Manager.stats := Manager.stats Sample.session |} "review" 10 0).
Proof.
  apply (registered_question_is_due_at_once [] 0 10 Sample.quiz "py_2"
           "Which keyword imports a module?" "import" "text" None None
           (Manager.stats Sample.session) 0).
  lia.
Defined.

(** ** Normalization *)

Lemma isspace_lower (c : ascii) : PyStr.isspace (PyStr.lower_char c) = PyStr.isspace c.
Proof. destruct c as [[] [] [] [] [] [] [] []]; reflexivity. Qed.

Lemma lower_char_idem (c : ascii) :
  PyStr.lower_char (PyStr.lower_char c) = PyStr.lower_char c.
Proof. destruct c as [[] [] [] [] [] [] [] []]; reflexivity. Qed.

Lemma lower_idem (s : string) : PyStr.lower (PyStr.lower s) = PyStr.lower s.
Proof.
  unfold PyStr.lower. induction s as [|c s IH]; [reflexivity|].
  cbn [PyStr.map_chars]. now rewrite IH, lower_char_idem.
Qed.

Lemma lstrip_lower (s : string) :
  PyStr.lstrip (PyStr.lower s) = PyStr.lower (PyStr.lstrip s).
Proof.
  unfold PyStr.lower. induction s as [|c s IH]; [reflexivity|].
  cbn [PyStr.map_chars PyStr.lstrip]. rewrite isspace_lower.
  destruct (PyStr.isspace c); [exact IH|reflexivity].
Qed.

Lemma is_empty_lower (s : string) :
  PyStr.is_empty (PyStr.lower s) = PyStr.is_empty s.
Proof. now destruct s. Qed.

Lemma rstrip_lower (s : string) :
  PyStr.rstrip (PyStr.lower s) = PyStr.lower (PyStr.rstrip s).
Proof.
  unfold PyStr.lower. induction s as [|c s IH]; [reflexivity|].
  cbn [PyStr.map_chars PyStr.rstrip]. rewrite IH, isspace_lower.
  pose proof (is_empty_lower (PyStr.rstrip s)) as He. unfold PyStr.lower in He.
  rewrite He. now destruct (PyStr.is_empty (PyStr.rstrip s) && PyStr.isspace c).
Qed.

Lemma strip_lower (s : string) :
  PyStr.strip (PyStr.lower s) = PyStr.lower (PyStr.strip s).
Proof. unfold PyStr.strip. now rewrite lstrip_lower, rstrip_lower. Qed.

Lemma rstrip_idem (s : string) : PyStr.rstrip (PyStr.rstrip s) = PyStr.rstrip s.
Proof.
  induction s as [|c s IH]; [reflexivity|]. cbn.
  destruct (PyStr.is_empty (PyStr.rstrip s) && PyStr.isspace c) eqn:E; [reflexivity|].
  cbn. now rewrite IH, E.
Qed.

Lemma lstrip_head (s : string) :
  match PyStr.lstrip s with
  | String c _ => PyStr.isspace c = false
  | EmptyString => True
  end.
Proof.
  induction s as [|c s IH]; cbn; [exact I|].
  now destruct (PyStr.isspace c) eqn:E.
Qed.

Lemma lstrip_rstrip (s : string) :
  PyStr.lstrip (PyStr.rstrip (PyStr.lstrip s)) = PyStr.rstrip (PyStr.lstrip s).
Proof.
  pose proof (lstrip_head s) as H. destruct (PyStr.lstrip s) as [|c r]; [reflexivity|].
  cbn. rewrite H, andb_false_r. cbn. now rewrite H.
Qed.

Lemma strip_idem (s : string) : PyStr.strip (PyStr.strip s) = PyStr.strip s.
Proof. unfold PyStr.strip. now rewrite lstrip_rstrip, rstrip_idem. Qed.

Lemma normalize_idem (s : string) : normalize (normalize s) = normalize s.
Proof. unfold normalize. now rewrite strip_lower, strip_idem, lower_idem. Qed.

(** ** The single-choice rule *)

Lemma normalized_head (u : string) (c : ascii) (r : string) :
  normalize u = String c r -> PyStr.lower_char c = c.
Proof.
  unfold normalize, PyStr.lower. destruct (PyStr.strip u) as [|c0 r0]; [discriminate|].
  cbn. intros [= <- _]. apply lower_char_idem.
Qed.

Lemma letter_branch (k : nat) (options : list string) (F : string -> bool) (d : bool) :
  (if (0 <=? Z.of_nat k) && (Z.of_nat k <? Z.of_nat (length options))
   then t ← index options (Z.of_nat k); Ok (F t)
   else Ok d)
  = Ok (match options !! k with Some t => F t | None => d end).
Proof.
  destruct (options !! k) as [t|] eqn:E.
  - pose proof (lookup_lt_Some _ _ _ E).
    replace ((0 <=? Z.of_nat k) && (Z.of_nat k <? Z.of_nat (length options))) with true
      by (symmetry; apply andb_true_iff; split; [apply Z.leb_le|apply Z.ltb_lt]; lia).
    now rewrite (index_lookup _ _ _ E).
  - pose proof (lookup_ge_None_1 _ _ E).
    replace (Z.of_nat k <? Z.of_nat (length options)) with false
      by (symmetry; apply Z.ltb_ge; lia).
    now rewrite andb_false_r.
Qed.

Lemma check_single_choice_spec (user_answer correct_answer : string)
    (options : list string) :
  _check_single_choice_answer user_answer correct_answer options
  = Ok (Rules.single_choice_correct user_answer correct_answer options).
Proof.
  unfold _check_single_choice_answer, Rules.single_choice_correct.
  pose proof (normalized_head user_answer) as Hlow.
  destruct (normalize user_answer) as [|ch [|ch' r]].
  - reflexivity.
  - specialize (Hlow ch EmptyString eq_refl).
    destruct ch as [[] [] [] [] [] [] [] []];
      first [ reflexivity
            | exfalso; vm_compute in Hlow; discriminate Hlow
            | exact (letter_branch 0 options _ _)
            | exact (letter_branch 1 options _ _)
            | exact (letter_branch 2 options _ _)
            | exact (letter_branch 3 options _ _) ].
  - replace (PyStr.len (String ch (String ch' r)) =? 1) with false; [reflexivity|].
    symmetry. apply Z.eqb_neq. unfold PyStr.len. cbn [String.length]. lia.
Qed.

(** X16.  A single-choice submission is judged as follows: when its
    normalized text is one letter a-d and the options reach that far, the
    option at that offset is compared, normalized, with the normalized
    canonical answer; in every other case (longer text, another character,
    a letter beyond the last option) the normalized submission itself is
    compared with it. *)
Theorem single_choice_rule (submission canonical : string) (options : list string) :
  _check_single_choice_answer submission canonical options =
  Ok (match normalize submission with
      | String c EmptyString =>
          match Spec.letter_option options c with
          | Some t => String.eqb (normalize t) (normalize canonical)
          | None => String.eqb (normalize submission) (normalize canonical)
          end
      | _ => String.eqb (normalize submission) (normalize canonical)
      end).
Proof.
  rewrite check_single_choice_spec. unfold Rules.single_choice_correct.
  now destruct (normalize submission) as [|c [|c' r]].
Qed.

(** ** What the verdict does not depend on *)

Lemma strip_map_chars (f : ascii -> ascii) (s : string) :
  (forall c, PyStr.isspace (f c) = PyStr.isspace c) ->
  PyStr.strip (PyStr.map_chars f s) = PyStr.map_chars f (PyStr.strip s).
Proof.
  intros Hf. unfold PyStr.strip.
  assert (Hl : forall s, PyStr.lstrip (PyStr.map_chars f s)
                         = PyStr.map_chars f (PyStr.lstrip s)).
  { intros x. induction x as [|c x IH]; [reflexivity|].
    cbn [PyStr.map_chars PyStr.lstrip]. rewrite Hf.
    destruct (PyStr.isspace c); [exact IH|reflexivity]. }
  assert (Hr : forall s, PyStr.rstrip (PyStr.map_chars f s)
                         = PyStr.map_chars f (PyStr.rstrip s)).
  { intros x. induction x as [|c x IH]; [reflexivity|].
    cbn [PyStr.map_chars PyStr.rstrip]. rewrite IH, Hf.
    replace (PyStr.is_empty (PyStr.map_chars f (PyStr.rstrip x)))
      with (PyStr.is_empty (PyStr.rstrip x)) by now destruct (PyStr.rstrip x).
    now destruct (PyStr.is_empty (PyStr.rstrip x) && PyStr.isspace c). }
  now rewrite Hl, Hr.
Qed.

(** Of the byte-wise mappings; of [str.upper] and [str.lower] on ASCII
    text. *)
Lemma normalize_upper (s : string) : normalize (PyStr.upper s) = normalize s.
Proof.
  unfold normalize, PyStr.upper. rewrite strip_map_chars
    by (intros c; destruct c as [[] [] [] [] [] [] [] []]; reflexivity).
  unfold PyStr.lower. induction (PyStr.strip s) as [|c x IH]; [reflexivity|].
  cbn [PyStr.map_chars]. rewrite IH. f_equal.
  destruct c as [[] [] [] [] [] [] [] []]; reflexivity.
Qed.

Lemma normalize_strip (s : string) : normalize (PyStr.strip s) = normalize s.
Proof. unfold normalize. now rewrite strip_idem. Qed.

(** X17.  The verdict on a free-text or single-choice answer does not
    change when the submission, or the canonical answer, is stripped of
    the whitespace around it or is replaced by its normalized form; nor
    when a submission, or a canonical answer, that is ASCII text is
    written in capitals. *)
Theorem verdict_ignores_case_and_outer_space (u c : string) (options : list string) :
  let same_text u' c' := _check_text_answer u' c' = _check_text_answer u c in
  let same_choice u' c' :=
    _check_single_choice_answer u' c' options
    = _check_single_choice_answer u c options in
  (same_text (PyStr.strip u) c /\ same_text (normalize u) c /\
   same_text u (PyStr.strip c) /\ same_text u (normalize c)) /\
  (same_choice (PyStr.strip u) c /\ same_choice (normalize u) c /\
   same_choice u (PyStr.strip c) /\ same_choice u (normalize c)) /\
  (Rules.is_ascii u = true ->
   same_text (PyStr.upper u) c /\ same_choice (PyStr.upper u) c) /\
  (Rules.is_ascii c = true ->
   same_text u (PyStr.upper c) /\ same_choice u (PyStr.upper c)).
Proof.
  cbn. unfold _check_text_answer, _check_single_choice_answer.
  rewrite !normalize_upper, !normalize_strip, !normalize_idem.
  repeat split; reflexivity.
Qed.

Lemma verdict_ignores_case_and_outer_space_witness :
  _check_text_answer "IMPORT" " import " = _check_text_answer "Import" " import " /\
  _check_single_choice_answer "B" "LONDON" ["Paris"; "London"]
  = _check_single_choice_answer "B" "London" ["Paris"; "London"].
Proof.
  destruct (verdict_ignores_case_and_outer_space "Import" " import " ["Paris"; "London"])
    as (_ & _ & Hu & _).
  destruct (verdict_ignores_case_and_outer_space "B" "London" ["Paris"; "London"])
    as (_ & _ & _ & Hc).
  split; [apply Hu|apply Hc]; reflexivity.
Defined.

(** ** Answers that are always accepted *)

Lemma normalize_letter (capital : bool) (k : nat) :
  (k < 4)%nat ->
  normalize (Rules.letter_of capital k) = String (ascii_of_nat (97 + k)) EmptyString.
Proof.
  intros Hk. destruct capital;
    (destruct k as [|[|[|[|k]]]]; [reflexivity|reflexivity|reflexivity|reflexivity|lia]).
Qed.

Lemma letter_option_at (options : list string) (k : nat) :
  (k < 4)%nat -> Spec.letter_option options (ascii_of_nat (97 + k)) = options !! k.
Proof.
  intros Hk.
  destruct k as [|[|[|[|k]]]]; [reflexivity|reflexivity|reflexivity|reflexivity|lia].
Qed.

(** X18.  Three kinds of answer are always judged correct: the canonical
    answer itself on a free-text question; the canonical answer itself on
    a single-choice question, provided its normalized text is not a single
    character (a one-letter answer is read as an option letter first); and
    the letter, capital or small, of an option whose text is, up to
    normalization, the canonical answer. *)
Theorem accepted_answers :
  (forall canonical : string, _check_text_answer canonical canonical = Ok true) /\
  (forall (canonical : string) (options : list string),
     PyStr.len (normalize canonical) <> 1 ->
     _check_single_choice_answer canonical canonical options = Ok true) /\
  (forall (canonical : string) (options : list string) (k : nat) (t : string)
          (capital : bool),
     (k < 4)%nat -> options !! k = Some t -> normalize t = normalize canonical ->
     _check_single_choice_answer (Rules.letter_of capital k) canonical options
     = Ok true).
Proof.
  split; [|split].
  - intros c. destruct (check_text_answer_spec c c) as (b & Hb & Hiff).
    rewrite Hb. f_equal. apply Hiff. now left.
  - intros c options Hlen. rewrite check_single_choice_spec.
    unfold Rules.single_choice_correct. cbv zeta.
    destruct (normalize c) as [|ch [|ch' r]] eqn:E.
    + reflexivity.
    + now destruct Hlen.
    + now rewrite String.eqb_refl.
  - intros c options k t capital Hk Ht Hn. rewrite check_single_choice_spec.
    unfold Rules.single_choice_correct. cbv zeta.
    rewrite (normalize_letter capital k Hk), (letter_option_at options k Hk), Ht.
    f_equal. now apply String.eqb_eq.
Qed.

Lemma accepted_answers_witness :
  _check_single_choice_answer "def f():" "def f():" ["[]"; "def f():"] = Ok true /\
  _check_single_choice_answer "B" " Def f(): " ["[]"; "def f():"] = Ok true.
Proof.
  destruct accepted_answers as (_ & H2 & H3). split.
  - apply H2. vm_compute. discriminate.
  - apply (H3 " Def f(): " ["[]"; "def f():"] 1%nat "def f():" true);
      [lia|reflexivity|vm_compute; reflexivity].
Defined.

(** ** The session counters *)

Lemma verdict_total (u c ty : string) (o ca : option (list string)) :
  exists b, verdict u c ty o ca = Ok b.
Proof.
  unfold verdict.
  destruct (String.eqb ty "single_choice" && truthy o);
    [apply check_single_choice_total|].
  destruct (String.eqb ty "multiple_choice" && truthy ca).
  - rewrite check_multiple_choice_spec. eauto.
  - destruct (check_text_answer_spec u c) as (b & Hb & _). eauto.
Qed.

Lemma submit_step (m : Manager.QuizManager) (s : Session.submission) :
  let m' := fst (Session.submit m s) in
  Manager.current_quiz_file m' = Manager.current_quiz_file m /\
  Manager.start_time (Manager.stats m') = Manager.start_time (Manager.stats m) /\
  length (user_answers (Manager.db m')) = S (length (user_answers (Manager.db m))) /\
  Manager.questions_asked (Manager.stats m) <= Manager.questions_asked (Manager.stats m')
    <= Manager.questions_asked (Manager.stats m) + 1 /\
  Manager.correct_count (Manager.stats m) <= Manager.correct_count (Manager.stats m') /\
  Manager.correct_count (Manager.stats m') - Manager.correct_count (Manager.stats m)
    <= Manager.questions_asked (Manager.stats m')
       - Manager.questions_asked (Manager.stats m).
Proof.
  unfold Session.submit, Manager.check_answer.
  destruct (verdict_total (Session.sub_user_answer s) (Session.sub_correct_answer s)
              (Session.sub_question_type s) (Session.sub_options s)
              (Session.sub_correct_answers s)) as [b ->].
  pose proof (record_answer_user_answers (Manager.db m) (Session.sub_question s)
                (Session.sub_user_answer s) b (Session.sub_response_time s)
                (Session.sub_now s) (Session.sub_later s)) as Hu.
  destruct (record_answer _ _ _ _ _ _) as [db' [[]|e]]; cbn in *;
    rewrite Hu, length_app; cbn; repeat split; try lia; destruct b; lia.
Qed.

(** X19.  From [reset_session_stats] on, whatever answers are submitted
    through [check_answer]: every submission leaves one row in
    [user_answers]; the counters satisfy
    0 <= correct answers <= questions asked <= number of submissions; the
    start time and the selected quiz stay; and [get_session_stats] returns
    its report without dividing by zero, also before the first answer. *)
Theorem session_counters_are_consistent (m : Manager.QuizManager) (now later : timestamp)
    (l : list Session.submission) :
  let m' := Session.after_submissions (Session.reset_session_stats m now) l in
  length (user_answers (Manager.db m'))
    = (length (user_answers (Manager.db m)) + length l)%nat /\
  0 <= Manager.correct_count (Manager.stats m')
    <= Manager.questions_asked (Manager.stats m') /\
  Manager.questions_asked (Manager.stats m') <= Z.of_nat (length l) /\
  Manager.start_time (Manager.stats m') = now /\
  Manager.current_quiz_file m' = Manager.current_quiz_file m /\
  exists report, Session.get_session_stats m' later = Ok report /\
                 Session.rep_elapsed_time report = later - now.
Proof.
  cbn zeta.
  assert (H : forall l m0,
    let m' := Session.after_submissions m0 l in
    length (user_answers (Manager.db m'))
      = (length (user_answers (Manager.db m0)) + length l)%nat /\
    Manager.correct_count (Manager.stats m0) <= Manager.correct_count (Manager.stats m') /\
    Manager.correct_count (Manager.stats m') - Manager.correct_count (Manager.stats m0)
      <= Manager.questions_asked (Manager.stats m')
         - Manager.questions_asked (Manager.stats m0) /\
    Manager.questions_asked (Manager.stats m') - Manager.questions_asked (Manager.stats m0)
      <= Z.of_nat (length l) /\
    Manager.start_time (Manager.stats m') = Manager.start_time (Manager.stats m0) /\
    Manager.current_quiz_file m' = Manager.current_quiz_file m0).
  { clear. induction l as [|s l IH]; intros m0; cbn zeta.
    - cbn. repeat split; lia.
    - unfold Session.after_submissions. cbn [fold_left length].
      fold (Session.after_submissions (fst (Session.submit m0 s)) l).
      destruct (IH (fst (Session.submit m0 s))) as (I1 & I2 & I3 & I4 & I5 & I6).
      destruct (submit_step m0 s) as (S1 & S2 & S3 & S4 & S5 & S6).
      repeat split; try lia; congruence. }
  destruct (H l (Session.reset_session_stats m now)) as (H1 & H2 & H3 & H4 & H5 & H6).
  cbn in H1, H2, H3, H4, H5, H6.
  repeat split; try assumption; try lia.
  unfold Session.get_session_stats, truediv, Session.max_int.
  destruct (_ =? 0) eqn:E.
  { apply Z.eqb_eq in E. destruct (1 <? _) eqn:E1; [apply Z.ltb_lt in E1|]; lia. }
  cbn. rewrite H5. eauto.
Qed.

(** ** What the Markdown reader emits *)

Lemma present_options_spec (caps : Regex.captures) :
  (length (Parser.present_options caps) <= 4)%nat /\
  forall l v, In (l, v) (Parser.present_options caps) ->
              v <> EmptyString /\ PyStr.strip v = v.
Proof.
  unfold Parser.present_options. split.
  - cbn. repeat match goal with |- context [if ?b then _ else _] => destruct b end;
      cbn; lia.
  - intros l v Hin. apply list_elem_of_In, list_elem_of_omap in Hin as ((l0 & n) & _ & Hf).
    destruct (negb (PyStr.is_empty (Regex.group caps n)) &&
              negb (PyStr.is_empty (PyStr.strip (Regex.group caps n)))) eqn:E;
      [|discriminate].
    injection Hf as <- <-. apply andb_true_iff in E as [_ E].
    split; [|apply strip_idem].
    intros H. rewrite H in E. discriminate.
Qed.

Lemma option_map_get_in (m : list (string * string)) (k v : string) :
  Parser.option_map_get m k = Some v -> In v (map snd m).
Proof.
  induction m as [|[k0 v0] m IH]; cbn; [discriminate|].
  destruct (String.eqb k0 k); [intros [= <-]; now left|]. intros H. right. auto.
Qed.

Lemma join_single (x : string) : PyStr.join ", " [x] = x.
Proof. reflexivity. Qed.

Lemma choice_question_shape (k : nat) (caps : Regex.captures) (q : Parser.Question) :
  Parser.choice_question k caps = Some q ->
  Shapes.is_choice_question q /\ Parser.qid q = Parser.PStr (pretty k).
Proof.
  unfold Parser.choice_question.
  destruct (present_options_spec caps) as [Hlen Hopts].
  set (option_map := Parser.present_options caps) in *.
  destruct (map snd option_map) as [|o0 opts0] eqn:Eo; [discriminate|].
  set (correct := omap _ _).
  assert (Hsub : forall x, In x correct -> In x (o0 :: opts0)).
  { intros x Hx. apply list_elem_of_In, list_elem_of_omap in Hx as (l & _ & Hl).
    rewrite <- Eo. now apply option_map_get_in in Hl. }
  assert (Hclean : forall x, In x (o0 :: opts0) -> x <> EmptyString /\ PyStr.strip x = x).
  { intros x Hx. rewrite <- Eo in Hx. apply in_map_iff in Hx as ([l v] & <- & Hin).
    now apply (Hopts l v). }
  assert (Hn : (1 <= length (o0 :: opts0) <= 4)%nat).
  { rewrite <- Eo, length_map. split; [|exact Hlen].
    destruct option_map; [discriminate|cbn; lia]. }
  destruct correct as [|one [|two rest]] eqn:Ec; [discriminate| |];
    intros [= <-]; (split; [|reflexivity]).
  - exists (pretty k), (PyStr.strip (Regex.group caps 1)), (o0 :: opts0), [one]. cbn.
    split; [reflexivity|]. split; [reflexivity|].
    split; [reflexivity|]. split; [reflexivity|]. split; [exact Hn|].
    split; [discriminate|]. split; [exact Hsub|]. split; [exact Hclean|].
    split; reflexivity.
  - exists (pretty k), (PyStr.strip (Regex.group caps 1)), (o0 :: opts0),
      (one :: two :: rest). cbn.
    split; [reflexivity|]. split; [reflexivity|].
    split; [reflexivity|]. split; [reflexivity|]. split; [exact Hn|].
    split; [discriminate|]. split; [exact Hsub|]. split; [exact Hclean|].
    split; reflexivity.
Qed.

Lemma choice_questions_shape (k : nat) (matches : list Regex.captures) :
  Forall Shapes.is_choice_question (Parser.choice_questions k matches) /\
  map Parser.qid (Parser.choice_questions k matches)
  = Shapes.sequential_ids k (length (Parser.choice_questions k matches)).
Proof.
  revert k. induction matches as [|caps matches IH]; intros k; cbn.
  - split; [constructor|reflexivity].
  - destruct (Parser.choice_question k caps) as [q|] eqn:E; [|apply IH].
    destruct (choice_question_shape k caps q E) as [Hq Hid].
    destruct (IH (S k)) as [IH1 IH2]. split; [now constructor|].
    cbn. rewrite Hid, IH2. reflexivity.
Qed.

Lemma text_question_shape (i t a : string) :
  Shapes.is_text_question (Parser.text_question i t a).
Proof.
  unfold Shapes.is_text_question. cbn.
  split; [reflexivity|]. split; [reflexivity|]. split; [reflexivity|].
  exists i, t, a. repeat split.
Qed.

Lemma enumerated_text_shape (k : nat) (matches : list Regex.captures) :
  let qs := map (fun '(i, caps) =>
                   Parser.text_question (pretty i) (PyStr.strip (Regex.group caps 1))
                                        (PyStr.strip (Regex.group caps 2)))
                (Parser.enumerate_from k matches) in
  Forall Shapes.is_text_question qs /\
  map Parser.qid qs = Shapes.sequential_ids k (length qs).
Proof.
  revert k. induction matches as [|caps matches IH]; intros k; cbn.
  - split; [constructor|reflexivity].
  - destruct (IH (S k)) as [IH1 IH2]. cbn in IH1, IH2. split.
    + constructor; [apply text_question_shape|exact IH1].
    + unfold Shapes.sequential_ids in *. cbn. now rewrite IH2.
Qed.

Lemma line_pairs_shape (k : nat) (lines : list string) :
  Forall Shapes.is_text_question (Parser.line_pairs k lines) /\
  map Parser.qid (Parser.line_pairs k lines)
  = Shapes.sequential_ids k (length (Parser.line_pairs k lines)) /\
  length (Parser.line_pairs k lines) = (length lines / 2)%nat.
Proof.
  assert (H : forall n lines k, (length lines <= n)%nat ->
    Forall Shapes.is_text_question (Parser.line_pairs k lines) /\
    map Parser.qid (Parser.line_pairs k lines)
    = Shapes.sequential_ids k (length (Parser.line_pairs k lines)) /\
    length (Parser.line_pairs k lines) = (length lines / 2)%nat).
  { clear. induction n as [|n IH]; intros lines k Hle.
    - destruct lines; [|cbn in Hle; lia].
      split; [apply Forall_nil_2|split; reflexivity].
    - destruct lines as [|q [|a rest]]; cbn [Parser.line_pairs].
      + split; [apply Forall_nil_2|split; reflexivity].
      + split; [apply Forall_nil_2|split; reflexivity].
      + assert (Hr : (length rest <= n)%nat) by (cbn in Hle; lia).
        destruct (IH rest (S k) Hr) as (I1 & I2 & I3). split; [|split].
        * apply Forall_cons_2; [apply text_question_shape|exact I1].
        * unfold Shapes.sequential_ids in *. cbn. now rewrite I2.
        * cbn [length]. rewrite I3.
          change (S (S (length rest))) with (2 + length rest)%nat.
          replace (2 + length rest)%nat with (length rest + 1 * 2)%nat by lia.
          rewrite Nat.div_add by lia. lia. }
  now apply (H (length lines)).
Qed.

(** X20.  Whatever the text, the questions the Markdown reader returns are
    numbered "0", "1", "2", ... in the order of the list, and they are of
    one family: either all are choice questions (id and prompt are
    strings, one to four options that
    are neither blank nor padded, at least one correct answer, every
    correct answer one of the options, the answer text their ", "-join,
    single choice exactly when there is one correct answer), or all are
    free-text questions without options. *)
Theorem markdown_questions_are_well_formed (content : string) :
  let qs := Parser._parse_markdown content in
  map Parser.qid qs = Shapes.sequential_ids 0 (length qs) /\
  (Forall Shapes.is_choice_question qs \/ Forall Shapes.is_text_question qs).
Proof.
  cbn zeta. unfold Parser._parse_markdown.
  destruct (choice_questions_shape 0 (Regex.findall Parser.abcd_pattern content))
    as [C1 C2].
  destruct (Parser.choice_questions 0 _) as [|q qs] eqn:Ec.
  - destruct (Parser.first_matching Parser.patterns content) as [|m ms] eqn:Em.
    + destruct (line_pairs_shape 0 (PyStr.split_on Regex.newline (PyStr.strip content)))
        as (L1 & L2 & _). auto.
    + destruct (enumerated_text_shape 0 (m :: ms)) as [T1 T2]. auto.
  - auto.
Qed.

(** ** Loading a quiz *)

Lemma mapM_text_field (l : list string) :
  mapM Loader.text_field (map Parser.PStr l) = Some l.
Proof.
  induction l as [|x l IH]; [reflexivity|]. cbn. rewrite IH. reflexivity.
Qed.

Lemma list_field_strings (l : list string) :
  l <> [] -> Loader.list_field (Parser.PList (map Parser.PStr l)) = Some (Some l).
Proof.
  intros Hl. unfold Loader.list_field.
  destruct l as [|x l]; [now destruct Hl|].
  change (Parser.truthy _) with true. cbv iota. now rewrite mapM_text_field.
Qed.

(** The call of [add_question] that [load_quiz] makes for a question of
    the Markdown reader. *)
Lemma markdown_question_registration (q : Parser.Question) :
  Shapes.is_choice_question q \/ Shapes.is_text_question q ->
  exists g, Loader.registration_of q = Some g /\
            Parser.qid q = Parser.PStr (Loader.g_id g) /\
            Parser.question q = Parser.PStr (Loader.g_text g) /\
            Parser.answer q = Parser.PStr (Loader.g_answer g) /\
            Parser.question_type q = Parser.PStr (Loader.g_type g).
Proof.
  unfold Loader.registration_of.
  intros [(i & t & opts & cs & Hi & Ht & Ho & Hc & Hn & Hcs & _ & _ & Ha & Hty)
         |(Hty & Ho & Hc & i & t & a & Hi & Ht & Ha)];
    rewrite Hi, Ht, Ha, Hty, Ho, Hc; cbn.
  - rewrite !list_field_strings; [|destruct opts; [cbn in Hn; lia|discriminate]|exact Hcs].
    cbn. eexists. repeat split.
  - eexists. repeat split.
Qed.

Lemma registrations_exist (qs : list Parser.Question) :
  Forall (fun q => exists g, Loader.registration_of q = Some g /\
                             Parser.qid q = Parser.PStr (Loader.g_id g) /\
                             Parser.question q = Parser.PStr (Loader.g_text g) /\
                             Parser.answer q = Parser.PStr (Loader.g_answer g) /\
                             Parser.question_type q = Parser.PStr (Loader.g_type g)) qs ->
  exists rows, mapM Loader.registration_of qs = Some rows /\
               length rows = length qs /\
               map Parser.qid qs = map (fun g => Parser.PStr (Loader.g_id g)) rows /\
               forall k q, qs !! k = Some q ->
                 exists g, rows !! k = Some g /\
                           Parser.qid q = Parser.PStr (Loader.g_id g) /\
                           Parser.question q = Parser.PStr (Loader.g_text g) /\
                           Parser.answer q = Parser.PStr (Loader.g_answer g) /\
                           Parser.question_type q = Parser.PStr (Loader.g_type g).
Proof.
  induction 1 as [|q qs (g & Hg & Hq) _ (rows & Hr & Hlen & Hids & Hk)].
  - exists []. repeat split. intros k q Hq. now rewrite lookup_nil in Hq.
  - exists (g :: rows). cbn. rewrite Hg, Hr. cbn.
    split; [reflexivity|]. split; [now rewrite Hlen|].
    split; [destruct Hq as (-> & _); now rewrite Hids|].
    intros [|k] q' Hq'; cbn in Hq'.
    + injection Hq' as <-. exists g. now split.
    + now apply Hk.
Qed.

Lemma register_all_seq db clock k path rows :
  questions_seq (Loader.register_all db clock k path rows)
  = questions_seq db + Z.of_nat (length rows) /\
  user_answers (Loader.register_all db clock k path rows) = user_answers db.
Proof.
  revert db k. induction rows as [|g rows IH]; intros db k; cbn [Loader.register_all].
  - split; [cbn; lia|reflexivity].
  - destruct (IH (fst (Loader.register db (clock k) path g)) (S k)) as [-> ->].
    cbn. split; [lia|reflexivity].
Qed.

Lemma register_all_keeps_state db clock k path rows (id : Z) (st : srs_row) :
  srs_stats db !! id = Some st ->
  srs_stats (Loader.register_all db clock k path rows) !! id = Some st.
Proof.
  revert db k. induction rows as [|g rows IH]; intros db k H; cbn [Loader.register_all].
  - exact H.
  - apply IH. unfold Loader.register. cbn.
    destruct (srs_stats db !! (questions_seq db + 1)) eqn:E; [exact H|].
    rewrite lookup_insert. case_decide as Hd; [|exact H].
    rewrite <- Hd in H. congruence.
Qed.

Lemma register_all_keeps_row db clock k path rows (r : question_row) :
  In r (questions db) ->
  q_quiz_file r <> path \/ ~ In (q_question_id r) (map Loader.g_id rows) ->
  In r (questions (Loader.register_all db clock k path rows)).
Proof.
  revert db k. induction rows as [|g rows IH]; intros db k Hin Hother;
    cbn [Loader.register_all].
  - exact Hin.
  - apply IH.
    + unfold Loader.register. cbn. apply in_app_iff. left. apply filter_In.
      split; [exact Hin|]. apply negb_true_iff.
      destruct (same_identity path (Loader.g_id g) r) eqn:E; [|reflexivity].
      apply same_identity_iff in E. injection E as E1 E2.
      destruct Hother as [H|H]; [now destruct H|]. destruct H. left. now symmetry.
    + destruct Hother as [H|H]; [now left|]. right. intros H'. apply H. now right.
Qed.

Lemma register_all_keys_bounded db clock k path rows :
  Spec.keys_bounded db -> Spec.keys_bounded (Loader.register_all db clock k path rows).
Proof.
  revert db k. induction rows as [|g rows IH]; intros db k H; cbn [Loader.register_all].
  - exact H.
  - apply IH.
    exact (apply_keys_bounded db
             (Spec.Register path (Loader.g_id g) (Loader.g_text g) (Loader.g_answer g)
                (Loader.g_type g) (Loader.g_options g) (Loader.g_correct_answers g)
                (clock k)) H).
Qed.

Lemma register_all_well_keyed db clock k path rows :
  Props.well_keyed db -> Props.well_keyed (Loader.register_all db clock k path rows).
Proof.
  revert db k. induction rows as [|g rows IH]; intros db k H; cbn [Loader.register_all].
  - exact H.
  - apply IH. now apply add_question_well_keyed.
Qed.

Lemma register_all_rows db clock k path rows :
  Spec.keys_bounded db ->
  NoDup (map Loader.g_id rows) ->
  forall j g, rows !! j = Some g ->
    let id := questions_seq db + Z.of_nat j + 1 in
    In (Loader.stored_row path g id)
       (questions (Loader.register_all db clock k path rows)) /\
    srs_stats (Loader.register_all db clock k path rows) !! id
    = Some (default_srs (clock (k + j)%nat)).
Proof.
  revert db k. induction rows as [|g0 rows IH]; intros db k Hb Hnd j g Hj;
    [now rewrite lookup_nil in Hj|].
  cbn [Loader.register_all]. cbn in Hnd. apply NoDup_cons in Hnd as [Hfresh Hnd].
  set (db1 := fst (Loader.register db (clock k) path g0)).
  assert (Hb1 : Spec.keys_bounded db1).
  { exact (apply_keys_bounded db
             (Spec.Register path (Loader.g_id g0) (Loader.g_text g0) (Loader.g_answer g0)
                (Loader.g_type g0) (Loader.g_options g0) (Loader.g_correct_answers g0)
                (clock k)) Hb). }
  destruct j as [|j]; cbn in Hj.
  - injection Hj as <-. cbn zeta. rewrite Z.add_0_r, Nat.add_0_r. split.
    + apply register_all_keeps_row.
      * subst db1. unfold Loader.register. cbn. apply in_app_iff. right. now left.
      * right. cbn. intros H. apply Hfresh. now apply list_elem_of_In.
    + apply register_all_keeps_state. subst db1. unfold Loader.register. cbn.
      destruct (srs_stats db !! (questions_seq db + 1)) eqn:E.
      * apply Hb in E. lia.
      * now rewrite lookup_insert_eq.
  - cbn zeta. destruct (IH db1 (S k) Hb1 Hnd j g Hj) as [I1 I2].
    replace (questions_seq db + Z.of_nat (S j) + 1)
      with (questions_seq db1 + Z.of_nat j + 1) by (subst db1; cbn; lia).
    replace (k + S j)%nat with (S k + j)%nat by lia. now split.
Qed.

Lemma find_unique (l : list question_row) (r : question_row) :
  NoDup (map Props.identity l) -> In r l ->
  List.find (same_identity (q_quiz_file r) (q_question_id r)) l = Some r.
Proof.
  induction l as [|x l IH]; intros Hnd Hin; [destruct Hin|].
  cbn in Hnd. apply NoDup_cons in Hnd as [Hx Hnd]. cbn.
  destruct (same_identity _ _ x) eqn:E.
  - destruct Hin as [->|Hin]; [reflexivity|]. destruct Hx.
    apply same_identity_iff in E. rewrite E. apply list_elem_of_In.
    apply in_map_iff. now exists r.
  - destruct Hin as [->|Hin]; [|now apply IH].
    unfold same_identity in E. now rewrite !String.eqb_refl in E.
Qed.

Lemma markdown_each_shape (content : string) :
  let qs := Parser._parse_markdown content in
  Forall (fun q => Shapes.is_choice_question q \/ Shapes.is_text_question q) qs /\
  map Parser.qid qs = Shapes.sequential_ids 0 (length qs).
Proof.
  cbn zeta. unfold Parser._parse_markdown.
  destruct (choice_questions_shape 0 (Regex.findall Parser.abcd_pattern content))
    as [C1 C2].
  destruct (Parser.choice_questions 0 _) as [|q qs] eqn:Ec.
  - destruct (Parser.first_matching Parser.patterns content) as [|m ms] eqn:Em.
    + destruct (line_pairs_shape 0 (PyStr.split_on Regex.newline (PyStr.strip content)))
        as (L1 & L2 & _).
      split; [|exact L2]. eapply Forall_impl; [exact L1|]. cbn. auto.
    + destruct (enumerated_text_shape 0 (m :: ms)) as [T1 T2].
      split; [|exact T2]. eapply Forall_impl; [exact T1|]. cbn. auto.
  - split; [|exact C2]. eapply Forall_impl; [exact C1|]. cbn. auto.
Qed.

Lemma markdown_registrations (content : string) :
  exists rows,
    mapM Loader.registration_of (Parser._parse_markdown content) = Some rows /\
    map Loader.g_id rows = map pretty (seq 0 (length rows)) /\
    forall k q, Parser._parse_markdown content !! k = Some q ->
      exists g, rows !! k = Some g /\
                Parser.qid q = Parser.PStr (Loader.g_id g) /\
                Parser.question q = Parser.PStr (Loader.g_text g) /\
                Parser.answer q = Parser.PStr (Loader.g_answer g) /\
                Parser.question_type q = Parser.PStr (Loader.g_type g).
Proof.
  destruct (markdown_each_shape content) as [Hshape Hids]. cbn zeta in *.
  destruct (registrations_exist (Parser._parse_markdown content)) as
    (rows & Hr & Hlen & Hmap & Hk).
  { eapply Forall_impl; [exact Hshape|]. apply markdown_question_registration. }
  exists rows. split; [exact Hr|]. split; [|exact Hk].
  rewrite Hmap, <- Hlen in Hids. unfold Shapes.sequential_ids in Hids.
  clear -Hids. revert Hids. generalize 0%nat.
  induction rows as [|g rows IH]; intros n H; [reflexivity|].
  cbn in *. injection H as -> H. f_equal. now apply IH.
Qed.

Lemma sequential_lookup (rows : list Loader.registration) (k : nat) (g : Loader.registration) :
  map Loader.g_id rows = map pretty (seq 0 (length rows)) ->
  rows !! k = Some g -> Loader.g_id g = pretty k.
Proof.
  intros Hids Hk.
  assert (H : map Loader.g_id rows !! k = Some (Loader.g_id g))
    by (now rewrite list_lookup_fmap, Hk).
  rewrite Hids, list_lookup_fmap in H.
  apply lookup_lt_Some in Hk. rewrite lookup_seq_lt in H by exact Hk.
  cbn in H. now injection H.
Qed.

Lemma sequential_NoDup (rows : list Loader.registration) :
  map Loader.g_id rows = map pretty (seq 0 (length rows)) ->
  NoDup (map Loader.g_id rows).
Proof.
  intros ->. apply (NoDup_fmap_2 _). apply NoDup_seq.
Qed.

Lemma history_invariants (events : list Spec.event) :
  Spec.keys_bounded (Spec.after events) /\ Props.well_keyed (Spec.after events).
Proof.
  split.
  - apply history_keys_bounded. intros j st H. cbn in H.
    now rewrite lookup_empty in H.
  - apply fold_invariant; [|apply apply_well_keyed].
    unfold Props.well_keyed. cbn. repeat split; try apply NoDup_nil_2; lia.
Qed.

Lemma due_row_is_asked (m : Manager.QuizManager) (later : timestamp) (pick : nat)
    (row : question_row) (t : timestamp) :
  In row (questions (Manager.db m)) ->
  Manager.current_quiz_file m = Some (q_quiz_file row) ->
  srs_stats (Manager.db m) !! q_id row = Some (default_srs t) ->
  t <= later ->
  is_Some (Manager.get_next_question m "review" later pick).
Proof.
  intros Hin Hfile Hst Hle. rewrite review_mode_head.
  pose proof (order_by_perm (Due.selected (Manager.db m)
                               (Manager.current_quiz_file m) later)) as Hp.
  assert (Hsel : In (join_srs (Manager.db m) row)
                    (Due.selected (Manager.db m) (Manager.current_quiz_file m) later)).
  { apply in_selected. split; [now exists row|]. split.
    - unfold is_due, join_srs. cbn [r_next_review]. rewrite Hst. cbn.
      now apply Z.leb_le.
    - rewrite Hfile. unfold in_quiz. cbn.
      destruct (q_quiz_file row); [reflexivity|]. apply String.eqb_refl. }
  destruct (order_by _); [|cbn; eauto].
  apply Permutation_nil in Hp. rewrite Hp in Hsel. destruct Hsel.
Qed.

(** X21.  Loading a Markdown file that holds at least one question
    succeeds after any history: [load_quiz] returns [True] and selects the
    file; the session counters and the recorded answers stay; the
    question at position [k] of the file is stored under the question id
    [str(k)] with a database id that was never used before, with its
    prompt, answer and type, and it starts from the default review state,
    also when the file had been loaded and studied before; and from then
    on review mode has a question to ask. *)
Theorem markdown_quiz_loads (py_repr : Parser.pyval -> string)
    (fs : gmap string Parser.file) (events : list Spec.event)
    (m : Manager.QuizManager) (path : string) (f : Parser.file)
    (clock : nat -> timestamp) :
  Manager.db m = Spec.after events ->
  fs !! path = Some f ->
  PyStr.lower (Parser.extension path) = ".md"%string ->
  Parser._parse_markdown (Parser.f_text f) <> [] ->
  exists m',
    Loader.load_quiz py_repr fs m path clock = Some (m', true) /\
    Manager.current_quiz_file m' = Some path /\
    Manager.stats m' = Manager.stats m /\
    user_answers (Manager.db m') = user_answers (Manager.db m) /\
    (forall k q, Parser._parse_markdown (Parser.f_text f) !! k = Some q ->
       let id := questions_seq (Manager.db m) + Z.of_nat k + 1 in
       get_question_db_id (Manager.db m') path (pretty k) = Some id /\
       srs_stats (Manager.db m') !! id = Some (default_srs (clock k)) /\
       exists row, In row (questions (Manager.db m')) /\ q_id row = id /\
                   q_quiz_file row = path /\
                   Parser.qid q = Parser.PStr (q_question_id row) /\
                   Parser.question q = Parser.PStr (q_question_text row) /\
                   Parser.answer q = Parser.PStr (q_correct_answer row) /\
                   Parser.question_type q = Parser.PStr (q_question_type row)) /\
    (forall later pick, clock 0%nat <= later ->
       is_Some (Manager.get_next_question m' "review" later pick)).
Proof.
  intros Hdb Hf Hext Hne.
  destruct (markdown_registrations (Parser.f_text f)) as (rows & Hr & Hids & Hrows).
  destruct (history_invariants events) as [Hb Hw]. rewrite <- Hdb in Hb, Hw.
  unfold Loader.load_quiz, Parser.parse_file. rewrite Hf, Hext.
  change (String.eqb ".md" ".json") with false.
  change (String.eqb ".md" ".md") with true. cbv iota.
  destruct (Parser._parse_markdown (Parser.f_text f)) as [|q0 qs] eqn:Eq;
    [now destruct Hne|].
  rewrite Hr. cbn [mbind option_bind].
  eexists. split; [reflexivity|]. cbn [Manager.current_quiz_file Manager.stats Manager.db].
  split; [reflexivity|]. split; [reflexivity|].
  split; [apply register_all_seq|].
  pose proof (register_all_rows (Manager.db m) clock 0 path rows Hb
                (sequential_NoDup rows Hids)) as Hreg.
  split.
  - intros k q Hq. cbn zeta.
    destruct (Hrows k q Hq) as (g & Hg & H1 & H2 & H3 & H4).
    destruct (Hreg k g Hg) as [Hin Hst].
    cbn zeta in Hin, Hst. cbn [Nat.add] in Hst.
    pose proof (sequential_lookup rows k g Hids Hg) as Hid.
    split; [|split; [exact Hst|]].
    + unfold get_question_db_id.
      pose proof (find_unique _ _
        (proj1 (proj2 (register_all_well_keyed (Manager.db m) clock 0 path rows Hw)))
        Hin) as Hfind.
      cbn [Loader.stored_row q_quiz_file q_question_id] in Hfind.
      rewrite Hid in Hfind. now rewrite Hfind.
    + eexists. split; [exact Hin|]. cbn. repeat split; assumption.
  - intros later pick Hle.
    destruct (Hrows 0%nat q0 eq_refl) as (g & Hg & _).
    destruct (Hreg 0%nat g Hg) as [Hin Hst]. cbn zeta in Hin, Hst.
    eapply due_row_is_asked; [exact Hin|reflexivity|exact Hst|exact Hle].
Qed.

Lemma markdown_quiz_loads_witness :
  exists m',
    Loader.load_quiz Sample.no_repr Cases.quiz_dir Sample.session
                     "quizy/capitals.md" (fun k => 5000 + Z.of_nat k)
    = Some (m', true) /\
    Manager.current_quiz_file m' = Some "quizy/capitals.md"%string /\
    get_question_db_id (Manager.db m') "quizy/capitals.md" "0" = Some 2.
Proof.
  destruct (markdown_quiz_loads Sample.no_repr Cases.quiz_dir
              [Spec.Register Sample.quiz "py_2" "Which keyword imports a module?"
                             "import" "text" None None 0;
               Spec.AnswerEvent 1 "import" true None 1000 1000;
               Spec.AnswerEvent 1 "import" true None 2000 2000]
              Sample.session "quizy/capitals.md" Cases.capitals
              (fun k => 5000 + Z.of_nat k))
    as (m' & H1 & H2 & _ & _ & H5 & _).
  - reflexivity.
  - vm_compute. reflexivity.
  - vm_compute. reflexivity.
  - vm_compute. discriminate.
  - exists m'. split; [exact H1|]. split; [exact H2|].
    apply (H5 0%nat (Sample.choice_of_capital ["Paris"; "London"; "Rome"; "Oslo"])).
    vm_compute. reflexivity.
Defined.

Lemma registration_id (q : Parser.Question) (g : Loader.registration) :
  Loader.registration_of q = Some g -> Parser.qid q = Parser.PStr (Loader.g_id g).
Proof.
  unfold Loader.registration_of. destruct (Parser.qid q); try discriminate. cbn.
  destruct (Loader.text_field (Parser.question q)); [|discriminate]. cbn.
  destruct (Loader.text_field (Parser.answer q)); [|discriminate]. cbn.
  destruct (Loader.text_field (Parser.question_type q)); [|discriminate]. cbn.
  destruct (Loader.list_field (Parser.options q)); [|discriminate]. cbn.
  destruct (Loader.list_field (Parser.correct_answers q)); [|discriminate]. cbn.
  now intros [= <-].
Qed.

Lemma registration_ids (qs : list Parser.Question) (rows : list Loader.registration) :
  mapM Loader.registration_of qs = Some rows ->
  map Parser.qid qs = map (fun g => Parser.PStr (Loader.g_id g)) rows.
Proof.
  revert rows. induction qs as [|q qs IH]; intros rows; cbn.
  - now intros [= <-].
  - destruct (Loader.registration_of q) as [g|] eqn:Eg; [|discriminate]. cbn.
    destruct (mapM Loader.registration_of qs) as [rows'|]; [|discriminate]. cbn.
    intros [= <-]. cbn. now rewrite (registration_id q g Eg), (IH rows' eq_refl).
Qed.

(** X22.  A load removes nothing but what it replaces: a question that was
    registered under another file, or under the same file with a question
    id that the file no longer uses, is still in the store after a
    successful [load_quiz], under its old id and with its review state. *)
Theorem load_keeps_other_questions (py_repr : Parser.pyval -> string)
    (fs : gmap string Parser.file) (m m' : Manager.QuizManager) (path : string)
    (clock : nat -> timestamp) :
  Loader.load_quiz py_repr fs m path clock = Some (m', true) ->
  exists qs,
    Parser.parse_file py_repr fs path = Ok qs /\
    forall r, In r (questions (Manager.db m)) ->
      q_quiz_file r <> path \/
      ~ In (Parser.PStr (q_question_id r)) (map Parser.qid qs) ->
      In r (questions (Manager.db m')) /\
      forall st, srs_stats (Manager.db m) !! q_id r = Some st ->
                 srs_stats (Manager.db m') !! q_id r = Some st.
Proof.
  unfold Loader.load_quiz.
  destruct (Parser.parse_file py_repr fs path) as [[|q qs]|e]; try discriminate.
  destruct (mapM Loader.registration_of (q :: qs)) as [rows|] eqn:Er; [|discriminate].
  cbn [mbind option_bind]. intros [= <-]. cbn [Manager.db].
  exists (q :: qs). split; [reflexivity|]. intros r Hin Hother. split.
  - apply register_all_keeps_row; [exact Hin|].
    destruct Hother as [H|H]; [now left|]. right. intros Hid. apply H.
    rewrite (registration_ids _ _ Er). apply in_map_iff in Hid as (g & Hg & Hin').
    apply in_map_iff. exists g. now rewrite Hg.
  - intros st. apply register_all_keeps_state.
Qed.

Lemma load_keeps_other_questions_witness :
  exists r, In r (questions (Manager.db Cases.capitals_loaded)) /\
            q_quiz_file r = Sample.quiz /\ q_id r = 1.
Proof.
  destruct (load_keeps_other_questions Sample.no_repr Cases.quiz_dir Sample.session
              Cases.capitals_loaded "quizy/capitals.md" (fun k => 5000 + Z.of_nat k))
    as (qs & _ & H).
  - vm_compute. reflexivity.
  - exists {| q_id := 1; q_quiz_file := Sample.quiz; q_question_id := "py_2";
              q_question_text := "Which keyword imports a module?";
              q_correct_answer := "import"; q_question_type := "text";
              q_options := None; q_correct_answers := None |}.
    split; [|split; reflexivity]. apply H.
    + vm_compute. now left.
    + left. discriminate.
Defined.

(** X23.  [load_quiz] returns [False] and leaves the manager and the store
    as they were when the file does not exist, when its extension is
    neither .json nor .md (in any letter case), when the JSON decoder
    raises, and when a Markdown file holds no question. *)
Theorem failed_load_changes_nothing (py_repr : Parser.pyval -> string)
    (fs : gmap string Parser.file) (m : Manager.QuizManager) (path : string)
    (clock : nat -> timestamp) :
  let ext := PyStr.lower (Parser.extension path) in
  fs !! path = None \/
  (ext <> ".json"%string /\ ext <> ".md"%string) \/
  (exists f e, fs !! path = Some f /\ ext = ".json"%string /\
               Parser.f_json f = Raise e) \/
  (exists f, fs !! path = Some f /\ ext = ".md"%string /\
             Parser._parse_markdown (Parser.f_text f) = []) ->
  Loader.load_quiz py_repr fs m path clock = Some (m, false).
Proof.
  cbn zeta. unfold Loader.load_quiz, Parser.parse_file.
  intros [H|[[H1 H2]|[(f & e & Hf & Hext & He)|(f & Hf & Hext & Hq)]]].
  - now rewrite H.
  - apply String.eqb_neq in H1, H2. rewrite H1, H2. now destruct (fs !! path).
  - rewrite Hf, Hext, He. reflexivity.
  - rewrite Hf, Hext, Hq. reflexivity.
Qed.

Lemma failed_load_changes_nothing_witness :
  Loader.load_quiz Sample.no_repr Cases.quiz_dir Sample.session "quizy/notes.txt"
                   (fun k => 5000 + Z.of_nat k)
  = Some (Sample.session, false) /\
  Loader.load_quiz Sample.no_repr Cases.quiz_dir Sample.session "quizy/empty.md"
                   (fun k => 5000 + Z.of_nat k)
  = Some (Sample.session, false).
Proof.
  split; apply failed_load_changes_nothing.
  - left. vm_compute. reflexivity.
  - right. right. right. exists Cases.empty_file. vm_compute. repeat split.
Defined.

(** ** Questions from structured sources *)

Lemma all_str_spec (l : list Parser.pyval) :
  if Shapes.is_str_list (Parser.PList l)
  then exists ss, l = map Parser.PStr ss /\ Parser.all_str l = Ok ss
  else Parser.all_str l = Raise TypeError.
Proof.
  induction l as [|v l IH]; cbn.
  - now exists [].
  - destruct v; cbn; try reflexivity.
    cbn in IH. destruct (forallb _ l).
    + destruct IH as (ss & -> & ->). now exists (s :: ss).
    + now rewrite IH.
Qed.

(** X24.  [_create_question_from_dict] raises in two situations only, a
    TypeError both times: the entry has options, its type is 'text' (given
    or by default) and its [correct_answers] is a truthy value without a
    length (a number, [true]); or its answer is a list with an item that
    is not a string.  Otherwise it returns a question that keeps the id
    (or the default id), the prompt, the options, the category and the
    difficulty of the entry; a list answer makes the question multiple
    choice with that list as correct answers and its ", "-join as answer
    text, whatever type the entry states; any other answer is kept, and
    so is a stated type other than 'text'.  Anything but an object raises
    AttributeError. *)
Theorem question_from_dict_outcome (d : list (string * Parser.pyval))
    (default_id : string) :
  let opts := Shapes.field d "options" "choices" (Parser.PList []) in
  let ans := Shapes.field d "answer" "a" (Parser.PStr "") in
  let ty := default (Parser.PStr "text") (Parser.dict_get d "type") in
  let ca := default Parser.PNone (Parser.dict_get d "correct_answers") in
  let unsized := Parser.truthy opts && Parser.is_str ty "text" && Parser.truthy ca
                 && negb (Shapes.is_sized ca) in
  let mixed := Shapes.is_list ans && negb (Shapes.is_str_list ans) in
  (if unsized || mixed
   then Parser._create_question_from_dict (Parser.PDict d) default_id = Raise TypeError
   else exists q,
     Parser._create_question_from_dict (Parser.PDict d) default_id = Ok q /\
     Parser.qid q = default (Parser.PStr default_id) (Parser.dict_get d "id") /\
     Parser.question q = Shapes.field d "question" "q" (Parser.PStr "") /\
     Parser.options q = opts /\
     Parser.category q = Shapes.field d "category" "topic" (Parser.PStr "") /\
     Parser.qdifficulty q = default (Parser.PInt 1) (Parser.dict_get d "difficulty") /\
     (if Shapes.is_list ans
      then Parser.question_type q = Parser.PStr "multiple_choice" /\
           Parser.correct_answers q = ans /\
           exists ss, ans = Parser.PList (map Parser.PStr ss) /\
                      Parser.answer q = Parser.PStr (PyStr.join ", " ss)
      else Parser.answer q = ans /\ Parser.correct_answers q = ca /\
           (Parser.truthy opts && Parser.is_str ty "text" = false ->
            Parser.question_type q = ty))) /\
  (forall v, Shapes.is_dict v = false ->
             Parser._create_question_from_dict v default_id = Raise AttributeError).
Proof.
  cbn zeta. split; [|intros v Hv; now destruct v].
  unfold Parser._create_question_from_dict, Parser.get.
  cbn [mbind result_bind].
  fold (Shapes.field d "options" "choices" (Parser.PList [])).
  fold (Shapes.field d "answer" "a" (Parser.PStr "")).
  fold (Shapes.field d "question" "q" (Parser.PStr "")).
  fold (Shapes.field d "category" "topic" (Parser.PStr "")).
  generalize (Shapes.field d "options" "choices" (Parser.PList [])) as opts.
  generalize (Shapes.field d "answer" "a" (Parser.PStr "")) as ans.
  generalize (default (Parser.PStr "text") (Parser.dict_get d "type")) as ty.
  generalize (default Parser.PNone (Parser.dict_get d "correct_answers")) as ca.
  intros ca ty ans opts.
  assert (Hans : forall type1 : Parser.pyval,
    if Shapes.is_list ans && negb (Shapes.is_str_list ans)
    then match ans with
         | Parser.PList l =>
             ss ← Parser.all_str l;
             Ok (Parser.PStr (PyStr.join ", " ss), ans, Parser.PStr "multiple_choice")
         | _ => Ok (ans, ca, type1)
         end = Raise TypeError
    else exists a c t,
         match ans with
         | Parser.PList l =>
             ss ← Parser.all_str l;
             Ok (Parser.PStr (PyStr.join ", " ss), ans, Parser.PStr "multiple_choice")
         | _ => Ok (ans, ca, type1)
         end = Ok (a, c, t) /\
         if Shapes.is_list ans
         then t = Parser.PStr "multiple_choice" /\ c = ans /\
              exists ss, ans = Parser.PList (map Parser.PStr ss) /\
                         a = Parser.PStr (PyStr.join ", " ss)
         else a = ans /\ c = ca /\ t = type1).
  { intros type1. destruct ans as [| | | | |l|]; cbn [Shapes.is_list andb];
      try (eexists _, _, _; split; [reflexivity|]; now repeat split).
    pose proof (all_str_spec l) as Hl.
    destruct (Shapes.is_str_list (Parser.PList l)); cbn [negb].
    - destruct Hl as (ss & -> & ->). cbn.
      eexists _, _, _. split; [reflexivity|]. repeat split. now exists ss.
    - now rewrite Hl. }
  destruct (Parser.truthy opts && Parser.is_str ty "text") eqn:Eo; cbn [andb].
  - destruct (Parser.truthy ca) eqn:Ec; cbn [andb].
    + destruct (Shapes.is_sized ca) eqn:Es; cbn [negb orb].
      * assert (Hlen : exists n, Parser.py_len ca = Ok n)
          by (destruct ca; try discriminate; cbn; eauto).
        destruct Hlen as [n ->]. cbn [mbind result_bind].
        match goal with |- context [Ok (ans, ca, ?t)] => specialize (Hans t) end.
        destruct (Shapes.is_list ans && negb (Shapes.is_str_list ans)).
        -- now rewrite Hans.
        -- destruct Hans as (a & c & t & -> & H). cbn.
           eexists. split; [reflexivity|]. cbn. repeat split.
           destruct (Shapes.is_list ans); [exact H|].
           destruct H as (-> & -> & _). repeat split. discriminate.
      * now destruct ca.
    + cbn [mbind result_bind orb].
      match goal with |- context [Ok (ans, ca, ?t)] => specialize (Hans t) end.
      destruct (Shapes.is_list ans && negb (Shapes.is_str_list ans)).
      * now rewrite Hans.
      * destruct Hans as (a & c & t & -> & H). cbn.
        eexists. split; [reflexivity|]. cbn. repeat split.
        destruct (Shapes.is_list ans); [exact H|].
        destruct H as (-> & -> & _). repeat split. discriminate.
  - cbn [mbind result_bind orb]. specialize (Hans ty).
    destruct (Shapes.is_list ans && negb (Shapes.is_str_list ans)).
    + now rewrite Hans.
    + destruct Hans as (a & c & t & -> & H). cbn.
      eexists. split; [reflexivity|]. cbn. repeat split.
      destruct (Shapes.is_list ans); [exact H|].
      destruct H as (-> & -> & ->). now repeat split.
Qed.

Lemma list_branch_collect (n : nat) (items : list Parser.pyval) :
  (qs ← Parser.collect
          (fun '(i, item) =>
             match item with
             | Parser.PDict _ =>
                 q ← Parser._create_question_from_dict item (pretty i); Ok [q]
             | _ => Ok []
             end)
          (Parser.enumerate_from n items);
   Ok (concat qs))
  = Parser.collect
      (fun '(i, item) => Parser._create_question_from_dict item (pretty i))
      (List.filter (fun p : nat * Parser.pyval => Shapes.is_dict (snd p))
                   (Parser.enumerate_from n items)).
Proof.
  revert n. induction items as [|v items IH]; intros n; [reflexivity|].
  cbn [Parser.enumerate_from Parser.collect List.filter snd].
  specialize (IH (S n)).
  destruct v; cbn [Shapes.is_dict]; cbn [mbind result_bind] in *;
    try (rewrite <- IH;
         now destruct (Parser.collect _ (Parser.enumerate_from (S n) items))).
  cbn [Parser.collect]. rewrite <- IH.
  destruct (Parser._create_question_from_dict (Parser.PDict d) (pretty n));
    cbn [mbind result_bind]; [|reflexivity].
  now destruct (Parser.collect _ (Parser.enumerate_from (S n) items)).
Qed.

Lemma collect_length {A B} (f : A -> result B) (l : list A) (ys : list B) :
  Parser.collect f l = Ok ys -> length ys = length l.
Proof.
  revert ys. induction l as [|x l IH]; intros ys; cbn.
  - now intros [= <-].
  - destruct (f x); [|discriminate]. cbn.
    destruct (Parser.collect f l) as [ys'|]; [|discriminate]. cbn.
    intros [= <-]. cbn. now rewrite (IH ys' eq_refl).
Qed.

Lemma collect_rejects (n : nat) (items : list Parser.pyval) :
  Exists (fun v => Shapes.is_dict v = false) items ->
  exists e, Parser.collect
              (fun '(i, item) => Parser._create_question_from_dict item (pretty i))
              (Parser.enumerate_from n items) = Raise e.
Proof.
  intros H. revert n. induction H as [v items Hv|v items _ IH]; intros n;
    cbn [Parser.enumerate_from Parser.collect].
  - destruct v; try discriminate; cbn; eauto.
  - destruct (Parser._create_question_from_dict v (pretty n)); cbn; [|eauto].
    destruct (IH (S n)) as [e ->]. cbn. eauto.
Qed.

(** X25.  The two list formats of a JSON file treat an entry that is not
    an object differently.  In a top-level list such an entry is skipped,
    yet it counts for the numbering: the result is what
    [_create_question_from_dict] makes of the object entries, each with
    its position in the whole list as default id.  In the list under
    "questions" one such entry makes the whole file fail with an
    exception; when that format succeeds, every entry has given a
    question.  A JSON object without the key "questions" never fails: it
    gives one free-text question per key, with the key as id and as
    prompt. *)
Theorem json_formats (py_repr : Parser.pyval -> string) :
  (forall items,
     Parser._parse_json py_repr (Parser.PList items)
     = Parser.collect
         (fun '(i, item) => Parser._create_question_from_dict item (pretty i))
         (List.filter (fun p : nat * Parser.pyval => Shapes.is_dict (snd p))
                      (Parser.enumerate_from 0 items))) /\
  (forall d items,
     Parser.dict_get d "questions" = Some (Parser.PList items) ->
     (Exists (fun v => Shapes.is_dict v = false) items ->
      exists e, Parser._parse_json py_repr (Parser.PDict d) = Raise e) /\
     (forall qs, Parser._parse_json py_repr (Parser.PDict d) = Ok qs ->
                 length qs = length items)) /\
  (forall d,
     Parser.dict_get d "questions" = None ->
     exists qs, Parser._parse_json py_repr (Parser.PDict d) = Ok qs /\
                Forall Shapes.is_text_question qs /\
                map Parser.qid qs = map (fun kv => Parser.PStr (fst kv)) d /\
                map Parser.question qs = map (fun kv => Parser.PStr (fst kv)) d).
Proof.
  split; [|split].
  - intros items. apply list_branch_collect.
  - intros d items Hd. unfold Parser._parse_json. rewrite Hd.
    cbn [Parser.iterate mbind result_bind]. split.
    + apply collect_rejects.
    + intros qs Hqs. apply collect_length in Hqs. rewrite Hqs.
      clear. generalize 0%nat. induction items as [|v items IH]; intros n;
        [reflexivity|]. cbn. now rewrite IH.
  - intros d Hd. unfold Parser._parse_json. rewrite Hd. eexists.
    split; [reflexivity|]. clear Hd.
    induction d as [|[k v] d (I1 & I2 & I3)]; cbn.
    + split; [constructor|]. now split.
    + split; [constructor; [apply text_question_shape|exact I1]|].
      split; f_equal; assumption.
Qed.

(** ** Statistics *)

Lemma length_flat_map_pairs {A B C} (f : A -> list B) (g : A -> B -> C) (l : list A) :
  length (flat_map (fun x => map (g x) (f x)) l)
  = list_sum (map (fun x => length (f x)) l).
Proof.
  unfold list_sum. induction l as [|x l IH]; [reflexivity|].
  cbn. now rewrite length_app, length_map, IH.
Qed.

Lemma list_sum_indicator {A} (p : A -> bool) (l : list A) :
  list_sum (map (fun x => if p x then 1%nat else 0%nat) l) = length (List.filter p l).
Proof.
  unfold list_sum in *. induction l as [|x l IH]; [reflexivity|].
  cbn. destruct (p x); cbn; now rewrite IH.
Qed.

(** With unique ids the join pairs a key with at most one question. *)
Lemma joined_at_most_one (db : Database) (quiz_file : option string) (id : Z) :
  NoDup (map q_id (questions db)) ->
  length (Stats.joined db quiz_file id)
  = if existsb (fun q => (q_id q =? id) && Stats.in_file quiz_file q) (questions db)
    then 1%nat else 0%nat.
Proof.
  unfold Stats.joined. induction (questions db) as [|x l IH]; intros Hnd; [reflexivity|].
  cbn in Hnd. apply NoDup_cons in Hnd as [Hx Hnd]. cbn.
  destruct (q_id x =? id) eqn:E; cbn [andb orb].
  - apply Z.eqb_eq in E.
    assert (Hnone : forall p, List.filter (fun q => (q_id q =? id) && p q) l = []).
    { intros p. clear IH Hnd. induction l as [|y l IH]; [reflexivity|]. cbn.
      destruct (q_id y =? id) eqn:Ey.
      - apply Z.eqb_eq in Ey. destruct Hx. rewrite E, <- Ey. now left.
      - cbn. apply IH. intros H. apply Hx. now right. }
    destruct (Stats.in_file quiz_file x); cbn.
    + now rewrite Hnone.
    + now apply IH.
  - now apply IH.
Qed.

Lemma joined_answers_count (db : Database) (quiz_file : option string) :
  NoDup (map q_id (questions db)) ->
  length (Stats.joined_answers db quiz_file)
  = length (List.filter
              (fun ua => existsb (fun q => (q_id q =? a_question_id ua)
                                           && Stats.in_file quiz_file q)
                                 (questions db))
              (user_answers db)).
Proof.
  intros Hnd. unfold Stats.joined_answers.
  rewrite length_flat_map_pairs, <- list_sum_indicator. f_equal.
  apply map_ext. intros ua. now apply joined_at_most_one.
Qed.

Lemma key_count_list (l : list (Z * srs_row)) (o : option srs_row) (k : Z) :
  NoDup (map fst l) ->
  (forall st, In (k, st) l <-> o = Some st) ->
  length (List.filter (fun p : Z * srs_row => k =? fst p) l)
  = match o with Some _ => 1%nat | None => 0%nat end.
Proof.
  induction l as [|[k0 st0] l IH]; intros Hnd Hin.
  - destruct o as [st|]; [|reflexivity]. now destruct (proj2 (Hin st) eq_refl).
  - cbn in Hnd. apply NoDup_cons in Hnd as [Hk0 Hnd]. cbn.
    destruct (k =? k0) eqn:E.
    + apply Z.eqb_eq in E. subst k0.
      rewrite (proj1 (Hin st0)) by now left. cbn. f_equal.
      clear IH Hin Hnd. induction l as [|[k1 st1] l IH]; [reflexivity|]. cbn.
      destruct (k =? k1) eqn:E1.
      * apply Z.eqb_eq in E1. subst k1. destruct Hk0. cbn. now left.
      * apply IH. intros H. apply Hk0. cbn. now right.
    + apply Z.eqb_neq in E. apply IH; [exact Hnd|].
      intros st. rewrite <- Hin.
      split; [now right|]. intros [[= ? ?]|H]; [congruence|exact H].
Qed.

Lemma key_count (m : gmap Z srs_row) (k : Z) :
  length (List.filter (fun p : Z * srs_row => k =? fst p) (map_to_list m))
  = match m !! k with Some _ => 1%nat | None => 0%nat end.
Proof.
  apply key_count_list; [apply NoDup_fst_map_to_list|].
  intros st. rewrite <- list_elem_of_In. apply elem_of_map_to_list.
Qed.

Lemma joined_states_count (db : Database) (quiz_file : option string) :
  length (Stats.joined_states db quiz_file)
  = length (List.filter
              (fun q => Stats.in_file quiz_file q
                        && bool_decide (is_Some (srs_stats db !! q_id q)))
              (questions db)).
Proof.
  unfold Stats.joined_states, Stats.joined.
  pose proof (key_count (srs_stats db)) as Hkey. revert Hkey.
  generalize (map_to_list (srs_stats db)). intros l Hkey.
  induction (questions db) as [|q qs IH].
  - cbn. clear Hkey. induction l as [|[id st] l IHl]; [reflexivity|]. cbn. exact IHl.
  - cbn [List.filter].
    assert (Hstep : forall l : list (Z * srs_row),
      length (flat_map (fun '(id, st) =>
                map (pair st) (List.filter (fun q0 => (q_id q0 =? id)
                                              && Stats.in_file quiz_file q0) (q :: qs))) l)
      = Nat.add
          (length (flat_map (fun '(id, st) =>
                     map (pair st) (List.filter (fun q0 => (q_id q0 =? id)
                                                   && Stats.in_file quiz_file q0) qs)) l))
          (if Stats.in_file quiz_file q
           then length (List.filter (fun p : Z * srs_row => q_id q =? fst p) l)
           else 0%nat)).
    { clear. induction l as [|[id st] l IH]; [now destruct (Stats.in_file _ _)|].
      cbn [flat_map]. rewrite !length_app, !length_map, IH.
      cbn [List.filter fst].
      destruct (q_id q =? id), (Stats.in_file quiz_file q); cbn [andb length]; lia. }
    rewrite Hstep, IH, Hkey.
    destruct (Stats.in_file quiz_file q); cbn [andb]; [|lia].
    destruct (srs_stats db !! q_id q) eqn:E.
    + rewrite bool_decide_eq_true_2 by eauto. cbn. lia.
    + rewrite bool_decide_eq_false_2 by (intros [? ?]; discriminate). lia.
Qed.

Lemma statistics_spec (sql_avg : list float -> float) (db : Database)
    (quiz_file : option string) :
  exists s, Stats.get_statistics sql_avg db quiz_file = Ok s /\
    Stats.total_questions s = Z.of_nat (length (Stats.joined_states db quiz_file)) /\
    Stats.total_answers s = Z.of_nat (length (Stats.joined_answers db quiz_file)) /\
    0 <= Stats.correct_answers s <= Stats.total_answers s /\
    0 <= Stats.learned_questions s <= Stats.total_questions s /\
    (Stats.total_answers s = 0 -> Stats.accuracy s = Stats.NInt 0) /\
    (0 < Stats.total_answers s -> exists f, Stats.accuracy s = Stats.NFloat f).
Proof.
  assert (Hsum : forall A (c : A -> bool) (l : list A),
    0 <= default 0 (Stats.sql_sum_case c l) <= Stats.sql_count l).
  { intros A c l. unfold Stats.sql_sum_case, Stats.sql_count.
    destruct l as [|x l]; [cbn; lia|]. cbn [default].
    pose proof (List.filter_length_le c (x :: l)) as Hle. revert Hle.
    generalize (List.filter c (x :: l)). intros fl Hle. unfold id. lia. }
  unfold Stats.get_statistics.
  set (answers := Stats.joined_answers db quiz_file).
  set (states := Stats.joined_states db quiz_file).
  pose proof (Hsum _ (fun r => a_is_correct (fst r)) answers) as Hc.
  pose proof (Hsum _ (fun r : srs_row * question_row => 0 <? repetitions (fst r)) states)
    as Hl.
  destruct (0 <? Stats.sql_count answers) eqn:E.
  - apply Z.ltb_lt in E.
    destruct (Stats.sql_sum_case _ answers) as [c|] eqn:Ec.
    + unfold truediv. destruct (Stats.sql_count answers =? 0) eqn:E0;
        [apply Z.eqb_eq in E0; lia|].
      cbn [mbind result_bind]. change (float_of_int 100) with (Ok (float_of_Z 100)).
      cbn [mbind result_bind]. eexists. split; [reflexivity|]. cbn.
      repeat split; try (cbn in Hc; lia); try (cbn in Hl; lia); try lia; eauto.
    + unfold Stats.sql_sum_case, Stats.sql_count in *.
      destruct answers; [cbn in E; lia|discriminate].
  - apply Z.ltb_ge in E. cbn [mbind result_bind]. eexists. split; [reflexivity|]. cbn.
    repeat split; try (cbn in Hc; lia); try (cbn in Hl; lia); try lia.
Qed.

Lemma statistics_counts (sql_avg : list float -> float) (db : Database)
    (quiz_file : option string) :
  Props.well_keyed db -> Props.all_have_state db ->
  exists s, Stats.get_statistics sql_avg db quiz_file = Ok s /\
    Stats.total_questions s
    = Z.of_nat (length (List.filter (Stats.in_file quiz_file) (questions db))) /\
    Stats.total_answers s
    = Z.of_nat (length (List.filter
                          (fun ua => Stats.is_registered db quiz_file (a_question_id ua))
                          (user_answers db))) /\
    0 <= Stats.correct_answers s <= Stats.total_answers s /\
    0 <= Stats.learned_questions s <= Stats.total_questions s /\
    (Stats.total_answers s = 0 -> Stats.accuracy s = Stats.NInt 0) /\
    (0 < Stats.total_answers s -> exists f, Stats.accuracy s = Stats.NFloat f).
Proof.
  intros (Hid & _) Hst.
  destruct (statistics_spec sql_avg db quiz_file) as (s & Hs & H1 & H2 & H).
  exists s. split; [exact Hs|]. split; [|split; [|exact H]].
  - rewrite H1, joined_states_count. do 2 f_equal.
    apply filter_ext_in. intros q Hq.
    rewrite (bool_decide_eq_true_2 _ (Hst q Hq)). apply andb_true_r.
  - rewrite H2, joined_answers_count by exact Hid. reflexivity.
Qed.

(** X26.  After any history [get_statistics] returns without an error
    (an empty join leaves SUM at NULL, which is not divided), and it
    counts what is registered: [total_questions] is the number of
    questions in the table (of the quiz file, when one is given), and
    [total_answers] is the number of recorded answers whose question id
    is that of such a question, so answers given to rows that have since
    been replaced are not counted.  The counters are ordered,
    0 <= correct <= total answers and 0 <= learned <= total questions, and
    the accuracy is the integer 0 exactly when nothing is counted. *)
Theorem statistics_count_what_is_registered (sql_avg : list float -> float)
    (events : list Spec.event) (quiz_file : option string) :
  let db := Spec.after events in
  exists s, Stats.get_statistics sql_avg db quiz_file = Ok s /\
    Stats.total_questions s
    = Z.of_nat (length (List.filter (Stats.in_file quiz_file) (questions db))) /\
    Stats.total_answers s
    = Z.of_nat (length (List.filter
                          (fun ua => Stats.is_registered db quiz_file (a_question_id ua))
                          (user_answers db))) /\
    0 <= Stats.correct_answers s <= Stats.total_answers s /\
    0 <= Stats.learned_questions s <= Stats.total_questions s /\
    (Stats.total_answers s = 0 -> Stats.accuracy s = Stats.NInt 0) /\
    (0 < Stats.total_answers s -> exists f, Stats.accuracy s = Stats.NFloat f).
Proof.
  cbn zeta. apply statistics_counts.
  - apply history_invariants.
  - apply fold_invariant; [intros q []|apply apply_all_have_state].
Qed.

Lemma kept_is_all (f i : string) (l : list question_row) :
  ~ In (f, i) (map Props.identity l) ->
  List.filter (fun q => negb (same_identity f i q)) l = l.
Proof.
  induction l as [|x l IH]; intros H; [reflexivity|]. cbn.
  destruct (same_identity f i x) eqn:E.
  - apply same_identity_iff in E. destruct H. now left.
  - cbn. f_equal. apply IH. intros H'. apply H. now right.
Qed.

Lemma kept_count (p : question_row -> bool) (f i : string) (r : question_row)
    (l : list question_row) :
  NoDup (map Props.identity l) -> In r l -> same_identity f i r = true ->
  (length (List.filter p (List.filter (fun q => negb (same_identity f i q)) l))
   + (if p r then 1 else 0))%nat
  = length (List.filter p l).
Proof.
  intros Hnd Hin Hr. apply same_identity_iff in Hr.
  induction l as [|x l IH]; [destruct Hin|].
  cbn in Hnd. apply NoDup_cons in Hnd as [Hx Hnd]. cbn [List.filter].
  destruct (same_identity f i x) eqn:E; cbn [negb].
  - apply same_identity_iff in E.
    assert (r = x) as ->.
    { destruct Hin as [->|Hin]; [reflexivity|]. destruct Hx. rewrite E, <- Hr.
      apply list_elem_of_In, in_map_iff. now exists r. }
    rewrite kept_is_all.
    + destruct (p x); cbn; lia.
    + intros H. apply Hx. rewrite E. now apply list_elem_of_In.
  - destruct Hin as [->|Hin].
    + apply same_identity_iff in Hr. congruence.
    + cbn [List.filter]. specialize (IH Hnd Hin). destruct (p x); cbn; lia.
Qed.

Lemma NoDup_map_eq {A B} (f : A -> B) (l : list A) (x y : A) :
  NoDup (map f l) -> In x l -> In y l -> f x = f y -> x = y.
Proof.
  induction l as [|z l IH]; intros Hnd Hx Hy Hf; [destruct Hx|].
  cbn in Hnd. apply NoDup_cons in Hnd as [Hz Hnd].
  destruct Hx as [->|Hx], Hy as [->|Hy]; auto.
  - destruct Hz. rewrite Hf. apply list_elem_of_In, in_map_iff. now exists y.
  - destruct Hz. rewrite <- Hf. apply list_elem_of_In, in_map_iff. now exists x.
Qed.

Lemma registered_after_replace (db : Database) (quiz_file : option string)
    now f i t a ty o c (r : question_row) (id : Z) :
  Props.well_keyed db -> In r (questions db) -> same_identity f i r = true ->
  id <= questions_seq db ->
  Stats.is_registered (fst (add_question db now f i t a ty o c)) quiz_file id
  = Stats.is_registered db quiz_file id && negb (id =? q_id r).
Proof.
  intros (Hid & Hident & _ & _) Hin Hr Hle.
  unfold Stats.is_registered. cbn [add_question fst questions].
  rewrite existsb_app. cbn [existsb q_id].
  replace (questions_seq db + 1 =? id) with false by (symmetry; apply Z.eqb_neq; lia).
  cbn [andb orb]. rewrite orb_false_r.
  apply eq_true_iff_eq. rewrite andb_true_iff, negb_true_iff, !existsb_exists.
  split.
  - intros (q & Hq & Hp). apply in_kept in Hq as [Hq Hne]. split; [now exists q|].
    apply Z.eqb_neq. intros ->. apply andb_true_iff in Hp as [Hp _].
    apply Z.eqb_eq in Hp. apply Hne.
    assert (q = r) as ->; [|now apply same_identity_iff].
    apply (NoDup_map_eq q_id (questions db)); auto.
  - intros [(q & Hq & Hp) Hne]. exists q. split; [|exact Hp].
    apply in_kept. split; [exact Hq|]. intros Hq'.
    apply Z.eqb_neq in Hne. apply Hne.
    apply andb_true_iff in Hp as [Hp _]. apply Z.eqb_eq in Hp. rewrite <- Hp.
    f_equal. apply same_identity_iff in Hr.
    apply (NoDup_map_eq Props.identity (questions db)); auto. congruence.
Qed.

Lemma filter_split {A} (p q : A -> bool) (l : list A) :
  (forall x, In x l -> q x = true -> p x = true) ->
  (length (List.filter (fun x => p x && negb (q x)) l) + length (List.filter q l))%nat
  = length (List.filter p l).
Proof.
  induction l as [|x l IH]; intros H; [reflexivity|].
  cbn [List.filter]. specialize (IH (fun y Hy => H y (or_intror Hy))).
  pose proof (H x (or_introl eq_refl)) as Hx.
  destruct (q x); [rewrite Hx by reflexivity|]; destruct (p x); cbn; lia.
Qed.

(** X27.  Registering a question again takes its answers out of the
    statistics.  After any history in which every answer was given to an
    id that had been handed out, once a question that is in the table
    under id [k] is registered again, [get_statistics], for all quizzes or
    for the quiz of that question, counts as many questions as before and
    as many answers as before less all the answers that were given to
    [k]. *)
Theorem reregistration_drops_answers_from_statistics (sql_avg : list float -> float)
    (events : list Spec.event) (now : timestamp) (f i t a ty : string)
    (o c : option (list string)) (k : Z) (quiz_file : option string) :
  let db := Spec.after events in
  let db' := fst (add_question db now f i t a ty o c) in
  Stats.answers_bounded db ->
  get_question_db_id db f i = Some k ->
  quiz_file = None \/ quiz_file = Some f ->
  exists s s',
    Stats.get_statistics sql_avg db quiz_file = Ok s /\
    Stats.get_statistics sql_avg db' quiz_file = Ok s' /\
    Stats.total_questions s' = Stats.total_questions s /\
    Stats.total_answers s'
    = Stats.total_answers s - Z.of_nat (length (Stats.answers_to db k)).
Proof.
  cbn zeta. intros Hbound Hk Hqf.
  destruct (history_invariants events) as [_ Hw].
  assert (Hst : Props.all_have_state (Spec.after events))
    by (apply fold_invariant; [intros q []|apply apply_all_have_state]).
  set (db := Spec.after events) in *.
  unfold get_question_db_id in Hk.
  destruct (List.find (same_identity f i) (questions db)) as [r|] eqn:Er;
    [|discriminate].
  injection Hk as Hk. apply find_some in Er as [Hin Hr].
  assert (Hfile : Stats.in_file quiz_file r = true).
  { apply same_identity_iff in Hr. injection Hr as Hf _.
    destruct Hqf as [->| ->]; [reflexivity|]. cbn.
    destruct f; [reflexivity|]. rewrite Hf. apply String.eqb_refl. }
  destruct (statistics_counts sql_avg db quiz_file Hw Hst) as (s & Hs & Q & A & _).
  destruct (statistics_counts sql_avg (fst (add_question db now f i t a ty o c))
              quiz_file (add_question_well_keyed db now f i t a ty o c Hw)
              (add_question_all_have_state db now f i t a ty o c Hst))
    as (s' & Hs' & Q' & A' & _).
  exists s, s'. split; [exact Hs|]. split; [exact Hs'|]. split.
  - rewrite Q, Q'. f_equal. cbn [add_question fst questions].
    rewrite List.filter_app, length_app.
    pose proof (kept_count (Stats.in_file quiz_file) f i r (questions db)
                  (proj1 (proj2 Hw)) Hin Hr) as Hc.
    rewrite Hfile in Hc. rewrite <- Hc. f_equal. cbn [List.filter].
    replace (Stats.in_file quiz_file _) with true; [reflexivity|].
    symmetry. destruct Hqf as [->| ->]; [reflexivity|]. cbn.
    destruct f; [reflexivity|]. apply String.eqb_refl.
  - rewrite A, A'. cbn [user_answers add_question fst].
    rewrite (filter_ext_in _
               (fun ua => Stats.is_registered db quiz_file (a_question_id ua)
                          && negb (a_question_id ua =? k))).
    + pose proof (filter_split
        (fun ua => Stats.is_registered db quiz_file (a_question_id ua))
        (fun ua => a_question_id ua =? k) (user_answers db)) as Hsplit.
      unfold Stats.answers_to. rewrite <- Hsplit; [lia|].
      intros ua _ Hua. apply Z.eqb_eq in Hua. unfold Stats.is_registered.
      apply existsb_exists. exists r. split; [exact Hin|].
      rewrite Hfile, Hua, Hk. now rewrite Z.eqb_refl.
    + intros ua Hua. rewrite <- Hk.
      apply registered_after_replace; auto.
Qed.

Lemma reregistration_drops_answers_from_statistics_witness :
  exists s s',
    Stats.get_statistics (fun _ => 0%float) Sample.studied None = Ok s /\
    Stats.get_statistics (fun _ => 0%float) (fst Sample.registered_again) None = Ok s' /\
    Stats.total_questions s' = Stats.total_questions s /\
    Stats.total_answers s' = Stats.total_answers s - 2.
Proof.
  apply (reregistration_drops_answers_from_statistics (fun _ => 0%float)
           [Spec.Register Sample.quiz "py_2" "Which keyword imports a module?"
                          "import" "text" None None 0;
            Spec.AnswerEvent 1 "import" true None 1000 1000;
            Spec.AnswerEvent 1 "import" true None 2000 2000]
           3000 Sample.quiz "py_2" "Which keyword is used to import modules?"
           "import" "text" None None 1 None).
  - intros ua Hua. vm_compute in Hua. destruct Hua as [<-|[<-|[]]]; vm_compute; discriminate.
  - vm_compute. reflexivity.
  - now left.
Defined.
